(** * Bxthre3 Controller Node: a shallow embedding of [bxthre3_controller.py]

    The controller is a Python program; its classes become Rocq modules
    ([Node], [DAG], [TaskScheduler], [ControllerNode]) whose methods are
    functions taking the object ([self]) and returning the mutated object.

    Conventions of the embedding:
    - Wall-clock readings ([time.time()]) are passed in as an argument
      [now : Z]; one reading is used per handled request or loop tick.
    - A Python [dict] that the program iterates over ([nodes], [dags],
      [running_tasks]) is an insertion-ordered association list
      ([pydict]); a dict that is only probed by key ([pending_tasks],
      [task_results], [task_dependencies]) is a [gmap].
    - JSON objects that travel through the program are records: a task
      descriptor is [Task], a result record is [Result], a request is a
      constructor of [message].  These have a value for every request
      that carries the fields its handler reads, with the types the
      worker and the client send them.  A JSON object with a known
      ["type"] and a missing, null or ill-typed field (no ["dag"], a null
      ["tasks"], a task without ["id"], a null ["result"]) has none: on
      those the router raises, and nothing below speaks of them.
    - A Python exception is a value of [exn]; a method that can raise
      returns the mutated object together with an [outcome], because the
      mutations made before the [raise] persist.
    - Requests are handled one at a time: the three locks of the program
      are not modelled, every handler and every loop tick is one step.
    - A task descriptor is a Python dict shared by [DAG.tasks] and the
      scheduler.  Its only mutation is [task["dag_id"] = dag_id] in
      [add_task], always with the id of the DAG that owns the task, and
      nothing reads ["dag_id"] back from [DAG.tasks]; the model stamps the
      descriptor it queues and keeps [DAG.tasks] as submitted.
    - A socket is a number, logging is left out, and the [running] flag of
      the loops is taken to be set. *)

From stdpp Require Import gmap strings list fin_maps.
From Stdlib Require Import ZArith Lia.
From Stdlib Require Strings.Byte.
From Equations Require Import Equations.

(** ** Python runtime *)

Inductive exn :=
| KeyError (key : string)
| RuntimeError (msg : string)
| AttributeError (msg : string)
| JSONDecodeError.

Inductive outcome (A : Type) :=
| Ok (a : A)
| Raise (e : exn).
Arguments Ok {A} a.
Arguments Raise {A} e.

(** What a dict iterator raises when the dict was resized under it. *)
Definition changed_size : exn :=
  RuntimeError "dictionary changed size during iteration".

(** Insertion-ordered dictionaries with string keys. *)
Definition pydict (V : Type) : Type := list (string * V).

Section pydict_ops.
Context {V : Type}.

(** [d.get(k)] *)
Fixpoint dict_get (k : string) (d : pydict V) : option V :=
  match d with
  | [] => None
  | (k', v) :: d' => if decide (k = k') then Some v else dict_get k d'
  end.

(** [k in d] *)
Definition dict_in (k : string) (d : pydict V) : bool :=
  match dict_get k d with Some _ => true | None => false end.

(** [d[k] = v]: an existing key keeps its position, a new key goes last. *)
Fixpoint dict_set (k : string) (v : V) (d : pydict V) : pydict V :=
  match d with
  | [] => [(k, v)]
  | (k', v') :: d' =>
      if decide (k = k') then (k, v) :: d' else (k', v') :: dict_set k v d'
  end.

(** [del d[k]], for a key that is present (every caller checks). *)
Fixpoint dict_del (k : string) (d : pydict V) : pydict V :=
  match d with
  | [] => []
  | (k', v') :: d' =>
      if decide (k = k') then dict_del k d' else (k', v') :: dict_del k d'
  end.

(** [list(d.keys())] *)
Definition dict_keys (d : pydict V) : list string := map fst d.
End pydict_ops.

(** [k in m] for the dictionaries kept as [gmap]. *)
Definition key_in {V : Type} (k : string) (m : gmap string V) : bool :=
  match m !! k with Some _ => true | None => false end.

(** ** JSON data carried by the protocol *)

Inductive scalar :=
| JInt (z : Z)
| JStr (s : string)
| JBool (b : bool)
| JNull.

(** Task descriptor: [{"id", "module", "inputs", "depends_on"?, "dag_id"?}]. *)
Record Task := mkTask {
  t_id : string;
  t_module : string;
  t_inputs : list scalar;
  t_depends_on : option (list string);
  t_dag_id : option string
}.

(** Result record: [{"success", "output", "error", "duration", "dag_id"}]. *)
Record Result := mkResult {
  r_success : bool;
  r_output : string;
  r_error : string;
  r_duration : Z;
  r_dag_id : option string
}.

(** [task["dag_id"] = dag_id] *)
Definition set_dag_id (task : Task) (dag_id : string) : Task :=
  mkTask (t_id task) (t_module task) (t_inputs task) (t_depends_on task)
         (Some dag_id).

(** Truthiness of [result.get("dag_id")]: [None] and [""] are falsy. *)
Definition truthy_str (o : option string) : option string :=
  match o with
  | Some s => if decide (s = "") then None else Some s
  | None => None
  end.

(** Truthiness of an optional timestamp: [None] and [0.0] are falsy. *)
Definition truthy_time (o : option Z) : bool :=
  match o with
  | Some t => negb (t =? 0)%Z
  | None => false
  end.

(** ** class Node *)

Module Node.
Inductive Status := idle | busy.

Record t := mk {
  node_id : string;
  conn : nat;
  addr : string * Z;
  ram_limit : Z;
  status : Status;
  current_task : option string;
  task_count : Z;
  last_heartbeat : Z;
  completed_tasks : list (string * Result * Z)
}.

Definition __init__ (node_id : string) (conn : nat) (addr : string * Z)
    (ram_limit : Z) (now : Z) : t :=
  mk node_id conn addr ram_limit idle None 0 now [].

Definition update_heartbeat (self : t) (now : Z) : t :=
  mk (node_id self) (conn self) (addr self) (ram_limit self) (status self)
     (current_task self) (task_count self) now (completed_tasks self).

Definition is_alive (self : t) (now : Z) : bool :=
  bool_decide (now - last_heartbeat self < 60)%Z.

(** [status = "busy"; current_task = task_id] *)
Definition assign (self : t) (task_id : string) : t :=
  mk (node_id self) (conn self) (addr self) (ram_limit self) busy
     (Some task_id) (task_count self) (last_heartbeat self)
     (completed_tasks self).

(** [status = "idle"; current_task = None; task_count += 1;
    completed_tasks.append(...)] *)
Definition finish (self : t) (task_id : string) (result : Result)
    (now : Z) : t :=
  mk (node_id self) (conn self) (addr self) (ram_limit self) idle None
     (task_count self + 1)%Z (last_heartbeat self)
     (completed_tasks self ++ [(task_id, result, now)]).

Record dict := mk_dict {
  d_node_id : string;
  d_addr : string * Z;
  d_ram_limit : Z;
  d_status : Status;
  d_current_task : option string;
  d_task_count : Z;
  d_last_heartbeat : Z
}.

Definition to_dict (self : t) : dict :=
  mk_dict (node_id self) (addr self) (ram_limit self) (status self)
          (current_task self) (task_count self) (last_heartbeat self).
End Node.

(** ** class DAG *)

Module DAG.
Inductive Status := pending | running | completed.

Record t := mk {
  dag_id : string;
  name : string;
  tasks : list Task;
  status : Status;
  task_results : gmap string Result;
  task_dependencies : gmap string (list string);
  created_at : Z;
  started_at : option Z;
  completed_at : option Z
}.

(** [task.get("depends_on", [])] *)
Definition depends_on (task : Task) : list string :=
  default [] (t_depends_on task).

Definition _build_dependencies (tasks : list Task)
    : gmap string (list string) :=
  foldl (λ deps task, <[t_id task := depends_on task]> deps) ∅ tasks.

Definition __init__ (dag_id name : string) (tasks : list Task) (now : Z)
    : t :=
  mk dag_id name tasks pending ∅ (_build_dependencies tasks) now None None.

(** The test of one loop iteration of [get_ready_tasks]. *)
Definition is_ready (self : t) (task : Task) : bool :=
  if key_in (t_id task) (task_results self) then false
  else
    let deps := default [] (task_dependencies self !! t_id task) in
    forallb (λ dep_id, key_in dep_id (task_results self)) deps.

Definition get_ready_tasks (self : t) : list Task :=
  foldl (λ ready task, if is_ready self task then ready ++ [task] else ready)
        [] (tasks self).

Definition update_task_result (self : t) (task_id : string)
    (result : Result) (now : Z) : t :=
  let results := <[task_id := result]> (task_results self) in
  if decide (size results = length (tasks self)) then
    mk (dag_id self) (name self) (tasks self) completed results
       (task_dependencies self) (created_at self) (started_at self)
       (Some now)
  else
    match status self with
    | pending =>
        mk (dag_id self) (name self) (tasks self) running results
           (task_dependencies self) (created_at self)
           (if truthy_time (started_at self) then started_at self
            else Some now)
           (completed_at self)
    | _ =>
        mk (dag_id self) (name self) (tasks self) (status self) results
           (task_dependencies self) (created_at self) (started_at self)
           (completed_at self)
    end.

Definition is_complete (self : t) : bool :=
  bool_decide (size (task_results self) = length (tasks self)).

Inductive task_state := st_pending | st_completed | st_failed.

Record dict := mk_dict {
  d_dag_id : string;
  d_name : string;
  d_status : Status;
  d_total_tasks : nat;
  d_completed_tasks : nat;
  d_tasks : pydict (task_state * option Result);
  d_created_at : Z;
  d_started_at : option Z;
  d_completed_at : option Z
}.

Definition to_dict (self : t) : dict :=
  let task_status :=
    foldl (λ acc task,
             match task_results self !! t_id task with
             | Some r =>
                 dict_set (t_id task)
                   (if r_success r then st_completed else st_failed, Some r)
                   acc
             | None => dict_set (t_id task) (st_pending, None) acc
             end) [] (tasks self) in
  mk_dict (dag_id self) (name self) (status self) (length (tasks self))
          (size (task_results self)) task_status (created_at self)
          (started_at self) (completed_at self).
End DAG.

(** ** class TaskScheduler *)

Module TaskScheduler.
(** Value of [running_tasks]: [{"node_id", "task", "start_time"}]. *)
Record info := mk_info {
  node_id : string;
  task : Task;
  start_time : Z
}.

Record t := mk {
  task_queue : list Task;
  pending_tasks : gmap string Task;
  running_tasks : pydict info
}.

Definition __init__ : t := mk [] ∅ [].

Definition add_task (self : t) (task : Task) (dag_id : string) : t :=
  let task := set_dag_id task dag_id in
  mk (task_queue self ++ [task])
     (<[t_id task := task]> (pending_tasks self))
     (running_tasks self).

(** [del self.pending_tasks[task_id]] raises [KeyError] on a missing key,
    after [popleft] has already removed the head of the queue. *)
Definition get_next_task (self : t) (node_id : string) (now : Z)
    : t * outcome (option Task) :=
  match task_queue self with
  | [] => (self, Ok None)
  | task :: queue =>
      let task_id := t_id task in
      if key_in task_id (pending_tasks self) then
        (mk queue (delete task_id (pending_tasks self))
            (dict_set task_id (mk_info node_id task now)
                      (running_tasks self)),
         Ok (Some task))
      else
        (mk queue (pending_tasks self) (running_tasks self),
         Raise (KeyError task_id))
  end.

Definition complete_task (self : t) (task_id : string) (result : Result)
    : t :=
  if dict_in task_id (running_tasks self) then
    mk (task_queue self) (pending_tasks self)
       (dict_del task_id (running_tasks self))
  else self.

Definition fail_task (self : t) (task_id : string) : t :=
  match dict_get task_id (running_tasks self) with
  | Some task_info =>
      let task := task task_info in
      mk (task_queue self ++ [task])
         (<[t_id task := task]> (pending_tasks self))
         (dict_del task_id (running_tasks self))
  | None => self
  end.
End TaskScheduler.

(** ** Requests and responses *)

Inductive message :=
| register_node (node_id : string) (ram_limit : option Z)
| heartbeat (node_id : string)
| get_task (node_id : string)
| task_result (node_id task_id : string) (result : Result)
| submit_dag (name : option string) (tasks : list Task)
| get_status
| get_dag_status (dag_id : string)
| other_type (msg_type : string).

Inductive response :=
| Registered
| Success
| TaskReply (task : option Task)
| DagSubmitted (dag_id : string)
| StatusReply (nodes : pydict Node.dict) (dags : pydict DAG.dict)
              (timestamp : Z)
| DagReply (dag : DAG.dict)
| Error (message : string).

(** The ["status"] field of a response object. *)
Definition resp_status (r : response) : string :=
  match r with
  | Error _ => "error"
  | _ => "success"
  end.

(** The ["message"] field of a response object, when it has one. *)
Definition resp_message (r : response) : option string :=
  match r with
  | Registered => Some "Registered"
  | Error m => Some m
  | _ => None
  end.

(** ** class ControllerNode *)

Module ControllerNode.
Record t := mk {
  nodes : pydict Node.t;
  dags : pydict DAG.t;
  scheduler : TaskScheduler.t
}.

Definition __init__ : t := mk [] [] TaskScheduler.__init__.

(** The guard and body of the loop of [_schedule_dag_tasks]. *)
Definition enqueue_if_new (dag_id : string) (sched : TaskScheduler.t)
    (task : Task) : TaskScheduler.t :=
  if negb (key_in (t_id task) (TaskScheduler.pending_tasks sched))
     && negb (dict_in (t_id task) (TaskScheduler.running_tasks sched))
  then TaskScheduler.add_task sched task dag_id
  else sched.

Definition _schedule_dag_tasks (self : t) (dag_id : string) : t :=
  match dict_get dag_id (dags self) with
  | None => self
  | Some dag =>
      let ready_tasks := DAG.get_ready_tasks dag in
      mk (nodes self) (dags self)
         (foldl (enqueue_if_new dag_id) (scheduler self) ready_tasks)
  end.

Definition _handle_register_node (self : t) (node_id : string)
    (ram_limit : option Z) (conn : nat) (addr : string * Z) (now : Z)
    : t * outcome response :=
  let node := Node.__init__ node_id conn addr (default 128%Z ram_limit) now in
  (mk (dict_set node_id node (nodes self)) (dags self) (scheduler self),
   Ok Registered).

Definition _handle_heartbeat (self : t) (node_id : string) (now : Z)
    : t * outcome response :=
  match dict_get node_id (nodes self) with
  | Some node =>
      (mk (dict_set node_id (Node.update_heartbeat node now) (nodes self))
          (dags self) (scheduler self),
       Ok Success)
  | None => (self, Ok (Error "Node not found"))
  end.

Definition _handle_get_task (self : t) (node_id : string) (now : Z)
    : t * outcome response :=
  match TaskScheduler.get_next_task (scheduler self) node_id now with
  | (sched, Raise e) => (mk (nodes self) (dags self) sched, Raise e)
  | (sched, Ok None) =>
      (mk (nodes self) (dags self) sched, Ok (TaskReply None))
  | (sched, Ok (Some task)) =>
      let nodes' :=
        match dict_get node_id (nodes self) with
        | Some node =>
            dict_set node_id (Node.assign node (t_id task)) (nodes self)
        | None => nodes self
        end in
      (mk nodes' (dags self) sched, Ok (TaskReply (Some task)))
  end.

Definition _handle_task_result (self : t) (node_id task_id : string)
    (result : Result) (now : Z) : t * outcome response :=
  let sched :=
    if r_success result
    then TaskScheduler.complete_task (scheduler self) task_id result
    else TaskScheduler.fail_task (scheduler self) task_id in
  let dag_id := truthy_str (r_dag_id result) in
  let dags' :=
    match dag_id with
    | Some d =>
        match dict_get d (dags self) with
        | Some dag =>
            dict_set d (DAG.update_task_result dag task_id result now)
                     (dags self)
        | None => dags self
        end
    | None => dags self
    end in
  let nodes' :=
    match dict_get node_id (nodes self) with
    | Some node =>
        dict_set node_id (Node.finish node task_id result now) (nodes self)
    | None => nodes self
    end in
  let self' := mk nodes' dags' sched in
  (match dag_id with
   | Some d => _schedule_dag_tasks self' d
   | None => self'
   end, Ok Success).

(** [dag_id] is the value of [str(uuid.uuid4())[:8]]. *)
Definition _handle_submit_dag (self : t) (name : option string)
    (tasks : list Task) (dag_id : string) (now : Z)
    : t * outcome response :=
  let dag := DAG.__init__ dag_id (default "unnamed" name) tasks now in
  let self' := mk (nodes self) (dict_set dag_id dag (dags self))
                  (scheduler self) in
  (_schedule_dag_tasks self' dag_id, Ok (DagSubmitted dag_id)).

Definition _handle_get_status (self : t) (now : Z) : t * outcome response :=
  (self,
   Ok (StatusReply (map (λ kv, (kv.1, Node.to_dict kv.2)) (nodes self))
                   (map (λ kv, (kv.1, DAG.to_dict kv.2)) (dags self))
                   now)).

Definition _handle_get_dag_status (self : t) (dag_id : string)
    : t * outcome response :=
  match dict_get dag_id (dags self) with
  | Some dag => (self, Ok (DagReply (DAG.to_dict dag)))
  | None => (self, Ok (Error "DAG not found"))
  end.

Definition _process_message (self : t) (message : message) (conn : nat)
    (addr : string * Z) (now : Z) (uuid : string) : t * outcome response :=
  match message with
  | register_node node_id ram_limit =>
      _handle_register_node self node_id ram_limit conn addr now
  | heartbeat node_id => _handle_heartbeat self node_id now
  | get_task node_id => _handle_get_task self node_id now
  | task_result node_id task_id result =>
      _handle_task_result self node_id task_id result now
  | submit_dag name tasks => _handle_submit_dag self name tasks uuid now
  | get_status => _handle_get_status self now
  | get_dag_status dag_id => _handle_get_dag_status self dag_id
  | other_type msg_type =>
      (self, Ok (Error ("Unknown message type: " ++ msg_type)))
  end.

(** One pass of the body of [_scheduler_loop]. *)
Definition _scheduler_loop (self : t) : t :=
  foldl _schedule_dag_tasks self (dict_keys (dags self)).

(** [task_queue.append(task); pending_tasks[task["id"]] = task;
    del running_tasks[task_id]] *)
Definition requeue (sched : TaskScheduler.t) (task_id : string)
    (task_info : TaskScheduler.info) : TaskScheduler.t :=
  let task := TaskScheduler.task task_info in
  TaskScheduler.mk
    (TaskScheduler.task_queue sched ++ [task])
    (<[t_id task := task]> (TaskScheduler.pending_tasks sched))
    (dict_del task_id (TaskScheduler.running_tasks sched)).

(** [for task_id, task_info in running_tasks.items(): ...].  The dict
    iterator remembers the size of the dict when the loop starts
    ([di_used]) and, each time it is asked for the next item, first
    compares it with the present size, raising [RuntimeError] when they
    differ, and only then looks whether items are left.  [items] are the
    entries not yet visited; until the size changes they are those of the
    dict itself. *)
Fixpoint requeue_loop (node_id : string)
    (items : list (string * TaskScheduler.info)) (di_used : nat)
    (sched : TaskScheduler.t) : TaskScheduler.t * outcome unit :=
  if negb (di_used =? length (TaskScheduler.running_tasks sched)) then
    (sched, Raise changed_size)
  else
    match items with
    | [] => (sched, Ok ())
    | (task_id, task_info) :: items' =>
        if decide (TaskScheduler.node_id task_info = node_id) then
          requeue_loop node_id items' di_used
                       (requeue sched task_id task_info)
        else requeue_loop node_id items' di_used sched
    end.

(** [for node_id in dead_nodes: ...]; an exception leaves the loop. *)
Fixpoint remove_dead (dead_nodes : list string) (self : t)
    : t * outcome unit :=
  match dead_nodes with
  | [] => (self, Ok ())
  | node_id :: dead_nodes' =>
      if dict_in node_id (nodes self) then
        let running := TaskScheduler.running_tasks (scheduler self) in
        match requeue_loop node_id running (length running)
                           (scheduler self) with
        | (sched, Ok _) =>
            remove_dead dead_nodes'
              (mk (dict_del node_id (nodes self)) (dags self) sched)
        | (sched, Raise e) => (mk (nodes self) (dags self) sched, Raise e)
        end
      else remove_dead dead_nodes' self
  end.

(** One pass of the body of [_health_check_loop].  [Raise] means the
    exception left the loop, which ends the health-check thread. *)
Definition _health_check_loop (self : t) (now : Z) : t * outcome unit :=
  let dead_nodes :=
    omap (λ kv : string * Node.t,
            if Node.is_alive kv.2 now then None else Some kv.1)
         (nodes self) in
  remove_dead dead_nodes self.

(** *** Connections *)

(** What [json.loads(message_data.decode('utf-8'))] makes of a payload. *)
Inductive payload :=
| NotJson
| NotObject
| Object (m : message).

(** What a connection delivers for one frame: the four bytes of the
    length prefix, then either all of the announced payload bytes
    ([Frame]), or the end of the stream before them ([Truncated]). *)
Inductive inbound :=
| Frame (length_data : list Byte.byte) (body : payload)
| Truncated (length_data : list Byte.byte).

(** [int.from_bytes(data, byteorder='big')] *)
Definition int_from_bytes (data : list Byte.byte) : Z :=
  fold_left (λ acc b, (acc * 256 + Z.of_N (Byte.to_N b))%Z) data 0%Z.

Inductive ending :=
| PeerClosed
| Failed (e : exn).

(** The clock reading and the uuid drawn while a request is handled. *)
Record reading := mk_reading { clock : Z; uuid8 : string }.

(** [_handle_connection]: [script] is what the peer sends until it closes
    the stream, [sent] the response frames written so far.  A payload of
    length zero is the empty string, which is not JSON. *)
Fixpoint _handle_connection (self : t) (conn : nat) (addr : string * Z)
    (script : list (inbound * reading)) (sent : list response)
    : t * list response * ending :=
  match script with
  | [] => (self, sent, PeerClosed)
  | (Truncated length_data, _) :: _ =>
      (self, sent, Failed (AttributeError "'NoneType' has no 'decode'"))
  | (Frame length_data body, rd) :: script' =>
      let length := int_from_bytes length_data in
      match (if (length =? 0)%Z then NotJson else body) with
      | NotJson => (self, sent, Failed JSONDecodeError)
      | NotObject =>
          (self, sent, Failed (AttributeError "object has no 'get'"))
      | Object message =>
          match _process_message self message conn addr
                                 (clock rd) (uuid8 rd) with
          | (self', Ok response) =>
              _handle_connection self' conn addr script' (sent ++ [response])
          | (self', Raise e) => (self', sent, Failed e)
          end
      end
  end.

(** *** Runs of the controller *)

Inductive event :=
| Request (m : message) (conn : nat) (addr : string * Z) (rd : reading)
| SchedulerTick
| ReaperTick (now : Z).

Definition step (e : event) (self : t) : t :=
  match e with
  | Request m conn addr rd =>
      (_process_message self m conn addr (clock rd) (uuid8 rd)).1
  | SchedulerTick => _scheduler_loop self
  | ReaperTick now => (_health_check_loop self now).1
  end.

Definition run (trace : list event) (self : t) : t :=
  foldl (λ s e, step e s) self trace.

Inductive reachable : t → Prop :=
| reachable_init : reachable __init__
| reachable_step e self : reachable self → reachable (step e self).
End ControllerNode.

(** ** Specification vocabulary *)

(** The DAG objects the program can hold: built by the constructor, then
    mutated by [update_task_result] only. *)
Inductive dag_reachable : DAG.t → Prop :=
| dag_submitted dag_id name tasks now :
    dag_reachable (DAG.__init__ dag_id name tasks now)
| dag_ingested D task_id result now :
    dag_reachable D →
    dag_reachable (DAG.update_task_result D task_id result now).

(** The dependencies declared by the last task of [tasks] whose id is [k]
    (none when no task has that id). *)
Definition declared_deps (tasks : list Task) (k : string) : list string :=
  default [] (DAG.depends_on <$> last (filter (λ t, t_id t = k) tasks)).

(** Ready-set membership as a property of the task's own [depends_on]. *)
Definition ready_by_own_deps (D : DAG.t) (t : Task) : Prop :=
  t ∈ DAG.get_ready_tasks D ↔
  DAG.task_results D !! t_id t = None ∧
  ∀ dep, dep ∈ DAG.depends_on t → is_Some (DAG.task_results D !! dep).

(** Terminal stamping, as the DAG invariant words it. *)
Definition terminal_stamping (D : DAG.t) : Prop :=
  (DAG.status D = DAG.completed ↔
   size (DAG.task_results D) = length (DAG.tasks D)) ∧
  (is_Some (DAG.completed_at D) ↔ DAG.status D = DAG.completed).

(** The three collections of the scheduler agree with each other: the
    queue holds each id once, [pending_tasks] mirrors the queue, no id is
    both pending and running, and [running_tasks] is keyed by the id of the
    descriptor it holds. *)
Record sched_inv (s : TaskScheduler.t) : Prop := mk_sched_inv {
  inv_queue_nodup : NoDup (map t_id (TaskScheduler.task_queue s));
  inv_pending_queue : ∀ k,
    is_Some (TaskScheduler.pending_tasks s !! k) →
    k ∈ map t_id (TaskScheduler.task_queue s);
  inv_queue_pending : ∀ t,
    t ∈ TaskScheduler.task_queue s →
    TaskScheduler.pending_tasks s !! t_id t = Some t;
  inv_single : ∀ k,
    is_Some (TaskScheduler.pending_tasks s !! k) →
    dict_get k (TaskScheduler.running_tasks s) = None;
  inv_running_key : ∀ k info,
    (k, info) ∈ TaskScheduler.running_tasks s →
    t_id (TaskScheduler.task info) = k
}.

(** ** Sample data used by the worked examples *)

Definition task_of (id : string) (deps : option (list string)) : Task :=
  mkTask id "m" [] deps None.

Definition result_of (ok : bool) (dag_id : string) : Result :=
  mkResult ok "" "" 0 (Some dag_id).

(** Two tasks declared with the same id, the first one with a dependency. *)
Definition dup_first : Task := task_of "a" (Some ["x"]).
Definition dup_second : Task := task_of "a" None.
Definition dup_dag : DAG.t := DAG.__init__ "d1" "dup" [dup_first; dup_second] 0.

(** The diamond [a; b <- a; c <- a; d <- b, c], after [a] has failed. *)
Definition diamond_tasks : list Task :=
  [task_of "a" None; task_of "b" (Some ["a"]); task_of "c" (Some ["a"]);
   task_of "d" (Some ["b"; "c"])].
Definition diamond_dag : DAG.t :=
  DAG.update_task_result (DAG.__init__ "d1" "diamond" diamond_tasks 0)
                         "a" (result_of false "d1") 5.

(** A one-task DAG whose task has completed, then a result reported under
    an id that is not one of its tasks. *)
Definition single_dag : DAG.t := DAG.__init__ "d1" "one" [task_of "a" None] 0.
Definition single_done : DAG.t :=
  DAG.update_task_result single_dag "a" (result_of true "d1") 5.
Definition single_overfull : DAG.t :=
  DAG.update_task_result single_done "zz" (result_of true "d1") 6.

(** A DAG submitted with an empty task list. *)
Definition empty_dag : DAG.t := DAG.__init__ "d0" "empty" [] 0.

(** Traces used by the worked examples: who connects from where. *)
Definition worker_conn : nat := 1.
Definition worker_addr : string * Z := ("10.0.0.2", 40000%Z).
Definition client_conn : nat := 2.
Definition client_addr : string * Z := ("10.0.0.3", 40001%Z).

Definition from_worker (m : message) (now : Z) : ControllerNode.event :=
  ControllerNode.Request m worker_conn worker_addr
                         (ControllerNode.mk_reading now "").
Definition from_client (m : message) (now : Z) (uuid : string)
    : ControllerNode.event :=
  ControllerNode.Request m client_conn client_addr
                         (ControllerNode.mk_reading now uuid).

(** Worker [w1] registers, a two-task DAG is submitted, and [w1] polls
    twice: both tasks are in flight on [w1]. *)
Definition two_in_flight : ControllerNode.t :=
  ControllerNode.run
    [from_worker (register_node "w1" (Some 128%Z)) 0;
     from_client (submit_dag (Some "pair")
                             [task_of "t1" None; task_of "t2" None]) 1 "d1";
     from_worker (get_task "w1") 2;
     from_worker (get_task "w1") 3]
    ControllerNode.__init__.

(** A one-task DAG is submitted and its task is handed to [w1]
    (scenario S4 up to the first poll). *)
Definition retry_started : ControllerNode.t :=
  ControllerNode.run
    [from_worker (register_node "w1" (Some 128%Z)) 0;
     from_client (submit_dag (Some "retry") [task_of "t1" None]) 1 "d1";
     from_worker (get_task "w1") 2]
    ControllerNode.__init__.

(** The task fails, and is recorded and re-queued. *)
Definition retry_failed : ControllerNode.t :=
  ControllerNode.run
    [from_worker (task_result "w1" "t1" (result_of false "d1")) 3]
    retry_started.

(** The worker polls again and gets the task again. *)
Definition retry_redispatched : ControllerNode.t :=
  ControllerNode.run [from_worker (get_task "w1") 4] retry_failed.


(** Two DAGs that both declare a task ["t"], submitted one after the
    other. *)
Definition two_dags : ControllerNode.t :=
  ControllerNode.run
    [from_client (submit_dag (Some "first") [task_of "t" None]) 1 "d1";
     from_client (submit_dag (Some "second") [task_of "t" None]) 2 "d2"]
    ControllerNode.__init__.

(** A DAG submitted, nobody registered. *)
Definition one_queued : ControllerNode.t :=
  ControllerNode.run
    [from_client (submit_dag (Some "solo") [task_of "t1" None]) 1 "d1"]
    ControllerNode.__init__.

(** The cap the frame codec is meant to enforce: 16 MiB. *)
Definition suggested_cap : Z := 16 * 1024 * 1024.

(** A length prefix announcing 16 MiB + 1 bytes. *)
Definition oversize_prefix : list Byte.byte :=
  [Byte.x01; Byte.x00; Byte.x00; Byte.x01].

(** Oversize frames are refused: a frame longer than [cap] makes the
    handler close the connection, nothing written, nothing routed. *)
Definition oversize_refused (cap : Z) (self : ControllerNode.t)
    (length_data : list Byte.byte) (body : ControllerNode.payload)
    (rd : ControllerNode.reading)
    (script : list (ControllerNode.inbound * ControllerNode.reading))
    : Prop :=
  (cap < ControllerNode.int_from_bytes length_data)%Z →
  ∃ e, ControllerNode._handle_connection self client_conn client_addr
         ((ControllerNode.Frame length_data body, rd) :: script) []
       = (self, [], ControllerNode.Failed e).



(** The DAG with the doubly declared id, as submitted by a client. *)
Definition dup_submitted : ControllerNode.t :=
  ControllerNode.run
    [from_client (submit_dag (Some "dup") [dup_first; dup_second]) 1 "d1"]
    ControllerNode.__init__.

(** A one-task DAG runs to completion; the worker then reports a result
    under an id the DAG does not have. *)
Definition stray_result : ControllerNode.t :=
  ControllerNode.run
    [from_worker (register_node "w1" (Some 128%Z)) 0;
     from_client (submit_dag (Some "one") [task_of "a" None]) 1 "d1";
     from_worker (get_task "w1") 2;
     from_worker (task_result "w1" "a" (result_of true "d1")) 3;
     from_worker (task_result "w1" "zz" (result_of true "d1")) 4]
    ControllerNode.__init__.

(** ** The wire: sockets, exact reads and frames

    The byte-level half of [_handle_connection] and of the worker's
    [send_message]: how a frame is composed and how it is read back from a
    stream that delivers it in pieces. *)

(** A connected stream socket as its reader sees it: the packets still to
    be delivered, in order.  No packet left: the peer has closed. *)
Definition socket : Type := list (list Byte.byte).

(** [conn.recv(bufsize)]: at most [bufsize] bytes of the next packet; the
    empty string once the peer has closed. *)
Definition recv (conn : socket) (bufsize : nat) : list Byte.byte * socket :=
  match conn with
  | [] => ([], [])
  | packet :: rest =>
      if decide (length packet ≤ bufsize) then (packet, rest)
      else (take bufsize packet, drop bufsize packet :: rest)
  end.

Definition inspect {A : Type} (a : A) : {b : A | a = b} := exist _ a eq_refl.

(** The [while len(data) < n] loop of [_recv_exact]; every turn that does
    not leave the loop makes [data] longer. *)
Equations? recv_loop (conn : socket) (n : nat) (data : list Byte.byte)
    : option (list Byte.byte) * socket by wf (n - length data) lt :=
  recv_loop conn n data with decide (length data < n) => {
    | right _ := (Some data, conn);
    | left Hlt with inspect (recv conn (n - length data)) => {
        | exist _ ([], conn') _ := (None, conn');
        | exist _ (b :: packet, conn') _ :=
            recv_loop conn' n (data ++ b :: packet) } }.
Proof. rewrite length_app. simpl. lia. Qed.

(** [ControllerNode._recv_exact(conn, n)] *)
Definition _recv_exact (conn : socket) (n : nat)
    : option (list Byte.byte) * socket :=
  recv_loop conn n [].

(** The [length] big-endian digits of [n] in base 256. *)
Fixpoint to_bytes_big (length : nat) (n : Z) : list Byte.byte :=
  match length with
  | O => []
  | S length' =>
      to_bytes_big length' (n / 256)
      ++ [default Byte.x00 (Byte.of_N (Z.to_N (n mod 256)))]
  end.

(** [n.to_bytes(length, byteorder='big')]; [None] stands for the
    [OverflowError] raised when [n] does not fit. *)
Definition int_to_bytes (n : Z) (length : nat) : option (list Byte.byte) :=
  if bool_decide (0 ≤ n < 256 ^ Z.of_nat length)%Z
  then Some (to_bytes_big length n) else None.

(** What the senders pass to [sendall]:
    [len(data).to_bytes(4, byteorder='big') + data]. *)
Definition frame (data : list Byte.byte) : option (list Byte.byte) :=
  (λ length_data, length_data ++ data)
    <$> int_to_bytes (Z.of_nat (length data)) 4.

(** The two reads at the top of the loop of [_handle_connection]. *)
Inductive frame_read :=
| StreamEnd
| PayloadCut
| Payload (message_data : list Byte.byte).

Definition read_frame (conn : socket) : frame_read * socket :=
  match _recv_exact conn 4 with
  | (None, conn') => (StreamEnd, conn')
  | (Some length_data, conn') =>
      let length := ControllerNode.int_from_bytes length_data in
      match _recv_exact conn' (Z.to_nat length) with
      | (None, conn'') => (PayloadCut, conn'')
      | (Some message_data, conn'') => (Payload message_data, conn'')
      end
  end.

(** ** The worker's side of [task_result] ([bxthre3_host.py]) *)

(** What [WasmExecutor.execute] returns: a dict that always has
    ["success"] and may lack ["output"], ["error"] and ["duration"]. *)
Record exec_result := mk_exec_result {
  x_success : bool;
  x_output : option string;
  x_error : option string;
  x_duration : option Z
}.

Module HostCommunication.
Definition submit_result (node_id task_id : string) (result : exec_result)
    (dag_id : option string) : message :=
  task_result node_id task_id
    (mkResult (x_success result) (default "" (x_output result))
              (default "" (x_error result)) (default 0%Z (x_duration result))
              dag_id).

Definition send_heartbeat (node_id : string) : message := heartbeat node_id.

Definition request_task (node_id : string) : message := get_task node_id.
End HostCommunication.

Module HostNode.
(** [_execute_task]: run the module, report under the task's own
    ["dag_id"] ([""] when the descriptor has none). *)
Definition _execute_task (node_id : string)
    (execute : string → list scalar → exec_result) (task : Task) : message :=
  HostCommunication.submit_result node_id (t_id task)
    (execute (t_module task) (t_inputs task))
    (Some (default "" (t_dag_id task))).
End HostNode.

(** ** More specification vocabulary *)

(** Every descriptor the scheduler holds carries the id of a DAG of the
    DAGs table. *)
Definition stamped (dags : pydict DAG.t) (task : Task) : Prop :=
  ∃ d, t_dag_id task = Some d ∧ is_Some (dict_get d dags).

(** The id is known to the scheduler, as pending or as running. *)
Definition held (sched : TaskScheduler.t) (k : string) : Prop :=
  is_Some (TaskScheduler.pending_tasks sched !! k) ∨
  is_Some (dict_get k (TaskScheduler.running_tasks sched)).

(** The per-task entry of a status snapshot, computed from the results. *)
Definition task_entry (D : DAG.t) (k : string)
    : DAG.task_state * option Result :=
  match DAG.task_results D !! k with
  | Some r => (if r_success r then DAG.st_completed else DAG.st_failed, Some r)
  | None => (DAG.st_pending, None)
  end.

(** The order of the three DAG statuses. *)
Definition status_rank (st : DAG.Status) : nat :=
  match st with
  | DAG.pending => 0
  | DAG.running => 1
  | DAG.completed => 2
  end.

(** Every ready task of the DAG stored under [d] is held by the
    scheduler. *)
Definition covered (s : ControllerNode.t) (d : string) : Prop :=
  ∀ D, dict_get d (ControllerNode.dags s) = Some D →
       ∀ t, t ∈ DAG.get_ready_tasks D →
            held (ControllerNode.scheduler s) (t_id t).

(** Every descriptor in the ready queue or in flight is stamped. *)
Definition stamps_ok (s : ControllerNode.t) : Prop :=
  (∀ t, t ∈ TaskScheduler.task_queue (ControllerNode.scheduler s) →
        stamped (ControllerNode.dags s) t) ∧
  (∀ k info,
     (k, info) ∈ TaskScheduler.running_tasks (ControllerNode.scheduler s) →
     stamped (ControllerNode.dags s) (TaskScheduler.task info)).

(** A worker's executor that always reports failure. *)
Definition always_fails (module : string) (inputs : list scalar)
    : exec_result :=
  mk_exec_result false None (Some "Unknown error") (Some 1%Z).

(** Tasks are declared after the tasks they depend on. *)
Fixpoint declared_in_order (earlier : list string) (tasks : list Task)
    : Prop :=
  match tasks with
  | [] => True
  | t :: tasks' =>
      (∀ dep, dep ∈ DAG.depends_on t → dep ∈ earlier) ∧
      declared_in_order (earlier ++ [t_id t]) tasks'
  end.

(** The results stored are results of tasks of the DAG. *)
Definition own_results (D : DAG.t) : Prop :=
  ∀ k, is_Some (DAG.task_results D !! k) → k ∈ map t_id (DAG.tasks D).

(** ** Further sample data *)

(** Both DAGs declare ["t"].  The first one's is handed to [w1] and
    succeeds, which frees the id; only the first DAG has been evaluated
    since. *)
Definition second_unblocked : ControllerNode.t :=
  ControllerNode.run
    [from_worker (get_task "w1") 3;
     from_worker (task_result "w1" "t" (result_of true "d1")) 4]
    two_dags.

(** A client submits a DAG with an empty task list. *)
Definition empty_submitted : ControllerNode.t :=
  ControllerNode.run
    [from_client (submit_dag (Some "empty") []) 1 "d0"]
    ControllerNode.__init__.

(** ** Conversations *)

(** A frame that carries a request: its length is not zero and its payload
    decodes to a request object. *)
Definition request_frame
    (x : ControllerNode.inbound * ControllerNode.reading) : Prop :=
  match x.1 with
  | ControllerNode.Frame length_data (ControllerNode.Object _) =>
      ControllerNode.int_from_bytes length_data ≠ 0%Z
  | _ => False
  end.

(** The request a frame carries, as the controller handles it. *)
Definition request_of (conn : nat) (addr : string * Z)
    (x : ControllerNode.inbound * ControllerNode.reading)
    : option ControllerNode.event :=
  match x.1 with
  | ControllerNode.Frame _ (ControllerNode.Object m) =>
      Some (ControllerNode.Request m conn addr x.2)
  | _ => None
  end.

(** What one connection can carry from start to end: a worker registers,
    a DAG is submitted, its task is polled and reported. *)
Definition session_script
    : list (ControllerNode.inbound * ControllerNode.reading) :=
  [(ControllerNode.Frame [Byte.x00; Byte.x00; Byte.x00; Byte.x2a]
      (ControllerNode.Object (register_node "w1" None)),
    ControllerNode.mk_reading 0 "");
   (ControllerNode.Frame [Byte.x00; Byte.x00; Byte.x00; Byte.x5c]
      (ControllerNode.Object (submit_dag (Some "one") [task_of "a" None])),
    ControllerNode.mk_reading 1 "d1");
   (ControllerNode.Frame [Byte.x00; Byte.x00; Byte.x00; Byte.x26]
      (ControllerNode.Object (get_task "w1")),
    ControllerNode.mk_reading 2 "");
   (ControllerNode.Frame [Byte.x00; Byte.x00; Byte.x01; Byte.x02]
      (ControllerNode.Object (task_result "w1" "a" (result_of true "d1"))),
    ControllerNode.mk_reading 3 "")].

(** * Properties *)

(** ** Dictionaries *)

Section pydict_facts.
Context {V : Type}.
Implicit Types (d : pydict V) (k : string) (v : V).

Lemma dict_get_set_eq k v d : dict_get k (dict_set k v d) = Some v.
Proof.
  induction d as [|[k' v'] d IH]; simpl.
  - by rewrite decide_True.
  - destruct (decide (k = k')) as [->|Hne]; simpl.
    + by rewrite decide_True.
    + by rewrite decide_False.
Qed.

Lemma dict_get_set_ne k k' v d :
  k ≠ k' → dict_get k' (dict_set k v d) = dict_get k' d.
Proof.
  intros Hne. induction d as [|[k0 v0] d IH]; simpl.
  - rewrite decide_False; [done | congruence].
  - destruct (decide (k = k0)) as [->|Hk]; simpl.
    + rewrite !decide_False; [done | congruence ..].
    + destruct (decide (k' = k0)); [done | apply IH].
Qed.

Lemma dict_get_set k k' v d :
  dict_get k' (dict_set k v d)
  = if decide (k = k') then Some v else dict_get k' d.
Proof.
  destruct (decide (k = k')) as [->|Hne].
  - apply dict_get_set_eq.
  - by apply dict_get_set_ne.
Qed.

Lemma dict_get_del_eq k d : dict_get k (dict_del k d) = None.
Proof.
  induction d as [|[k' v'] d IH]; simpl; [done |].
  destruct (decide (k = k')) as [->|Hne]; simpl; [done |].
  by rewrite decide_False.
Qed.

Lemma dict_get_del_ne k k' d :
  k ≠ k' → dict_get k' (dict_del k d) = dict_get k' d.
Proof.
  intros Hne. induction d as [|[k0 v0] d IH]; simpl; [done |].
  destruct (decide (k = k0)) as [->|Hk]; simpl.
  - rewrite decide_False; [apply IH | congruence].
  - destruct (decide (k' = k0)); [done | apply IH].
Qed.

Lemma dict_get_elem k v d : dict_get k d = Some v → (k, v) ∈ d.
Proof.
  induction d as [|[k' v'] d IH]; simpl; [done |].
  destruct (decide (k = k')) as [->|Hne].
  - intros [= ->]. left.
  - intros H. right. by apply IH.
Qed.

Lemma dict_elem_get k v d : (k, v) ∈ d → is_Some (dict_get k d).
Proof.
  induction d as [|[k' v'] d IH]; simpl.
  - by intros ?%elem_of_nil.
  - intros [[= <- <-]|Hin]%elem_of_cons.
    + rewrite decide_True; eauto.
    + destruct (decide (k = k')); eauto.
Qed.

Lemma dict_in_true k d : dict_in k d = true ↔ is_Some (dict_get k d).
Proof.
  unfold dict_in. destruct (dict_get k d); split; eauto; try done.
  all: try by intros [? ?].
Qed.

Lemma dict_in_false k d : dict_in k d = false ↔ dict_get k d = None.
Proof. unfold dict_in. by destruct (dict_get k d). Qed.

Lemma dict_set_elem k v k' v' d :
  (k', v') ∈ dict_set k v d → (k', v') = (k, v) ∨ (k', v') ∈ d.
Proof.
  induction d as [|[k0 v0] d IH]; simpl.
  - intros ->%list_elem_of_singleton. by left.
  - destruct (decide (k = k0)) as [->|Hne].
    + intros [->|Hin]%elem_of_cons; [by left |]. right. by right.
    + intros [->|Hin]%elem_of_cons; [right; left |].
      destruct (IH Hin); [by left |]. right. by right.
Qed.

Lemma dict_del_elem k k' v' d : (k', v') ∈ dict_del k d → (k', v') ∈ d.
Proof.
  induction d as [|[k0 v0] d IH]; simpl; [done |].
  destruct (decide (k = k0)) as [->|Hne].
  - intros Hin. right. by apply IH.
  - intros [->|Hin]%elem_of_cons; [left | right; by apply IH].
Qed.

Lemma dict_del_length_le k d : length (dict_del k d) ≤ length d.
Proof.
  induction d as [|[k0 v0] d IH]; simpl; [done |].
  destruct (decide (k = k0)); simpl; lia.
Qed.

Lemma dict_del_length_lt k v d :
  (k, v) ∈ d → length (dict_del k d) < length d.
Proof.
  induction d as [|[k0 v0] d IH]; simpl.
  - by intros ?%elem_of_nil.
  - intros [[= <- <-]|Hin]%elem_of_cons.
    + rewrite decide_True; [|done]. pose proof (dict_del_length_le k d). lia.
    + destruct (decide (k = k0)); simpl.
      * pose proof (dict_del_length_le k d). lia.
      * specialize (IH Hin). lia.
Qed.
End pydict_facts.

Lemma key_in_true {V : Type} (k : string) (m : gmap string V) :
  key_in k m = true ↔ is_Some (m !! k).
Proof.
  unfold key_in. destruct (m !! k); split; eauto; try done.
  all: try by intros [? ?].
Qed.

Lemma key_in_false {V : Type} (k : string) (m : gmap string V) :
  key_in k m = false ↔ m !! k = None.
Proof. unfold key_in. by destruct (m !! k). Qed.

(** ** The ready set of a DAG *)

Lemma foldl_select {A : Type} (p : A → bool) (l acc : list A) :
  foldl (λ ready x, if p x then ready ++ [x] else ready) acc l
  = acc ++ filter (λ x, p x = true) l.
Proof.
  revert acc. induction l as [|x l IH]; intros acc; simpl.
  - by rewrite app_nil_r.
  - rewrite IH. destruct (p x) eqn:Hp.
    + rewrite filter_cons_True by done. by rewrite <- app_assoc.
    + rewrite filter_cons_False; [done | congruence].
Qed.

Lemma get_ready_tasks_filter (D : DAG.t) :
  DAG.get_ready_tasks D
  = filter (λ t, DAG.is_ready D t = true) (DAG.tasks D).
Proof. unfold DAG.get_ready_tasks. by rewrite foldl_select. Qed.

Lemma is_ready_true (D : DAG.t) (t : Task) :
  DAG.is_ready D t = true ↔
  DAG.task_results D !! t_id t = None ∧
  ∀ dep, dep ∈ default [] (DAG.task_dependencies D !! t_id t) →
         is_Some (DAG.task_results D !! dep).
Proof.
  unfold DAG.is_ready.
  destruct (key_in (t_id t) (DAG.task_results D)) eqn:Hin.
  - apply key_in_true in Hin as [r Hr]. split; [done |].
    intros [Hnone _]. congruence.
  - apply key_in_false in Hin. rewrite forallb_forall. split.
    + intros Hall. split; [done |]. intros dep Hdep.
      apply key_in_true, Hall. by apply list_elem_of_In.
    + intros [_ Hall] dep Hdep. apply key_in_true, Hall.
      by apply list_elem_of_In.
Qed.

Lemma build_dependencies_snoc (tasks : list Task) (t : Task) :
  DAG._build_dependencies (tasks ++ [t])
  = <[t_id t := DAG.depends_on t]> (DAG._build_dependencies tasks).
Proof. unfold DAG._build_dependencies. by rewrite foldl_app. Qed.

Lemma build_dependencies_lookup (tasks : list Task) (k : string) :
  default [] (DAG._build_dependencies tasks !! k) = declared_deps tasks k.
Proof.
  unfold declared_deps.
  induction tasks as [|t tasks IH] using rev_ind; [done |].
  rewrite build_dependencies_snoc, filter_app.
  destruct (decide (t_id t = k)) as [<-|Hne].
  - rewrite lookup_insert_eq, filter_cons_True by done.
    by rewrite filter_nil, last_snoc.
  - rewrite lookup_insert_ne by done.
    rewrite filter_cons_False by done. by rewrite filter_nil, app_nil_r.
Qed.

Lemma declared_deps_unique (tasks : list Task) (t : Task) :
  NoDup (map t_id tasks) → t ∈ tasks →
  declared_deps tasks (t_id t) = DAG.depends_on t.
Proof.
  unfold declared_deps. induction tasks as [|x tasks IH] using rev_ind.
  - by intros _ ?%elem_of_nil.
  - rewrite map_app, filter_app. simpl. intros Hnd Hin.
    apply NoDup_app in Hnd as (Hnd & Hdisj & _).
    apply elem_of_app in Hin as [Hin| ->%list_elem_of_singleton].
    + rewrite filter_cons_False, filter_nil, app_nil_r; [by apply IH |].
      intros Heq. apply (Hdisj (t_id t)).
      * by apply (list_elem_of_fmap_2 t_id).
      * rewrite Heq. apply list_elem_of_singleton. done.
    + rewrite filter_cons_True by done. by rewrite filter_nil, last_snoc.
Qed.

Lemma dag_reachable_built (D : DAG.t) :
  dag_reachable D →
  DAG.task_dependencies D = DAG._build_dependencies (DAG.tasks D).
Proof.
  induction 1 as [|D task_id result now _ IH]; [done |].
  unfold DAG.update_task_result.
  destruct (decide _); [done |]. by destruct (DAG.status D).
Qed.

Lemma forallb_pointwise {A : Type} (f g : A → bool) (l : list A) :
  (∀ x, f x = g x) → forallb f l = forallb g l.
Proof. intros Hfg. induction l as [|x l IH]; simpl; [done |]. by rewrite Hfg, IH. Qed.

Lemma key_in_same_keys {V : Type} (m m' : gmap string V) :
  (∀ k, is_Some (m' !! k) ↔ is_Some (m !! k)) →
  ∀ k, key_in k m' = key_in k m.
Proof.
  intros Hkeys k. destruct (key_in k m) eqn:Hm.
  - apply key_in_true. apply Hkeys. by apply key_in_true.
  - apply key_in_false. apply key_in_false in Hm.
    apply eq_None_not_Some. intros Hs. apply Hkeys in Hs.
    rewrite Hm in Hs. by destruct Hs.
Qed.

(** C2 (as amended).  For every DAG [D] the program can hold and every
    task [t]: [t] is in the ready set iff [t] is a task of [D], [t]'s id is
    not a key of [task_results], and every id recorded for [t]'s id in
    [task_dependencies] (the [depends_on] of the last task declared with
    that id) is a key of [task_results].  When the task ids of [D] are
    pairwise distinct these are [t]'s own [depends_on].  Membership depends
    only on which ids are keys of [task_results], never on the records
    stored, hence not on any success flag. *)
Theorem C2_ready_set (D : DAG.t) (t : Task) :
  dag_reachable D →
  (t ∈ DAG.get_ready_tasks D ↔
     t ∈ DAG.tasks D ∧
     DAG.task_results D !! t_id t = None ∧
     ∀ dep, dep ∈ declared_deps (DAG.tasks D) (t_id t) →
            is_Some (DAG.task_results D !! dep)) ∧
  (NoDup (map t_id (DAG.tasks D)) → t ∈ DAG.tasks D →
   ready_by_own_deps D t) ∧
  (∀ D', DAG.tasks D' = DAG.tasks D →
         DAG.task_dependencies D' = DAG.task_dependencies D →
         (∀ k, is_Some (DAG.task_results D' !! k) ↔
               is_Some (DAG.task_results D !! k)) →
         DAG.get_ready_tasks D' = DAG.get_ready_tasks D).
Proof.
  intros Hreach. pose proof (dag_reachable_built D Hreach) as Hdeps.
  assert (Hchar : t ∈ DAG.get_ready_tasks D ↔
            t ∈ DAG.tasks D ∧
            DAG.task_results D !! t_id t = None ∧
            ∀ dep, dep ∈ declared_deps (DAG.tasks D) (t_id t) →
                   is_Some (DAG.task_results D !! dep)).
  { rewrite get_ready_tasks_filter, list_elem_of_filter, is_ready_true.
    rewrite Hdeps, build_dependencies_lookup. tauto. }
  split; [exact Hchar |]. split.
  - intros Hnd Hin. unfold ready_by_own_deps.
    rewrite Hchar, (declared_deps_unique _ _ Hnd Hin). tauto.
  - intros D' Htasks Hdeps' Hkeys.
    rewrite !get_ready_tasks_filter, Htasks.
    apply list_filter_iff. intros x. unfold DAG.is_ready.
    rewrite Hdeps', (key_in_same_keys _ _ Hkeys).
    by rewrite (forallb_pointwise _ _ _ (key_in_same_keys _ _ Hkeys)).
Qed.

Lemma C2_ready_set_witness :
  dag_reachable diamond_dag ∧
  (task_of "b" (Some ["a"]) ∈ DAG.get_ready_tasks diamond_dag ↔
     task_of "b" (Some ["a"]) ∈ DAG.tasks diamond_dag ∧
     DAG.task_results diamond_dag !! "b" = None ∧
     ∀ dep, dep ∈ declared_deps (DAG.tasks diamond_dag) "b" →
            is_Some (DAG.task_results diamond_dag !! dep)).
Proof.
  assert (Hreach : dag_reachable diamond_dag)
    by (apply dag_ingested, dag_submitted).
  split; [exact Hreach |].
  exact (proj1 (C2_ready_set diamond_dag (task_of "b" (Some ["a"])) Hreach)).
Defined.

(** A failed predecessor unblocks its successors: after [a] failed, [b] and
    [c] are ready. *)
Example diamond_ready_after_failure :
  DAG.get_ready_tasks diamond_dag
  = [task_of "b" (Some ["a"]); task_of "c" (Some ["a"])].
Proof. vm_compute. reflexivity. Qed.

(** C2, counterexample.  In a DAG that declares the id ["a"] twice, the
    first declaration (which depends on ["x"]) is in the ready set although
    ["x"] has no result: the dependency map kept the second declaration. *)
Lemma C2_counterexample :
  dag_reachable dup_dag ∧ dup_first ∈ DAG.tasks dup_dag ∧
  ¬ ready_by_own_deps dup_dag dup_first.
Proof.
  split; [apply dag_submitted |]. split; [left |].
  unfold ready_by_own_deps. intros [Hdeps _].
  assert (Hready : DAG.get_ready_tasks dup_dag = [dup_first; dup_second])
    by (vm_compute; reflexivity).
  destruct Hdeps as [_ Hx]; [rewrite Hready; left |].
  destruct (Hx "x") as [r Hr]; [left |].
  vm_compute in Hr. discriminate.
Qed.

(** ** Status and timestamps of a DAG *)

Lemma update_task_result_results D task_id result now :
  DAG.task_results (DAG.update_task_result D task_id result now)
  = <[task_id := result]> (DAG.task_results D).
Proof.
  unfold DAG.update_task_result.
  destruct (decide _); [done |]. by destruct (DAG.status D).
Qed.

Lemma update_task_result_tasks D task_id result now :
  DAG.tasks (DAG.update_task_result D task_id result now) = DAG.tasks D.
Proof.
  unfold DAG.update_task_result.
  destruct (decide _); [done |]. by destruct (DAG.status D).
Qed.

Lemma map_size_insert_ge {V : Type} (k : string) (v : V) (m : gmap string V) :
  size m ≤ size (<[k := v]> m).
Proof. rewrite map_size_insert. destruct (m !! k); simpl; lia. Qed.

Lemma size_list_to_set_le (l : list string) :
  size (list_to_set l : gset string) ≤ length l.
Proof.
  induction l as [|x l IH].
  - by rewrite list_to_set_nil, size_empty.
  - rewrite list_to_set_cons, size_union_alt, size_singleton. simpl.
    assert (Hdiff : size (list_to_set l ∖ {[x]} : gset string)
                    ≤ size (list_to_set l : gset string)).
    { apply subseteq_size. intros y Hy. apply elem_of_difference in Hy. tauto. }
    lia.
Qed.

Lemma map_size_le_keys {V : Type} (m : gmap string V) (l : list string) :
  (∀ k, is_Some (m !! k) → k ∈ l) → size m ≤ length l.
Proof.
  intros Hsub. rewrite <- (size_dom (D := gset string)).
  etrans; [| apply size_list_to_set_le].
  apply subseteq_size. intros k Hk.
  apply elem_of_list_to_set, Hsub. by apply elem_of_dom.
Qed.

(** What every DAG the program can hold satisfies. *)
Lemma dag_reachable_inv (D : DAG.t) :
  dag_reachable D →
  (is_Some (DAG.completed_at D) ↔ DAG.status D = DAG.completed) ∧
  (DAG.status D = DAG.pending ↔ DAG.task_results D = ∅) ∧
  (DAG.task_results D ≠ ∅ →
   size (DAG.task_results D) = length (DAG.tasks D) →
   DAG.status D = DAG.completed) ∧
  (DAG.status D = DAG.completed →
   length (DAG.tasks D) ≤ size (DAG.task_results D)).
Proof.
  induction 1 as [|D task_id result now _ (Hstamp & Hpend & Hfull & Hge)].
  - simpl. repeat split; try done. all: try by intros [? ?].
  - pose proof (map_size_insert_ge task_id result (DAG.task_results D)) as Hmono.
    assert (Hne : <[task_id := result]> (DAG.task_results D) ≠ ∅)
      by apply insert_non_empty.
    unfold DAG.update_task_result.
    destruct (decide _) as [Heq|Hneq]; simpl.
    + repeat split; eauto; try done. all: try lia.
    + destruct (DAG.status D) eqn:Hst; simpl; repeat split; try done;
        first [ by intros Hsome; apply Hstamp in Hsome
              | by intros _; apply Hstamp
              | intros _; specialize (Hge eq_refl); lia ].
Qed.

(** Stamping in a DAG that has tasks.  For every DAG [D] the program can
    hold: [completed_at] is set iff [status] is completed; if [D] has at
    least one task and [|task_results| = |tasks|] then [status] is
    completed; if [status] is completed then [|task_results| >= |tasks|],
    with equality whenever every key of [task_results] is the id of a task
    of [D]. *)
Lemma stamping_with_tasks (D : DAG.t) :
  dag_reachable D →
  (is_Some (DAG.completed_at D) ↔ DAG.status D = DAG.completed) ∧
  (DAG.tasks D ≠ [] →
   size (DAG.task_results D) = length (DAG.tasks D) →
   DAG.status D = DAG.completed) ∧
  (DAG.status D = DAG.completed →
   length (DAG.tasks D) ≤ size (DAG.task_results D)) ∧
  (DAG.status D = DAG.completed →
   (∀ k, is_Some (DAG.task_results D !! k) → k ∈ map t_id (DAG.tasks D)) →
   size (DAG.task_results D) = length (DAG.tasks D)).
Proof.
  intros Hreach.
  destruct (dag_reachable_inv D Hreach) as (Hstamp & Hpend & Hfull & Hge).
  repeat split; try (by apply Hstamp); try done.
  - intros Htasks Hsize. apply Hfull; [| done].
    intros Hempty. rewrite Hempty, map_size_empty in Hsize.
    destruct (DAG.tasks D); [done | discriminate].
  - intros Hst Hkeys. specialize (Hge Hst).
    pose proof (map_size_le_keys _ _ Hkeys) as Hle.
    rewrite length_map in Hle. lia.
Qed.

(** Once a one-task DAG is completed, a result reported under another id
    is stored too: the status stays completed while [|task_results| = 2]
    and [|tasks| = 1]. *)
Lemma stray_result_breaks_stamping :
  dag_reachable single_overfull ∧ ¬ terminal_stamping single_overfull.
Proof.
  split; [do 2 apply dag_ingested; apply dag_submitted |].
  intros [[Hsize _] _].
  assert (Hst : DAG.status single_overfull = DAG.completed)
    by (vm_compute; reflexivity).
  specialize (Hsize Hst). vm_compute in Hsize. discriminate.
Qed.

(** The only place that sets the completed status is the first branch of
    [update_task_result], taken when the count of results, just raised to
    at least one, equals the number of tasks: never when there is none. *)
Lemma empty_task_list_inv (D : DAG.t) :
  dag_reachable D → DAG.tasks D = [] →
  DAG.status D ≠ DAG.completed ∧ DAG.completed_at D = None.
Proof.
  induction 1 as [|D task_id result now _ IH]; intros Htasks; [done |].
  rewrite update_task_result_tasks in Htasks.
  destruct (IH Htasks) as [Hst Hat].
  unfold DAG.update_task_result.
  destruct (decide _) as [Heq|Hneq]; simpl.
  - rewrite Htasks in Heq. simpl in Heq.
    apply map_size_empty_iff in Heq. by apply insert_non_empty in Heq.
  - by destruct (DAG.status D).
Qed.

(** C3.  A DAG submitted with an empty task list is never completed.  As
    submitted it holds [|task_results| = |tasks| = 0] and [is_complete()]
    answers yes, yet its status is pending and [completed_at] is unset: the
    terminal stamping fails.  Every result ingested later raises the count
    above zero, so the status moves to running and stays there, and
    [completed_at] stays unset. *)
Theorem C3_empty_dag_never_completed (D : DAG.t) :
  dag_reachable D → DAG.tasks D = [] →
  DAG.status D ≠ DAG.completed ∧
  DAG.completed_at D = None ∧
  (DAG.task_results D = ∅ →
   size (DAG.task_results D) = length (DAG.tasks D) ∧
   DAG.is_complete D = true ∧
   DAG.status D = DAG.pending ∧
   ¬ terminal_stamping D) ∧
  (DAG.task_results D ≠ ∅ →
   DAG.is_complete D = false ∧ DAG.status D = DAG.running).
Proof.
  intros Hreach Htasks.
  destruct (empty_task_list_inv D Hreach Htasks) as [Hst Hat].
  destruct (dag_reachable_inv D Hreach) as (_ & Hpend & _ & _).
  split_and!; try done.
  - intros Hempty.
    assert (Hsize : size (DAG.task_results D) = length (DAG.tasks D))
      by (by rewrite Hempty, Htasks, map_size_empty).
    split_and!; try done.
    + unfold DAG.is_complete. by apply bool_decide_eq_true.
    + by apply Hpend.
    + intros [[_ Hcompleted] _]. by apply Hst, Hcompleted.
  - intros Hne. split.
    + unfold DAG.is_complete. apply bool_decide_eq_false.
      rewrite Htasks. simpl. by rewrite map_size_empty_iff.
    + destruct (DAG.status D) eqn:Hstatus; try done.
      destruct Hne. by apply Hpend.
Qed.

Lemma C3_empty_dag_never_completed_witness :
  dag_reachable empty_dag ∧ DAG.tasks empty_dag = [] ∧
  size (DAG.task_results empty_dag) = length (DAG.tasks empty_dag) ∧
  DAG.is_complete empty_dag = true ∧
  DAG.status empty_dag = DAG.pending ∧
  DAG.completed_at empty_dag = None ∧
  ¬ terminal_stamping empty_dag.
Proof.
  assert (Hreach : dag_reachable empty_dag) by apply dag_submitted.
  destruct (C3_empty_dag_never_completed empty_dag Hreach eq_refl)
    as (_ & Hat & Hfresh & _).
  destruct (Hfresh eq_refl) as (Hsize & Hcomplete & Hst & Hfails).
  split_and!; done.
Defined.

(** The empty DAG after a result was reported for it: running, and
    [is_complete()] now answers no. *)
Example empty_dag_running :
  let D := DAG.update_task_result empty_dag "zz" (result_of true "d0") 1 in
  DAG.status D = DAG.running ∧ DAG.is_complete D = false ∧
  DAG.completed_at D = None.
Proof. vm_compute. done. Qed.

(** A DAG submitted without tasks: [is_complete] answers yes, yet the
    status is pending and [completed_at] is unset. *)
Example empty_dag_pending :
  DAG.is_complete empty_dag = true ∧
  DAG.status empty_dag = DAG.pending ∧
  DAG.completed_at empty_dag = None.
Proof. vm_compute. done. Qed.

(** C4.  In a DAG of exactly one task the first ingested result makes
    [|task_results| = |tasks|], so the branch that stamps [started_at] is
    skipped: the DAG is completed, [completed_at] is set and [started_at]
    is still unset. *)
Theorem C4_single_task_never_started (dag_id name : string) (t : Task)
    (task_id : string) (result : Result) (created now : Z) :
  let D := DAG.update_task_result (DAG.__init__ dag_id name [t] created)
                                  task_id result now in
  DAG.started_at D = None ∧
  DAG.status D = DAG.completed ∧
  DAG.completed_at D = Some now.
Proof.
  simpl. unfold DAG.update_task_result. simpl.
  rewrite decide_True; [done |].
  by rewrite map_size_insert_None, map_size_empty by apply lookup_empty.
Qed.

(** For every other number of tasks the first ingested result stamps
    [started_at]. *)
Lemma first_ingest_stamps_started_at (dag_id name : string)
    (tasks : list Task) (task_id : string) (result : Result)
    (created now : Z) :
  length tasks ≠ 1 →
  DAG.started_at
    (DAG.update_task_result (DAG.__init__ dag_id name tasks created)
                            task_id result now) = Some now.
Proof.
  intros Hlen. unfold DAG.update_task_result. simpl.
  rewrite decide_False; [done |].
  rewrite map_size_insert_None, map_size_empty by apply lookup_empty. lia.
Qed.

(** ** Consistency of the scheduler *)

Lemma dict_get_del_None {V : Type} (k k' : string) (d : pydict V) :
  dict_get k d = None → dict_get k (dict_del k' d) = None.
Proof.
  intros Hnone. destruct (decide (k' = k)) as [->|Hne].
  - apply dict_get_del_eq.
  - by rewrite dict_get_del_ne.
Qed.

Lemma sched_inv_init : sched_inv TaskScheduler.__init__.
Proof.
  split; simpl.
  - constructor.
  - intros k [x Hx]. by rewrite lookup_empty in Hx.
  - by intros t ?%elem_of_nil.
  - done.
  - by intros k info ?%elem_of_nil.
Qed.

(** Appending a descriptor whose id is not pending, while the running
    table loses entries at most and does not hold that id. *)
Lemma sched_inv_push (s : TaskScheduler.t) (task : Task)
    (running' : pydict TaskScheduler.info) :
  sched_inv s →
  TaskScheduler.pending_tasks s !! t_id task = None →
  dict_get (t_id task) running' = None →
  (∀ k, dict_get k (TaskScheduler.running_tasks s) = None →
        dict_get k running' = None) →
  (∀ x, x ∈ running' → x ∈ TaskScheduler.running_tasks s) →
  sched_inv (TaskScheduler.mk
               (TaskScheduler.task_queue s ++ [task])
               (<[t_id task := task]> (TaskScheduler.pending_tasks s))
               running').
Proof.
  intros [Hnd Hpq Hqp Hsingle Hkey] Hfresh Hnot Hnone Hsub.
  assert (Hnotin : t_id task ∉ map t_id (TaskScheduler.task_queue s)).
  { intros Hin. apply list_elem_of_fmap in Hin as (t & Heq & Hin).
    apply Hqp in Hin. rewrite <- Heq in Hin. congruence. }
  split; simpl.
  - rewrite map_app. apply NoDup_app. split; [done |]. split.
    + intros x Hx ->%list_elem_of_singleton. done.
    + apply NoDup_singleton.
  - intros k Hk. rewrite map_app. apply elem_of_app.
    apply lookup_insert_is_Some in Hk as [<-|[_ Hk]].
    + right. by apply list_elem_of_singleton.
    + left. by apply Hpq.
  - intros t [Hin| ->%list_elem_of_singleton]%elem_of_app.
    + rewrite lookup_insert_ne; [by apply Hqp |].
      intros Heq. apply Hnotin. rewrite Heq.
      by apply (list_elem_of_fmap_2 t_id).
    + apply lookup_insert_eq.
  - intros k Hk. apply lookup_insert_is_Some in Hk as [<-|[_ Hk]]; [done |].
    by apply Hnone, Hsingle.
  - intros k info Hin. by apply Hkey, Hsub.
Qed.

Lemma sched_inv_add_task (s : TaskScheduler.t) (task : Task)
    (dag_id : string) :
  sched_inv s →
  TaskScheduler.pending_tasks s !! t_id task = None →
  dict_get (t_id task) (TaskScheduler.running_tasks s) = None →
  sched_inv (TaskScheduler.add_task s task dag_id).
Proof.
  intros Hinv Hp Hr. unfold TaskScheduler.add_task.
  by apply (sched_inv_push s (set_dag_id task dag_id)).
Qed.

Lemma sched_inv_requeue (s : TaskScheduler.t) (k : string)
    (info : TaskScheduler.info) :
  sched_inv s → (k, info) ∈ TaskScheduler.running_tasks s →
  sched_inv (ControllerNode.requeue s k info).
Proof.
  intros Hinv Hin. unfold ControllerNode.requeue.
  pose proof (inv_running_key s Hinv k info Hin) as Hid.
  apply sched_inv_push; [done | | | |].
  - apply eq_None_not_Some. intros Hsome.
    rewrite Hid in Hsome. apply (inv_single s Hinv) in Hsome.
    apply dict_elem_get in Hin as [? Hin]. congruence.
  - rewrite Hid. apply dict_get_del_eq.
  - intros k'. apply dict_get_del_None.
  - intros [k' info']. apply dict_del_elem.
Qed.

Lemma sched_inv_fail_task (s : TaskScheduler.t) (task_id : string) :
  sched_inv s → sched_inv (TaskScheduler.fail_task s task_id).
Proof.
  intros Hinv. unfold TaskScheduler.fail_task.
  destruct (dict_get task_id (TaskScheduler.running_tasks s)) as [info|] eqn:Hget;
    [| done].
  by apply (sched_inv_requeue s task_id info), dict_get_elem.
Qed.

Lemma sched_inv_complete_task (s : TaskScheduler.t) (task_id : string)
    (result : Result) :
  sched_inv s → sched_inv (TaskScheduler.complete_task s task_id result).
Proof.
  intros [Hnd Hpq Hqp Hsingle Hkey]. unfold TaskScheduler.complete_task.
  destruct (dict_in task_id (TaskScheduler.running_tasks s)); [| done].
  split; simpl; try done.
  - intros k Hk. by apply dict_get_del_None, Hsingle.
  - intros k info Hin. by eapply Hkey, dict_del_elem.
Qed.

(** With a consistent scheduler [get_next_task] cannot raise: the head of
    the queue is pending. *)
Lemma get_next_task_ok (s : TaskScheduler.t) (node_id : string) (now : Z)
    (task : Task) (queue : list Task) :
  sched_inv s → TaskScheduler.task_queue s = task :: queue →
  TaskScheduler.get_next_task s node_id now
  = (TaskScheduler.mk queue
       (delete (t_id task) (TaskScheduler.pending_tasks s))
       (dict_set (t_id task) (TaskScheduler.mk_info node_id task now)
                 (TaskScheduler.running_tasks s)),
     Ok (Some task)).
Proof.
  intros Hinv Hq. unfold TaskScheduler.get_next_task. rewrite Hq.
  assert (Hin : key_in (t_id task) (TaskScheduler.pending_tasks s) = true).
  { apply key_in_true. rewrite (inv_queue_pending s Hinv task); [eauto |].
    rewrite Hq. left. }
  by rewrite Hin.
Qed.

Lemma sched_inv_get_next_task (s : TaskScheduler.t) (node_id : string)
    (now : Z) :
  sched_inv s → sched_inv (TaskScheduler.get_next_task s node_id now).1.
Proof.
  intros Hinv.
  destruct (TaskScheduler.task_queue s) as [|task queue] eqn:Hq.
  { unfold TaskScheduler.get_next_task. by rewrite Hq. }
  rewrite (get_next_task_ok s node_id now task queue Hinv Hq). simpl.
  destruct Hinv as [Hnd Hpq Hqp Hsingle Hkey]. rewrite Hq in *.
  simpl in Hnd. apply NoDup_cons in Hnd as [Hhead Hnd].
  split; simpl.
  - done.
  - intros k [Hne Hk]%lookup_delete_is_Some.
    apply Hpq in Hk. simpl in Hk.
    apply elem_of_cons in Hk as [->|Hk]; done.
  - intros t Hin. rewrite lookup_delete_ne.
    + apply Hqp. by right.
    + intros Heq. apply Hhead. rewrite Heq.
      by apply (list_elem_of_fmap_2 t_id).
  - intros k [Hne Hk]%lookup_delete_is_Some.
    rewrite dict_get_set_ne by done. by apply Hsingle.
  - intros k info [[= -> ->]|Hin]%dict_set_elem; [done |]. by apply Hkey.
Qed.

Lemma sched_inv_enqueue_if_new (dag_id : string) (s : TaskScheduler.t)
    (task : Task) :
  sched_inv s → sched_inv (ControllerNode.enqueue_if_new dag_id s task).
Proof.
  intros Hinv. unfold ControllerNode.enqueue_if_new.
  destruct (key_in _ _) eqn:Hp; simpl; [done |].
  destruct (dict_in _ _) eqn:Hr; simpl; [done |].
  apply sched_inv_add_task; [done | |].
  - by apply key_in_false.
  - by apply dict_in_false.
Qed.

Lemma sched_inv_enqueue_all (dag_id : string) (ready : list Task)
    (s : TaskScheduler.t) :
  sched_inv s →
  sched_inv (foldl (ControllerNode.enqueue_if_new dag_id) s ready).
Proof.
  revert s. induction ready as [|task ready IH]; intros s Hinv; simpl;
    [done |].
  by apply IH, sched_inv_enqueue_if_new.
Qed.

Lemma schedule_dag_tasks_nodes (s : ControllerNode.t) (dag_id : string) :
  ControllerNode.nodes (ControllerNode._schedule_dag_tasks s dag_id)
  = ControllerNode.nodes s.
Proof.
  unfold ControllerNode._schedule_dag_tasks.
  by destruct (dict_get dag_id (ControllerNode.dags s)).
Qed.

Lemma schedule_dag_tasks_dags (s : ControllerNode.t) (dag_id : string) :
  ControllerNode.dags (ControllerNode._schedule_dag_tasks s dag_id)
  = ControllerNode.dags s.
Proof.
  unfold ControllerNode._schedule_dag_tasks.
  by destruct (dict_get dag_id (ControllerNode.dags s)).
Qed.

Lemma sched_inv_schedule_dag_tasks (s : ControllerNode.t) (dag_id : string) :
  sched_inv (ControllerNode.scheduler s) →
  sched_inv (ControllerNode.scheduler
               (ControllerNode._schedule_dag_tasks s dag_id)).
Proof.
  intros Hinv. unfold ControllerNode._schedule_dag_tasks.
  destruct (dict_get dag_id (ControllerNode.dags s)); [| done].
  by apply sched_inv_enqueue_all.
Qed.

Lemma sched_inv_schedule_all (dag_ids : list string) (s : ControllerNode.t) :
  sched_inv (ControllerNode.scheduler s) →
  sched_inv (ControllerNode.scheduler
               (foldl ControllerNode._schedule_dag_tasks s dag_ids)).
Proof.
  revert s. induction dag_ids as [|d dag_ids IH]; intros s Hinv; simpl;
    [done |].
  by apply IH, sched_inv_schedule_dag_tasks.
Qed.

(** *** The reaper's walk over [running_tasks] *)

(** Once the dict has another size than when the walk began, the next
    request for an item raises, whether or not items are left. *)
Lemma requeue_loop_stale (node_id : string)
    (items : list (string * TaskScheduler.info)) (di_used : nat)
    (sched : TaskScheduler.t) :
  di_used ≠ length (TaskScheduler.running_tasks sched) →
  ControllerNode.requeue_loop node_id items di_used sched
  = (sched, Raise changed_size).
Proof.
  intros Hne. apply Nat.eqb_neq in Hne.
  destruct items as [|[k info] items]; simpl; by rewrite Hne.
Qed.

(** The walk either finds no entry of the worker and changes nothing, or
    re-queues the first such entry and raises. *)
Lemma requeue_loop_cases (node_id : string)
    (items : list (string * TaskScheduler.info)) (sched : TaskScheduler.t) :
  (∀ x, x ∈ items → x ∈ TaskScheduler.running_tasks sched) →
  (Forall (λ kv, TaskScheduler.node_id kv.2 ≠ node_id) items ∧
   ControllerNode.requeue_loop node_id items
     (length (TaskScheduler.running_tasks sched)) sched = (sched, Ok ()))
  ∨
  (∃ before k info after,
     items = before ++ (k, info) :: after ∧
     Forall (λ kv, TaskScheduler.node_id kv.2 ≠ node_id) before ∧
     TaskScheduler.node_id info = node_id ∧
     ControllerNode.requeue_loop node_id items
       (length (TaskScheduler.running_tasks sched)) sched
     = (ControllerNode.requeue sched k info, Raise changed_size)).
Proof.
  induction items as [|[k info] items IH]; intros Hsub; simpl;
    rewrite Nat.eqb_refl; simpl.
  - left. split; [constructor | done].
  - destruct (decide (TaskScheduler.node_id info = node_id)) as [Heq|Hne].
    + right. exists [], k, info, items. split; [done |].
      split; [constructor |]. split; [done |].
      apply requeue_loop_stale. simpl.
      assert (Hin : (k, info) ∈ TaskScheduler.running_tasks sched)
        by (apply Hsub; left).
      pose proof (dict_del_length_lt _ _ _ Hin). lia.
    + destruct IH as [[Hall Hrun]|(before & k' & info' & after & -> & Hall & Hm & Hrun)].
      * intros x Hx. apply Hsub. by right.
      * left. split; [by constructor | done].
      * right. exists ((k, info) :: before), k', info', after.
        split; [done |]. split; [by constructor |]. by split.
Qed.

Lemma sched_inv_requeue_loop (node_id : string) (sched : TaskScheduler.t) :
  sched_inv sched →
  sched_inv (ControllerNode.requeue_loop node_id
               (TaskScheduler.running_tasks sched)
               (length (TaskScheduler.running_tasks sched)) sched).1.
Proof.
  intros Hinv.
  destruct (requeue_loop_cases node_id (TaskScheduler.running_tasks sched)
              sched) as [[_ ->]|(before & k & info & after & Heq & _ & _ & ->)];
    [done | done |].
  simpl. apply sched_inv_requeue; [done |].
  rewrite Heq. apply elem_of_app. right. left.
Qed.

Lemma sched_inv_remove_dead (dead_nodes : list string)
    (s : ControllerNode.t) :
  sched_inv (ControllerNode.scheduler s) →
  sched_inv (ControllerNode.scheduler
               (ControllerNode.remove_dead dead_nodes s).1).
Proof.
  revert s. induction dead_nodes as [|node_id dead_nodes IH]; intros s Hinv;
    simpl; [done |].
  destruct (dict_in node_id (ControllerNode.nodes s)); [| by apply IH].
  pose proof (sched_inv_requeue_loop node_id _ Hinv) as Hloop.
  destruct (ControllerNode.requeue_loop _ _ _ _) as [sched [[]|e]];
    simpl in *; [by apply IH | done].
Qed.

Lemma remove_dead_dags (dead_nodes : list string) (s : ControllerNode.t) :
  ControllerNode.dags (ControllerNode.remove_dead dead_nodes s).1
  = ControllerNode.dags s.
Proof.
  revert s. induction dead_nodes as [|node_id dead_nodes IH]; intros s;
    simpl; [done |].
  destruct (dict_in node_id (ControllerNode.nodes s)); [| by apply IH].
  destruct (ControllerNode.requeue_loop _ _ _ _) as [sched [[]|e]];
    simpl; [by rewrite IH | done].
Qed.

(** *** Every step keeps the scheduler consistent *)

Lemma sched_inv_process_message (s : ControllerNode.t) (m : message)
    (conn : nat) (addr : string * Z) (now : Z) (uuid : string) :
  sched_inv (ControllerNode.scheduler s) →
  sched_inv (ControllerNode.scheduler
               (ControllerNode._process_message s m conn addr now uuid).1).
Proof.
  intros Hinv. destruct m; simpl; try done.
  - unfold ControllerNode._handle_heartbeat.
    by destruct (dict_get _ _).
  - unfold ControllerNode._handle_get_task.
    pose proof (sched_inv_get_next_task _ node_id now Hinv) as Hnext.
    by destruct (TaskScheduler.get_next_task _ _ _) as [sched [[task|]|e]].
  - assert (Hsched : sched_inv
              (if r_success result
               then TaskScheduler.complete_task (ControllerNode.scheduler s)
                      task_id result
               else TaskScheduler.fail_task (ControllerNode.scheduler s)
                      task_id)).
    { destruct (r_success result);
        [by apply sched_inv_complete_task | by apply sched_inv_fail_task]. }
    destruct (truthy_str (r_dag_id result)); [| done].
    by apply sched_inv_schedule_dag_tasks.
  - by apply sched_inv_schedule_dag_tasks.
  - unfold ControllerNode._handle_get_dag_status.
    by destruct (dict_get _ _).
Qed.

Lemma sched_inv_step (e : ControllerNode.event) (s : ControllerNode.t) :
  sched_inv (ControllerNode.scheduler s) →
  sched_inv (ControllerNode.scheduler (ControllerNode.step e s)).
Proof.
  intros Hinv. destruct e as [m conn addr rd| |now]; simpl.
  - by apply sched_inv_process_message.
  - by apply sched_inv_schedule_all.
  - by apply sched_inv_remove_dead.
Qed.

Lemma reachable_sched_inv (s : ControllerNode.t) :
  ControllerNode.reachable s → sched_inv (ControllerNode.scheduler s).
Proof.
  induction 1 as [|e s _ IH]; [apply sched_inv_init | by apply sched_inv_step].
Qed.

Lemma reachable_run (trace : list ControllerNode.event)
    (s : ControllerNode.t) :
  ControllerNode.reachable s →
  ControllerNode.reachable (ControllerNode.run trace s).
Proof.
  revert s. induction trace as [|e trace IH]; intros s Hs; [done |].
  apply IH. by constructor.
Qed.

(** ** Dispatch: [get_task] *)

(** What [_handle_get_task] does when the queue is not empty and the
    scheduler is consistent. *)
Lemma handle_get_task_head (s : ControllerNode.t) (node_id : string)
    (now : Z) (task : Task) (queue : list Task) :
  sched_inv (ControllerNode.scheduler s) →
  TaskScheduler.task_queue (ControllerNode.scheduler s) = task :: queue →
  ControllerNode._handle_get_task s node_id now
  = (ControllerNode.mk
       (match dict_get node_id (ControllerNode.nodes s) with
        | Some node =>
            dict_set node_id (Node.assign node (t_id task))
                     (ControllerNode.nodes s)
        | None => ControllerNode.nodes s
        end)
       (ControllerNode.dags s)
       (TaskScheduler.mk queue
          (delete (t_id task)
                  (TaskScheduler.pending_tasks (ControllerNode.scheduler s)))
          (dict_set (t_id task) (TaskScheduler.mk_info node_id task now)
                    (TaskScheduler.running_tasks (ControllerNode.scheduler s)))),
     Ok (TaskReply (Some task))).
Proof.
  intros Hinv Hq. unfold ControllerNode._handle_get_task.
  by rewrite (get_next_task_ok _ node_id now task queue Hinv Hq).
Qed.

Lemma handle_get_task_empty (s : ControllerNode.t) (node_id : string)
    (now : Z) :
  TaskScheduler.task_queue (ControllerNode.scheduler s) = [] →
  ControllerNode._handle_get_task s node_id now = (s, Ok (TaskReply None)).
Proof.
  intros Hq. unfold ControllerNode._handle_get_task,
    TaskScheduler.get_next_task. rewrite Hq. by destruct s.
Qed.

(** Outside the reachable states the head of the queue need not be
    pending; then [del self.pending_tasks[task_id]] raises after the head
    has been popped. *)
Example get_next_task_unmirrored :
  TaskScheduler.get_next_task
    (TaskScheduler.mk [task_of "t1" None] ∅ []) "w1" 0
  = (TaskScheduler.mk [] ∅ [], Raise (KeyError "t1")).
Proof. reflexivity. Qed.

(** C6.  In every state the controller can reach, for every [node_id]: if
    [ready_queue] is [task :: queue], [get_task] answers
    [{status: success, task}] with exactly that head, leaves [queue] as the
    ready queue, deletes the task id from [pending_index] and puts it in
    [in_flight] with the caller's id and the current time; if [ready_queue]
    is empty the state is unchanged and the answer is
    [{status: success, task: null}]. *)
Theorem C6_get_task_fifo (s : ControllerNode.t) (node_id : string)
    (now : Z) (conn : nat) (addr : string * Z) (uuid : string) :
  ControllerNode.reachable s →
  (∀ task queue,
     TaskScheduler.task_queue (ControllerNode.scheduler s) = task :: queue →
     ∃ s',
       ControllerNode._process_message s (get_task node_id) conn addr now uuid
       = (s', Ok (TaskReply (Some task))) ∧
       resp_status (TaskReply (Some task)) = "success" ∧
       TaskScheduler.task_queue (ControllerNode.scheduler s') = queue ∧
       TaskScheduler.pending_tasks (ControllerNode.scheduler s')
       = delete (t_id task)
           (TaskScheduler.pending_tasks (ControllerNode.scheduler s)) ∧
       TaskScheduler.pending_tasks (ControllerNode.scheduler s') !! t_id task
       = None ∧
       TaskScheduler.running_tasks (ControllerNode.scheduler s')
       = dict_set (t_id task) (TaskScheduler.mk_info node_id task now)
           (TaskScheduler.running_tasks (ControllerNode.scheduler s)) ∧
       dict_get (t_id task)
         (TaskScheduler.running_tasks (ControllerNode.scheduler s'))
       = Some (TaskScheduler.mk_info node_id task now) ∧
       ControllerNode.dags s' = ControllerNode.dags s) ∧
  (TaskScheduler.task_queue (ControllerNode.scheduler s) = [] →
   ControllerNode._process_message s (get_task node_id) conn addr now uuid
   = (s, Ok (TaskReply None)) ∧
   resp_status (TaskReply None) = "success").
Proof.
  intros Hreach. pose proof (reachable_sched_inv s Hreach) as Hinv. split.
  - intros task queue Hq. eexists. simpl.
    rewrite (handle_get_task_head s node_id now task queue Hinv Hq).
    split; [reflexivity |]. simpl.
    repeat split; [apply lookup_delete_eq | apply dict_get_set_eq].
  - intros Hq. simpl. by rewrite handle_get_task_empty.
Qed.

Lemma C6_get_task_fifo_witness :
  ControllerNode.reachable one_queued ∧
  TaskScheduler.task_queue (ControllerNode.scheduler one_queued)
  = [set_dag_id (task_of "t1" None) "d1"] ∧
  ∃ s',
    ControllerNode._process_message one_queued (get_task "w9") worker_conn
      worker_addr 7 ""
    = (s', Ok (TaskReply (Some (set_dag_id (task_of "t1" None) "d1")))) ∧
    TaskScheduler.task_queue (ControllerNode.scheduler s') = [] ∧
    dict_get "t1" (TaskScheduler.running_tasks (ControllerNode.scheduler s'))
    = Some (TaskScheduler.mk_info "w9"
              (set_dag_id (task_of "t1" None) "d1") 7).
Proof.
  assert (Hreach : ControllerNode.reachable one_queued)
    by apply reachable_run, ControllerNode.reachable_init.
  assert (Hq : TaskScheduler.task_queue (ControllerNode.scheduler one_queued)
               = [set_dag_id (task_of "t1" None) "d1"])
    by (vm_compute; reflexivity).
  split; [exact Hreach |]. split; [exact Hq |].
  destruct (proj1 (C6_get_task_fifo one_queued "w9" 7 worker_conn worker_addr
                     "" Hreach) _ _ Hq)
    as (s' & Hrun & _ & Hqueue & _ & _ & _ & Hflight & _).
  exists s'. split; [exact Hrun |]. split; [exact Hqueue | exact Hflight].
Defined.

(** C9.  In every reachable state with a non-empty ready queue, [get_task]
    hands the head to any [node_id] whatever: it is dequeued, recorded in
    [in_flight] under that id and returned with status success.  A
    registered worker is marked busy with the task; for an id that is not
    in the Workers table that marking alone is skipped, the table is left
    as it was, and the new [in_flight] entry names a worker the table does
    not hold. *)
Theorem C9_get_task_unregistered (s : ControllerNode.t) (node_id : string)
    (now : Z) (task : Task) (queue : list Task) :
  ControllerNode.reachable s →
  TaskScheduler.task_queue (ControllerNode.scheduler s) = task :: queue →
  ∃ s',
    ControllerNode._handle_get_task s node_id now
    = (s', Ok (TaskReply (Some task))) ∧
    resp_status (TaskReply (Some task)) = "success" ∧
    TaskScheduler.task_queue (ControllerNode.scheduler s') = queue ∧
    dict_get (t_id task)
      (TaskScheduler.running_tasks (ControllerNode.scheduler s'))
    = Some (TaskScheduler.mk_info node_id task now) ∧
    (∀ node, dict_get node_id (ControllerNode.nodes s) = Some node →
       ControllerNode.nodes s'
       = dict_set node_id (Node.assign node (t_id task))
                  (ControllerNode.nodes s)) ∧
    (dict_get node_id (ControllerNode.nodes s) = None →
       ControllerNode.nodes s' = ControllerNode.nodes s ∧
       dict_get node_id (ControllerNode.nodes s') = None).
Proof.
  intros Hreach Hq. pose proof (reachable_sched_inv s Hreach) as Hinv.
  eexists. rewrite (handle_get_task_head s node_id now task queue Hinv Hq).
  split; [reflexivity |]. simpl.
  split_and!; [done | done | apply dict_get_set_eq | |].
  - intros node Hnode. by rewrite Hnode.
  - intros Hnone. by rewrite Hnone.
Qed.

Lemma C9_get_task_unregistered_witness :
  ControllerNode.reachable one_queued ∧
  TaskScheduler.task_queue (ControllerNode.scheduler one_queued)
  = [set_dag_id (task_of "t1" None) "d1"] ∧
  dict_get "ghost" (ControllerNode.nodes one_queued) = None ∧
  ∃ s',
    ControllerNode._handle_get_task one_queued "ghost" 7
    = (s', Ok (TaskReply (Some (set_dag_id (task_of "t1" None) "d1")))) ∧
    ControllerNode.nodes s' = [] ∧
    dict_get "t1" (TaskScheduler.running_tasks (ControllerNode.scheduler s'))
    = Some (TaskScheduler.mk_info "ghost"
              (set_dag_id (task_of "t1" None) "d1") 7).
Proof.
  assert (Hreach : ControllerNode.reachable one_queued)
    by apply reachable_run, ControllerNode.reachable_init.
  assert (Hq : TaskScheduler.task_queue (ControllerNode.scheduler one_queued)
               = [set_dag_id (task_of "t1" None) "d1"])
    by (vm_compute; reflexivity).
  split; [exact Hreach |]. split; [exact Hq |]. split; [reflexivity |].
  destruct (C9_get_task_unregistered one_queued "ghost" 7 _ _ Hreach Hq)
    as (s' & Hrun & _ & _ & Hflight & _ & Hnone).
  exists s'. split; [exact Hrun |]. split; [| exact Hflight].
  exact (proj1 (Hnone eq_refl)).
Defined.

(** ** The enqueue guard *)

Lemma enqueue_if_new_guarded (dag_id : string) (task : Task)
    (s : TaskScheduler.t) (k : string) :
  is_Some (TaskScheduler.pending_tasks s !! k) ∨
  is_Some (dict_get k (TaskScheduler.running_tasks s)) →
  let s' := ControllerNode.enqueue_if_new dag_id s task in
  ∃ added,
    TaskScheduler.task_queue s' = TaskScheduler.task_queue s ++ added ∧
    Forall (λ x, t_id x ≠ k) added ∧
    TaskScheduler.pending_tasks s' !! k = TaskScheduler.pending_tasks s !! k ∧
    TaskScheduler.running_tasks s' = TaskScheduler.running_tasks s.
Proof.
  intros Hguard. simpl. unfold ControllerNode.enqueue_if_new.
  destruct (key_in _ _) eqn:Hp; simpl;
    [exists []; by rewrite app_nil_r |].
  destruct (dict_in _ _) eqn:Hr; simpl;
    [exists []; by rewrite app_nil_r |].
  apply key_in_false in Hp. apply dict_in_false in Hr.
  assert (Hne : t_id task ≠ k).
  { intros Heq. subst k. destruct Hguard as [[x Hx]|[x Hx]]; congruence. }
  exists [set_dag_id task dag_id]. split; [done |].
  split; [by repeat constructor |]. split; [| done].
  by rewrite lookup_insert_ne.
Qed.

Lemma enqueue_all_guarded (dag_id : string) (ready : list Task)
    (s : TaskScheduler.t) (k : string) :
  is_Some (TaskScheduler.pending_tasks s !! k) ∨
  is_Some (dict_get k (TaskScheduler.running_tasks s)) →
  let s' := foldl (ControllerNode.enqueue_if_new dag_id) s ready in
  ∃ added,
    TaskScheduler.task_queue s' = TaskScheduler.task_queue s ++ added ∧
    Forall (λ x, t_id x ≠ k) added ∧
    TaskScheduler.pending_tasks s' !! k = TaskScheduler.pending_tasks s !! k ∧
    TaskScheduler.running_tasks s' = TaskScheduler.running_tasks s.
Proof.
  revert s. induction ready as [|task ready IH]; intros s Hguard; simpl.
  - exists []. by rewrite app_nil_r.
  - destruct (enqueue_if_new_guarded dag_id task s k Hguard)
      as (added1 & Hq1 & Hall1 & Hpend1 & Hrun1).
    destruct (IH (ControllerNode.enqueue_if_new dag_id s task))
      as (added2 & Hq2 & Hall2 & Hpend2 & Hrun2).
    { by rewrite Hpend1, Hrun1. }
    exists (added1 ++ added2). rewrite Hq2, Hq1, <- app_assoc.
    split; [done |]. split; [by apply Forall_app |].
    split; [by rewrite Hpend2 | by rewrite Hrun2].
Qed.

(** C10.  The guard of the ready-set evaluator looks up the bare task id:
    while an id [k] is a key of [pending_index] or of [in_flight] (put
    there for a task of any DAG), evaluating any DAG appends no descriptor
    with id [k] to the ready queue, whether or not such a task of that DAG
    is ready; the entries under [k] stay as they were. *)
Theorem C10_guard_ignores_dag (s : ControllerNode.t) (dag_id k : string) :
  is_Some (TaskScheduler.pending_tasks (ControllerNode.scheduler s) !! k) ∨
  is_Some (dict_get k
             (TaskScheduler.running_tasks (ControllerNode.scheduler s))) →
  let s' := ControllerNode._schedule_dag_tasks s dag_id in
  ∃ added,
    TaskScheduler.task_queue (ControllerNode.scheduler s')
    = TaskScheduler.task_queue (ControllerNode.scheduler s) ++ added ∧
    Forall (λ x, t_id x ≠ k) added ∧
    TaskScheduler.pending_tasks (ControllerNode.scheduler s') !! k
    = TaskScheduler.pending_tasks (ControllerNode.scheduler s) !! k ∧
    TaskScheduler.running_tasks (ControllerNode.scheduler s')
    = TaskScheduler.running_tasks (ControllerNode.scheduler s).
Proof.
  intros Hguard. simpl. unfold ControllerNode._schedule_dag_tasks.
  destruct (dict_get dag_id (ControllerNode.dags s)) as [dag|]; simpl.
  - by apply enqueue_all_guarded.
  - exists []. by rewrite app_nil_r.
Qed.

(** After two DAGs that both declare ["t"] were submitted, the second
    DAG's ["t"] is ready but only the first DAG's is queued; evaluating the
    second DAG again adds nothing. *)
Lemma C10_guard_ignores_dag_witness :
  (∃ D2, dict_get "d2" (ControllerNode.dags two_dags) = Some D2 ∧
         task_of "t" None ∈ DAG.get_ready_tasks D2) ∧
  TaskScheduler.pending_tasks (ControllerNode.scheduler two_dags) !! "t"
  = Some (set_dag_id (task_of "t" None) "d1") ∧
  ∃ added,
    TaskScheduler.task_queue
      (ControllerNode.scheduler
         (ControllerNode._schedule_dag_tasks two_dags "d2"))
    = [set_dag_id (task_of "t" None) "d1"] ++ added ∧
    Forall (λ x, t_id x ≠ "t") added.
Proof.
  assert (Hpend :
    TaskScheduler.pending_tasks (ControllerNode.scheduler two_dags) !! "t"
    = Some (set_dag_id (task_of "t" None) "d1")) by (vm_compute; reflexivity).
  split.
  { eexists. split; [vm_compute; reflexivity |]. vm_compute. left. }
  split; [exact Hpend |].
  destruct (C10_guard_ignores_dag two_dags "d2" "t") as (added & Hq & Hall & _).
  { left. rewrite Hpend. eauto. }
  exists added. split; [exact Hq | exact Hall].
Defined.

(** ** Reference errors *)

(** C7.  In every state: a [heartbeat] whose [node_id] is not registered
    and a [get_dag_status] whose [dag_id] is unknown are answered with
    status error and a message (["DAG not found"] for the latter), and the
    state (Workers, DAGs, Scheduler) is left as it was. *)
Theorem C7_reference_errors (s : ControllerNode.t) (conn : nat)
    (addr : string * Z) (now : Z) (uuid : string) :
  (∀ node_id, dict_in node_id (ControllerNode.nodes s) = false →
     ∃ r msg,
       ControllerNode._process_message s (heartbeat node_id) conn addr now uuid
       = (s, Ok r) ∧
       resp_status r = "error" ∧ resp_message r = Some msg) ∧
  (∀ dag_id, dict_in dag_id (ControllerNode.dags s) = false →
     ∃ r,
       ControllerNode._process_message s (get_dag_status dag_id) conn addr
         now uuid
       = (s, Ok r) ∧
       resp_status r = "error" ∧ resp_message r = Some "DAG not found").
Proof.
  split.
  - intros node_id Hin%dict_in_false. simpl.
    unfold ControllerNode._handle_heartbeat. rewrite Hin. by eexists _, _.
  - intros dag_id Hin%dict_in_false. simpl.
    unfold ControllerNode._handle_get_dag_status. rewrite Hin. by eexists.
Qed.

(** Scenario S5, and a heartbeat from a worker that never registered, in
    a state with one worker and two tasks in flight. *)
Lemma C7_reference_errors_witness :
  (∃ r msg,
     ControllerNode._process_message two_in_flight (heartbeat "w7")
       worker_conn worker_addr 9 ""
     = (two_in_flight, Ok r) ∧
     resp_status r = "error" ∧ resp_message r = Some msg) ∧
  (∃ r,
     ControllerNode._process_message two_in_flight (get_dag_status "nope")
       client_conn client_addr 9 ""
     = (two_in_flight, Ok r) ∧
     resp_status r = "error" ∧ resp_message r = Some "DAG not found").
Proof.
  split.
  - apply (proj1 (C7_reference_errors two_in_flight worker_conn worker_addr
                    9 "")).
    vm_compute. reflexivity.
  - apply (proj2 (C7_reference_errors two_in_flight client_conn client_addr
                    9 "")).
    vm_compute. reflexivity.
Defined.

(** ** Frames and the length prefix *)

Lemma handle_connection_sent (conn : nat) (addr : string * Z)
    (script : list (ControllerNode.inbound * ControllerNode.reading))
    (s : ControllerNode.t) (sent : list response) :
  ∃ more,
    (ControllerNode._handle_connection s conn addr script sent).1.2
    = sent ++ more.
Proof.
  revert s sent. induction script as [|[[length_data body|length_data] rd]
                                        script IH]; intros s sent; simpl.
  - exists []. by rewrite app_nil_r.
  - destruct (if (ControllerNode.int_from_bytes length_data =? 0)%Z
              then ControllerNode.NotJson else body) as [| |m];
      try (exists []; by rewrite app_nil_r).
    destruct (ControllerNode._process_message s m conn addr _ _)
      as [s' [r|e]]; [| exists []; by rewrite app_nil_r].
    destruct (IH s' (sent ++ [r])) as [more Hmore].
    exists (r :: more). by rewrite Hmore, <- app_assoc.
  - exists []. by rewrite app_nil_r.
Qed.

(** C8 (as amended).  The handler compares the length prefix with no cap:
    for every frame whose announced length is not zero, whatever that
    length is, once the payload has arrived and decodes to a request that
    the router answers with [r], the handler goes on with the next frame
    having written exactly the response [r]; so [r] is among the frames
    the connection gets back. *)
Theorem C8_no_length_cap (s s' : ControllerNode.t) (conn : nat)
    (addr : string * Z) (length_data : list Byte.byte) (m : message)
    (rd : ControllerNode.reading) (r : response)
    (script : list (ControllerNode.inbound * ControllerNode.reading))
    (sent : list response) :
  ControllerNode.int_from_bytes length_data ≠ 0%Z →
  ControllerNode._process_message s m conn addr (ControllerNode.clock rd)
    (ControllerNode.uuid8 rd) = (s', Ok r) →
  ControllerNode._handle_connection s conn addr
    ((ControllerNode.Frame length_data (ControllerNode.Object m), rd)
       :: script) sent
  = ControllerNode._handle_connection s' conn addr script (sent ++ [r]) ∧
  ∃ more,
    (ControllerNode._handle_connection s conn addr
       ((ControllerNode.Frame length_data (ControllerNode.Object m), rd)
          :: script) sent).1.2
    = sent ++ r :: more.
Proof.
  intros Hlen Hrun.
  assert (Hstep :
    ControllerNode._handle_connection s conn addr
      ((ControllerNode.Frame length_data (ControllerNode.Object m), rd)
         :: script) sent
    = ControllerNode._handle_connection s' conn addr script (sent ++ [r])).
  { simpl. apply Z.eqb_neq in Hlen. by rewrite Hlen, Hrun. }
  split; [exact Hstep |]. rewrite Hstep.
  destruct (handle_connection_sent conn addr script s' (sent ++ [r]))
    as [more Hmore].
  exists more. by rewrite Hmore, <- app_assoc.
Qed.

Lemma C8_no_length_cap_witness :
  (suggested_cap < ControllerNode.int_from_bytes oversize_prefix)%Z ∧
  ∃ more,
    (ControllerNode._handle_connection two_in_flight client_conn client_addr
       [(ControllerNode.Frame oversize_prefix
           (ControllerNode.Object (get_dag_status "nope")),
         ControllerNode.mk_reading 9 "")] []).1.2
    = [] ++ Error "DAG not found" :: more.
Proof.
  split; [reflexivity |].
  refine (proj2 (C8_no_length_cap two_in_flight two_in_flight client_conn
                   client_addr oversize_prefix (get_dag_status "nope")
                   (ControllerNode.mk_reading 9 "") (Error "DAG not found")
                   [] [] _ _)).
  - vm_compute. discriminate.
  - vm_compute. reflexivity.
Defined.

(** C8, counterexample.  A frame announcing 16 MiB + 1 bytes whose payload
    is the request of scenario S5 is read and routed like any other: the
    handler writes the response and keeps the connection until the peer
    closes it. *)
Lemma C8_counterexample :
  ControllerNode._handle_connection ControllerNode.__init__ client_conn
    client_addr
    [(ControllerNode.Frame oversize_prefix
        (ControllerNode.Object (get_dag_status "nope")),
      ControllerNode.mk_reading 9 "")] []
  = (ControllerNode.__init__, [Error "DAG not found"],
     ControllerNode.PeerClosed) ∧
  ¬ oversize_refused suggested_cap ControllerNode.__init__ oversize_prefix
      (ControllerNode.Object (get_dag_status "nope"))
      (ControllerNode.mk_reading 9 "") [].
Proof.
  assert (Hrun :
    ControllerNode._handle_connection ControllerNode.__init__ client_conn
      client_addr
      [(ControllerNode.Frame oversize_prefix
          (ControllerNode.Object (get_dag_status "nope")),
        ControllerNode.mk_reading 9 "")] []
    = (ControllerNode.__init__, [Error "DAG not found"],
       ControllerNode.PeerClosed)) by (vm_compute; reflexivity).
  split; [exact Hrun |].
  intros Hclaim. destruct Hclaim as [e He]; [reflexivity |].
  rewrite Hrun in He. discriminate.
Qed.

(** Frames the handler does refuse: an announced length of zero, a payload
    that is not a JSON object, a stream that ends inside the payload.
    Nothing is written for them. *)
Lemma handle_connection_refused (s : ControllerNode.t) (conn : nat)
    (addr : string * Z) (length_data : list Byte.byte)
    (rd : ControllerNode.reading)
    (script : list (ControllerNode.inbound * ControllerNode.reading))
    (sent : list response) :
  (∀ body, ControllerNode.int_from_bytes length_data = 0%Z →
     ControllerNode._handle_connection s conn addr
       ((ControllerNode.Frame length_data body, rd) :: script) sent
     = (s, sent, ControllerNode.Failed JSONDecodeError)) ∧
  ControllerNode._handle_connection s conn addr
    ((ControllerNode.Frame length_data ControllerNode.NotJson, rd) :: script)
    sent
  = (s, sent, ControllerNode.Failed JSONDecodeError) ∧
  (∃ e, ControllerNode._handle_connection s conn addr
          ((ControllerNode.Frame length_data ControllerNode.NotObject, rd)
             :: script) sent
        = (s, sent, ControllerNode.Failed e)) ∧
  (∃ e, ControllerNode._handle_connection s conn addr
          ((ControllerNode.Truncated length_data, rd) :: script) sent
        = (s, sent, ControllerNode.Failed e)).
Proof.
  split_and!.
  - intros body Hzero. simpl. by rewrite Hzero.
  - simpl. by destruct (_ =? _)%Z.
  - simpl. destruct (_ =? _)%Z; by eexists.
  - simpl. by eexists.
Qed.

(** ** The reaper *)

(** A worker without in-flight tasks is removed by the reaper. *)
Lemma remove_dead_idle_worker (s : ControllerNode.t) (node_id : string) :
  dict_in node_id (ControllerNode.nodes s) = true →
  Forall (λ kv, TaskScheduler.node_id kv.2 ≠ node_id)
         (TaskScheduler.running_tasks (ControllerNode.scheduler s)) →
  ControllerNode.remove_dead [node_id] s
  = (ControllerNode.mk (dict_del node_id (ControllerNode.nodes s))
       (ControllerNode.dags s) (ControllerNode.scheduler s),
     Ok ()).
Proof.
  intros Hin Hidle. simpl. rewrite Hin.
  destruct (requeue_loop_cases node_id
              (TaskScheduler.running_tasks (ControllerNode.scheduler s))
              (ControllerNode.scheduler s))
    as [[_ ->]|(before & k & info & after & Heq & _ & Hmatch & _)];
    [done | done |].
  rewrite Heq in Hidle. apply Forall_app in Hidle as [_ Hidle].
  apply Forall_cons in Hidle as [Hne _]. done.
Qed.

(** A worker with in-flight tasks is not: the walk re-queues the first of
    its entries, the deletion resizes the dict under the iterator, and the
    [RuntimeError] leaves the loop before [del self.nodes[node_id]]; the
    dead workers after it in the list are not looked at either. *)
Lemma remove_dead_busy_worker (s : ControllerNode.t) (node_id : string)
    (dead_nodes : list string) (k : string) (info : TaskScheduler.info) :
  dict_in node_id (ControllerNode.nodes s) = true →
  (k, info) ∈ TaskScheduler.running_tasks (ControllerNode.scheduler s) →
  TaskScheduler.node_id info = node_id →
  ∃ before k1 info1 after,
    TaskScheduler.running_tasks (ControllerNode.scheduler s)
    = before ++ (k1, info1) :: after ∧
    Forall (λ kv, TaskScheduler.node_id kv.2 ≠ node_id) before ∧
    TaskScheduler.node_id info1 = node_id ∧
    ControllerNode.remove_dead (node_id :: dead_nodes) s
    = (ControllerNode.mk (ControllerNode.nodes s) (ControllerNode.dags s)
         (ControllerNode.requeue (ControllerNode.scheduler s) k1 info1),
       Raise changed_size).
Proof.
  intros Hin Hflight Hmatch. simpl. rewrite Hin.
  destruct (requeue_loop_cases node_id
              (TaskScheduler.running_tasks (ControllerNode.scheduler s))
              (ControllerNode.scheduler s))
    as [[Hidle _]|(before & k1 & info1 & after & Heq & Hbefore & Hm & ->)];
    [done | |].
  - rewrite Forall_forall in Hidle. by destruct (Hidle _ Hflight).
  - by exists before, k1, info1, after.
Qed.

(** C1.  Worker [w1] holds [t1] and [t2] in flight and its heartbeat is 90
    seconds old.  The reaper pass finds it dead, re-queues [t1] and is
    thrown out of its loop by [RuntimeError]: [w1] is still in the Workers
    table and [t2] is still in [in_flight] under [w1], in neither
    [ready_queue] nor [pending_index]. *)
Theorem C1_reaper_leaves_worker_and_tasks :
  let w1_alive :=
    (λ node : Node.t, Node.is_alive node 90)
      <$> dict_get "w1" (ControllerNode.nodes two_in_flight) in
  let pass := ControllerNode._health_check_loop two_in_flight 90 in
  let sched := ControllerNode.scheduler pass.1 in
  dict_keys (TaskScheduler.running_tasks
               (ControllerNode.scheduler two_in_flight)) = ["t1"; "t2"] ∧
  w1_alive = Some false ∧
  pass.2 = Raise changed_size ∧
  dict_in "w1" (ControllerNode.nodes pass.1) = true ∧
  map t_id (TaskScheduler.task_queue sched) = ["t1"] ∧
  TaskScheduler.pending_tasks sched !! "t2" = None ∧
  (TaskScheduler.node_id
     <$> dict_get "t2" (TaskScheduler.running_tasks sched)) = Some "w1".
Proof. vm_compute. done. Qed.

(** The same pass when [w1] holds nothing: it is removed. *)
Example reaper_removes_idle_worker :
  let s := ControllerNode.run
             [from_worker (register_node "w1" (Some 128%Z)) 0]
             ControllerNode.__init__ in
  ControllerNode._health_check_loop s 90 = (ControllerNode.__init__, Ok ()).
Proof. vm_compute. reflexivity. Qed.

(** ** [task_results] across the steps of the controller *)

Lemma scheduler_loop_dags (dag_ids : list string) (s : ControllerNode.t) :
  ControllerNode.dags (foldl ControllerNode._schedule_dag_tasks s dag_ids)
  = ControllerNode.dags s.
Proof.
  revert s. induction dag_ids as [|d dag_ids IH]; intros s; simpl; [done |].
  by rewrite IH, schedule_dag_tasks_dags.
Qed.

Lemma handle_task_result_dags (s : ControllerNode.t)
    (node_id task_id : string) (result : Result) (now : Z) :
  ControllerNode.dags
    (ControllerNode._handle_task_result s node_id task_id result now).1
  = match truthy_str (r_dag_id result) with
    | Some d =>
        match dict_get d (ControllerNode.dags s) with
        | Some dag =>
            dict_set d (DAG.update_task_result dag task_id result now)
                     (ControllerNode.dags s)
        | None => ControllerNode.dags s
        end
    | None => ControllerNode.dags s
    end.
Proof.
  unfold ControllerNode._handle_task_result.
  destruct (truthy_str (r_dag_id result)); simpl; [| done].
  by rewrite schedule_dag_tasks_dags.
Qed.




(** Scenario S4 itself: the failed task is back at the tail of the ready
    queue, and the next poll returns it. *)
Example failed_task_is_requeued :
  map t_id (TaskScheduler.task_queue (ControllerNode.scheduler retry_failed))
  = ["t1"] ∧
  dict_keys (TaskScheduler.running_tasks
               (ControllerNode.scheduler retry_redispatched)) = ["t1"].
Proof. vm_compute. done. Qed.

(** Every DAG in the DAGs table of a reachable state is one that the
    constructor and [update_task_result] produce, so what holds of those
    holds of it. *)
Lemma reachable_dags (s : ControllerNode.t) :
  ControllerNode.reachable s →
  ∀ d D, dict_get d (ControllerNode.dags s) = Some D → dag_reachable D.
Proof.
  induction 1 as [|e s _ IH]; intros d D; [done |].
  destruct e as [m conn addr rd| |now].
  - destruct m as [node_id ram|node_id|node_id|node_id task_id result
                  |name tasks| |dag_id|msg_type]; try apply IH.
    + simpl. unfold ControllerNode._handle_heartbeat.
      destruct (dict_get node_id _); apply IH.
    + simpl. unfold ControllerNode._handle_get_task.
      destruct (TaskScheduler.get_next_task _ _ _) as [sched [[task|]|x]];
        apply IH.
    + unfold ControllerNode.step, ControllerNode._process_message.
      rewrite handle_task_result_dags.
      destruct (truthy_str (r_dag_id result)) as [d0|]; [| apply IH].
      destruct (dict_get d0 (ControllerNode.dags s)) as [dag|] eqn:Hdag;
        [| apply IH].
      rewrite dict_get_set. destruct (decide (d0 = d)) as [->|Hne];
        [| apply IH].
      intros [= <-]. apply dag_ingested. by eapply IH.
    + unfold ControllerNode.step, ControllerNode._process_message,
        ControllerNode._handle_submit_dag. cbn [fst].
      rewrite schedule_dag_tasks_dags. cbn [ControllerNode.dags].
      rewrite dict_get_set.
      destruct (decide (ControllerNode.uuid8 rd = d)); [| apply IH].
      intros [= <-]. apply dag_submitted.
    + simpl. unfold ControllerNode._handle_get_dag_status.
      destruct (dict_get dag_id _); apply IH.
  - simpl. unfold ControllerNode._scheduler_loop.
    rewrite scheduler_loop_dags. apply IH.
  - simpl. unfold ControllerNode._health_check_loop.
    rewrite remove_dead_dags. apply IH.
Qed.

(** In the controller: a DAG that was submitted with an empty task list
    is never completed, whatever requests and loop passes follow. *)
Lemma empty_submission_never_completed (s : ControllerNode.t) (d : string)
    (D : DAG.t) :
  ControllerNode.reachable s →
  dict_get d (ControllerNode.dags s) = Some D →
  DAG.tasks D = [] →
  DAG.status D ≠ DAG.completed ∧ DAG.completed_at D = None.
Proof.
  intros Hreach HD. apply empty_task_list_inv. by eapply reachable_dags.
Qed.

(** The submission is accepted, and the status request reports the DAG
    pending with zero of zero tasks done. *)
Example empty_submission_reported_pending :
  ∃ dag,
    (ControllerNode._handle_get_dag_status empty_submitted "d0").2
    = Ok (DagReply dag) ∧
    DAG.d_status dag = DAG.pending ∧
    DAG.d_total_tasks dag = 0 ∧ DAG.d_completed_tasks dag = 0 ∧
    DAG.d_completed_at dag = None.
Proof. eexists. split; [reflexivity |]. vm_compute. done. Qed.

(** ** The DAG-level examples, driven by requests *)

(** Submitting the DAG with the doubly declared id queues its first
    declaration, whose dependency ["x"] has no result. *)
Example dup_first_is_enqueued :
  TaskScheduler.task_queue (ControllerNode.scheduler dup_submitted)
  = [set_dag_id dup_first "d1"].
Proof. vm_compute. reflexivity. Qed.

(** A stray result after completion: the DAG stays completed with two
    results for one task. *)
Example stray_result_overfills :
  (λ D, (DAG.status D, size (DAG.task_results D), length (DAG.tasks D)))
    <$> dict_get "d1" (ControllerNode.dags stray_result)
  = Some (DAG.completed, 2, 1).
Proof. vm_compute. reflexivity. Qed.

(** The one-task DAG of the retry scenario after its first result:
    completed at 3, never started. *)
Example single_task_dag_by_requests :
  (λ D, (DAG.status D, DAG.started_at D, DAG.completed_at D))
    <$> dict_get "d1" (ControllerNode.dags retry_failed)
  = Some (DAG.completed, None, Some 3%Z).
Proof. vm_compute. reflexivity. Qed.

(** * Further properties of the code *)

(** ** Length prefixes *)

Lemma int_from_bytes_snoc (data : list Byte.byte) (b : Byte.byte) :
  ControllerNode.int_from_bytes (data ++ [b])
  = (ControllerNode.int_from_bytes data * 256 + Z.of_N (Byte.to_N b))%Z.
Proof. unfold ControllerNode.int_from_bytes. by rewrite fold_left_app. Qed.

Lemma byte_of_to_N (z : Z) :
  (0 ≤ z < 256)%Z →
  Z.of_N (Byte.to_N (default Byte.x00 (Byte.of_N (Z.to_N z)))) = z.
Proof.
  intros Hz. destruct (Byte.of_N (Z.to_N z)) as [b|] eqn:Hb.
  - apply Strings.Byte.to_of_N in Hb. simpl. rewrite Hb. lia.
  - apply Strings.Byte.of_N_None_iff in Hb. lia.
Qed.

Lemma to_bytes_big_length (len : nat) (n : Z) :
  length (to_bytes_big len n) = len.
Proof.
  revert n. induction len as [|len IH]; intros n; simpl; [done |].
  rewrite length_app, IH. simpl. lia.
Qed.

Lemma int_from_to_bytes_big (len : nat) (n : Z) :
  (0 ≤ n)%Z →
  ControllerNode.int_from_bytes (to_bytes_big len n)
  = (n mod 256 ^ Z.of_nat len)%Z.
Proof.
  revert n. induction len as [|len IH]; intros n Hn.
  - simpl. by rewrite Z.mod_1_r.
  - cbn [to_bytes_big]. rewrite int_from_bytes_snoc.
    rewrite IH by (apply Z.div_pos; lia).
    rewrite byte_of_to_N by (apply Z.mod_pos_bound; lia).
    rewrite Nat2Z.inj_succ, Z.pow_succ_r by lia.
    assert (0 < 256 ^ Z.of_nat len)%Z by (apply Z.pow_pos_nonneg; lia).
    rewrite Z.rem_mul_r by lia. lia.
Qed.

Lemma int_from_bytes_bound (data : list Byte.byte) :
  (0 ≤ ControllerNode.int_from_bytes data < 256 ^ Z.of_nat (length data))%Z.
Proof.
  induction data as [|b data IH] using rev_ind.
  { unfold ControllerNode.int_from_bytes. simpl. lia. }
  rewrite int_from_bytes_snoc, length_app. simpl.
  pose proof (Strings.Byte.to_N_bounded b) as Hb.
  replace (Z.of_nat (length data + 1)) with (Z.succ (Z.of_nat (length data)))
    by lia.
  rewrite Z.pow_succ_r by lia. lia.
Qed.

(** X1.  A length prefix written with [to_bytes(4, 'big')] is four bytes
    long and [int.from_bytes(_, 'big')] reads the same number back;
    [to_bytes] overflows exactly for the numbers outside
    [0 .. 2^32 - 1]. *)
Theorem X1_length_prefix_round_trip (n : Z) :
  (∀ length_data, int_to_bytes n 4 = Some length_data →
     length length_data = 4 ∧
     ControllerNode.int_from_bytes length_data = n) ∧
  (int_to_bytes n 4 = None ↔ (n < 0 ∨ 4294967296 ≤ n)%Z).
Proof.
  unfold int_to_bytes. change (256 ^ Z.of_nat 4)%Z with 4294967296%Z. split.
  - intros length_data. case_bool_decide as Hn; [| done].
    intros Heq. assert (length_data = to_bytes_big 4 n) as -> by congruence.
    split; [apply to_bytes_big_length |].
    rewrite int_from_to_bytes_big by lia.
    change (256 ^ Z.of_nat 4)%Z with 4294967296%Z. apply Z.mod_small. lia.
  - case_bool_decide as Hn; split; try done; lia.
Qed.

Lemma X1_length_prefix_round_trip_witness :
  int_to_bytes 16777217 4 = Some oversize_prefix ∧
  length oversize_prefix = 4 ∧
  ControllerNode.int_from_bytes oversize_prefix = 16777217%Z.
Proof.
  assert (Hto : int_to_bytes 16777217 4 = Some oversize_prefix)
    by reflexivity.
  split; [exact Hto |].
  exact (proj1 (X1_length_prefix_round_trip 16777217) oversize_prefix Hto).
Defined.

(** X2.  Whatever bytes arrive as a length prefix, the decoded length is
    between 0 and [256^k - 1] for a prefix of [k] bytes (below [2^32] for
    the four bytes the handler reads), and writing it back with [to_bytes]
    on as many bytes gives the prefix again. *)
Theorem X2_length_prefix_decodes_in_range (length_data : list Byte.byte) :
  (0 ≤ ControllerNode.int_from_bytes length_data
   < 256 ^ Z.of_nat (length length_data))%Z ∧
  int_to_bytes (ControllerNode.int_from_bytes length_data)
               (length length_data)
  = Some length_data.
Proof.
  pose proof (int_from_bytes_bound length_data) as Hbound.
  split; [exact Hbound |].
  unfold int_to_bytes. rewrite bool_decide_eq_true_2 by done. f_equal.
  clear Hbound. induction length_data as [|b data IH] using rev_ind; [done |].
  rewrite length_app, Nat.add_comm. cbn [length to_bytes_big Nat.add].
  rewrite int_from_bytes_snoc.
  pose proof (Strings.Byte.to_N_bounded b) as Hb.
  pose proof (int_from_bytes_bound data) as Hd.
  replace ((ControllerNode.int_from_bytes data * 256
            + Z.of_N (Byte.to_N b)) / 256)%Z
    with (ControllerNode.int_from_bytes data)
    by (apply Z.div_unique with (r := Z.of_N (Byte.to_N b)); lia).
  replace ((ControllerNode.int_from_bytes data * 256
            + Z.of_N (Byte.to_N b)) mod 256)%Z
    with (Z.of_N (Byte.to_N b))
    by (apply Z.mod_unique with (q := ControllerNode.int_from_bytes data); lia).
  rewrite IH, N2Z.id, Strings.Byte.of_to_N. done.
Qed.

(** ** Exact reads from a stream *)

Lemma recv_loop_eq (conn : socket) (n : nat) (data : list Byte.byte) :
  recv_loop conn n data
  = if decide (length data < n) then
      match recv conn (n - length data) with
      | ([], conn') => (None, conn')
      | (packet, conn') => recv_loop conn' n (data ++ packet)
      end
    else (Some data, conn).
Proof.
  funelim (recv_loop conn n data).
  - rewrite decide_False by done. done.
  - rewrite decide_True by done. by rewrite e.
  - rewrite decide_True by done. by rewrite e.
Qed.

(** What the loop returns when the stream holds enough bytes. *)
Lemma recv_loop_enough (conn : socket) (n : nat) (data : list Byte.byte) :
  Forall (λ packet, packet ≠ []) conn →
  length data ≤ n →
  n - length data ≤ length (concat conn) →
  ∃ conn',
    recv_loop conn n data
    = (Some (data ++ take (n - length data) (concat conn)), conn') ∧
    concat conn' = drop (n - length data) (concat conn) ∧
    Forall (λ packet, packet ≠ []) conn'.
Proof.
  revert data. induction conn as [|packet rest IH]; intros data Hne Hle Hlen;
    rewrite recv_loop_eq.
  - simpl in Hlen. rewrite decide_False by lia.
    exists []. replace (n - length data) with 0 by lia.
    by rewrite take_0, app_nil_r.
  - destruct (decide (length data < n)) as [Hlt|Hge].
    + apply Forall_cons in Hne as [Hpacket Hrest]. simpl.
      destruct (decide (length packet ≤ n - length data)) as [Hfit|Hbig].
      * destruct packet as [|b packet]; [done |].
        destruct (IH (data ++ b :: packet)) as (conn' & Hrun & Hcat & Hne').
        { done. }
        { rewrite length_app. simpl in *. lia. }
        { rewrite length_app. simpl in *. rewrite length_app in Hlen. lia. }
        exists conn'. rewrite Hrun.
        replace (n - length (data ++ b :: packet))
          with (n - length data - length (b :: packet)) in *
          by (rewrite length_app; lia).
        rewrite take_app_ge, drop_app_ge by done.
        by rewrite <- app_assoc.
      * destruct (take (n - length data) packet) as [|b front] eqn:Hfront.
        { apply (f_equal length) in Hfront. rewrite length_take in Hfront.
          simpl in Hfront. lia. }
        rewrite recv_loop_eq.
        assert (Hfull : length (data ++ b :: front) = n).
        { rewrite <- Hfront, length_app, length_take. lia. }
        rewrite decide_False by lia.
        exists (drop (n - length data) packet :: rest).
        rewrite take_app_le, drop_app_le by lia. rewrite Hfront.
        split; [done |]. split; [done |].
        apply Forall_cons. split; [| done].
        intros Hnil. apply (f_equal length) in Hnil.
        rewrite length_drop in Hnil. simpl in Hnil. lia.
    + exists (packet :: rest). replace (n - length data) with 0 by lia.
      by rewrite take_0, app_nil_r.
Qed.

(** What it returns when the peer closes too early. *)
Lemma recv_loop_short (conn : socket) (n : nat) (data : list Byte.byte) :
  length data + length (concat conn) < n →
  (recv_loop conn n data).1 = None.
Proof.
  revert data. induction conn as [|packet rest IH]; intros data Hlen;
    rewrite recv_loop_eq; simpl in Hlen.
  - by rewrite decide_True by lia.
  - rewrite length_app in Hlen. rewrite decide_True by lia. simpl.
    rewrite decide_True by lia.
    destruct packet as [|b packet]; [done |].
    apply IH. rewrite length_app. simpl in *. lia.
Qed.

(** X3.  [_recv_exact(conn, n)] returns exactly the first [n] bytes of the
    stream, however the stream is cut into packets, and leaves the rest of
    the stream for the next read; for [n = 0] it returns the empty string
    without reading. *)
Theorem X3_recv_exact_first_n (conn : socket) (n : nat) :
  Forall (λ packet, packet ≠ []) conn →
  n ≤ length (concat conn) →
  ∃ conn',
    _recv_exact conn n = (Some (take n (concat conn)), conn') ∧
    concat conn' = drop n (concat conn) ∧
    Forall (λ packet, packet ≠ []) conn'.
Proof.
  intros Hne Hlen. unfold _recv_exact.
  destruct (recv_loop_enough conn n [] Hne) as (conn' & Hrun & Hcat & Hne');
    simpl; [lia | lia |].
  rewrite Nat.sub_0_r in *. by exists conn'.
Qed.

Lemma X3_recv_exact_first_n_witness :
  ∃ conn',
    _recv_exact [[Byte.x00]; [Byte.x00; Byte.x00];
                 [Byte.x02; Byte.x7b; Byte.x7d; Byte.x00]] 4
    = (Some [Byte.x00; Byte.x00; Byte.x00; Byte.x02], conn') ∧
    concat conn' = [Byte.x7b; Byte.x7d; Byte.x00].
Proof.
  destruct (X3_recv_exact_first_n
              [[Byte.x00]; [Byte.x00; Byte.x00];
               [Byte.x02; Byte.x7b; Byte.x7d; Byte.x00]] 4)
    as (conn' & Hrun & Hcat & _).
  - repeat constructor; discriminate.
  - simpl. lia.
  - exists conn'. split; [exact Hrun | exact Hcat].
Defined.

(** X4.  When the stream ends before [n] bytes have arrived,
    [_recv_exact] returns [None] instead of a short string. *)
Theorem X4_recv_exact_closed_early (conn : socket) (n : nat) :
  length (concat conn) < n → (_recv_exact conn n).1 = None.
Proof. intros Hlen. unfold _recv_exact. by apply recv_loop_short. Qed.

Lemma X4_recv_exact_closed_early_witness :
  (_recv_exact [[Byte.x00]; [Byte.x00; Byte.x00]] 4).1 = None.
Proof. apply X4_recv_exact_closed_early. simpl. lia. Defined.

(** ** Frames *)

Lemma int_to_bytes_spec (n : Z) (len : nat) (length_data : list Byte.byte) :
  int_to_bytes n len = Some length_data →
  length length_data = len ∧ ControllerNode.int_from_bytes length_data = n.
Proof.
  unfold int_to_bytes. case_bool_decide as Hn; [| done].
  intros Heq. assert (length_data = to_bytes_big len n) as -> by congruence.
  split; [apply to_bytes_big_length |].
  rewrite int_from_to_bytes_big by lia. apply Z.mod_small. lia.
Qed.

Lemma recv_exact_enough (conn : socket) (n : nat) :
  Forall (λ packet, packet ≠ []) conn →
  n ≤ length (concat conn) →
  ∃ conn',
    _recv_exact conn n = (Some (take n (concat conn)), conn') ∧
    concat conn' = drop n (concat conn) ∧
    Forall (λ packet, packet ≠ []) conn'.
Proof.
  intros Hne Hlen. unfold _recv_exact.
  destruct (recv_loop_enough conn n [] Hne) as (conn' & Hrun & Hcat & Hne');
    simpl; [lia | lia |].
  rewrite Nat.sub_0_r in *. by exists conn'.
Qed.

(** X5.  A frame composed by a sender ([len(data).to_bytes(4, 'big') +
    data]) is read back whole by the two exact reads of the connection
    handler, however the stream cuts it into packets, and the bytes that
    follow it stay in the stream for the next frame. *)
Theorem X5_frame_round_trip (data framed following : list Byte.byte)
    (conn : socket) :
  frame data = Some framed →
  Forall (λ packet, packet ≠ []) conn →
  concat conn = framed ++ following →
  ∃ conn',
    read_frame conn = (Payload data, conn') ∧
    concat conn' = following ∧
    Forall (λ packet, packet ≠ []) conn'.
Proof.
  unfold frame. intros Hframe Hne Hcat.
  destruct (int_to_bytes (Z.of_nat (length data)) 4) as [length_data|] eqn:Hto;
    [| done].
  simpl in Hframe. assert (framed = length_data ++ data) as -> by congruence.
  apply int_to_bytes_spec in Hto as [Hlen Hfrom].
  rewrite <- app_assoc in Hcat.
  destruct (recv_exact_enough conn 4 Hne) as (conn1 & Hrun1 & Hcat1 & Hne1).
  { rewrite Hcat, length_app. lia. }
  rewrite Hcat in Hrun1, Hcat1.
  rewrite take_app_length' in Hrun1 by done.
  rewrite drop_app_length' in Hcat1 by done.
  destruct (recv_exact_enough conn1 (length data) Hne1)
    as (conn2 & Hrun2 & Hcat2 & Hne2).
  { rewrite Hcat1, length_app. lia. }
  rewrite Hcat1 in Hrun2, Hcat2.
  rewrite take_app_length in Hrun2. rewrite drop_app_length in Hcat2.
  exists conn2. unfold read_frame. rewrite Hrun1, Hfrom, Nat2Z.id, Hrun2.
  done.
Qed.

Lemma X5_frame_round_trip_witness :
  frame [Byte.x7b; Byte.x7d]
  = Some [Byte.x00; Byte.x00; Byte.x00; Byte.x02; Byte.x7b; Byte.x7d] ∧
  ∃ conn',
    read_frame [[Byte.x00]; [Byte.x00; Byte.x00];
                [Byte.x02; Byte.x7b]; [Byte.x7d; Byte.x00]]
    = (Payload [Byte.x7b; Byte.x7d], conn') ∧
    concat conn' = [Byte.x00].
Proof.
  assert (Hframe : frame [Byte.x7b; Byte.x7d]
    = Some [Byte.x00; Byte.x00; Byte.x00; Byte.x02; Byte.x7b; Byte.x7d])
    by reflexivity.
  split; [exact Hframe |].
  destruct (X5_frame_round_trip [Byte.x7b; Byte.x7d] _ [Byte.x00]
              [[Byte.x00]; [Byte.x00; Byte.x00];
               [Byte.x02; Byte.x7b]; [Byte.x7d; Byte.x00]] Hframe)
    as (conn' & Hrun & Hcat & _).
  - repeat constructor; discriminate.
  - reflexivity.
  - exists conn'. split; [exact Hrun | exact Hcat].
Defined.

(** X6.  A stream that ends inside a frame: the handler's reads report the
    end of the stream when the prefix is incomplete, and a missing payload
    when fewer bytes than announced follow the prefix. *)
Theorem X6_frame_cut_short (conn : socket) :
  Forall (λ packet, packet ≠ []) conn →
  (length (concat conn) < 4 → (read_frame conn).1 = StreamEnd) ∧
  (4 ≤ length (concat conn) →
   (length (concat conn) - 4
    < Z.to_nat (ControllerNode.int_from_bytes (take 4 (concat conn)))) →
   (read_frame conn).1 = PayloadCut).
Proof.
  intros Hne. split.
  - intros Hshort. unfold read_frame.
    assert (Hnone : (_recv_exact conn 4).1 = None)
      by (unfold _recv_exact; apply recv_loop_short; simpl; lia).
    destruct (_recv_exact conn 4) as [[length_data|] conn']; [done | done].
  - intros Hprefix Hshort. unfold read_frame.
    destruct (recv_exact_enough conn 4 Hne Hprefix)
      as (conn1 & -> & Hcat1 & _).
    cbv zeta.
    assert (Hnone : (_recv_exact conn1
              (Z.to_nat (ControllerNode.int_from_bytes
                           (take 4 (concat conn))))).1 = None).
    { unfold _recv_exact. apply recv_loop_short.
      rewrite Hcat1, length_drop. simpl. lia. }
    destruct (_recv_exact conn1 _) as [[message_data|] conn2]; done.
Qed.

Lemma X6_frame_cut_short_witness :
  (read_frame [[Byte.x00]; [Byte.x00; Byte.x00]]).1 = StreamEnd ∧
  (read_frame [[Byte.x00; Byte.x00; Byte.x00; Byte.x05; Byte.x7b];
               [Byte.x7d]]).1 = PayloadCut.
Proof.
  split.
  - apply (proj1 (X6_frame_cut_short [[Byte.x00]; [Byte.x00; Byte.x00]]
                    ltac:(repeat constructor; discriminate))).
    simpl. lia.
  - apply (proj2 (X6_frame_cut_short
                    [[Byte.x00; Byte.x00; Byte.x00; Byte.x05; Byte.x7b];
                     [Byte.x7d]]
                    ltac:(repeat constructor; discriminate))).
    + simpl. lia.
    + vm_compute. lia.
Defined.

(** ** The scheduler in reachable states *)

(** X7.  In every state the controller can reach: no task id is both
    pending and running; the ready queue holds each id at most once;
    [pending_tasks] maps exactly the ids of the queued descriptors to those
    descriptors; and every [running_tasks] entry is keyed by the id of the
    descriptor it holds. *)
Theorem X7_scheduler_tables_agree (s : ControllerNode.t) :
  ControllerNode.reachable s →
  let sched := ControllerNode.scheduler s in
  (∀ k, ¬ (is_Some (TaskScheduler.pending_tasks sched !! k) ∧
           is_Some (dict_get k (TaskScheduler.running_tasks sched)))) ∧
  NoDup (map t_id (TaskScheduler.task_queue sched)) ∧
  (∀ k t, TaskScheduler.pending_tasks sched !! k = Some t ↔
          t ∈ TaskScheduler.task_queue sched ∧ t_id t = k) ∧
  (∀ k info, dict_get k (TaskScheduler.running_tasks sched) = Some info →
             t_id (TaskScheduler.task info) = k).
Proof.
  intros Hreach. simpl.
  destruct (reachable_sched_inv s Hreach) as [Hnd Hpq Hqp Hsingle Hkey].
  split_and!.
  - intros k [Hp [info Hr]]. apply Hsingle in Hp. congruence.
  - done.
  - intros k t. split.
    + intros Hk. assert (Hin : k ∈ map t_id
        (TaskScheduler.task_queue (ControllerNode.scheduler s)))
        by (apply Hpq; eauto).
      apply list_elem_of_fmap in Hin as (t' & -> & Hin).
      pose proof (Hqp t' Hin) as Hk'. by assert (t = t') as -> by congruence.
    + intros [Hin <-]. by apply Hqp.
  - intros k info Hget. by apply Hkey, dict_get_elem.
Qed.

Lemma X7_scheduler_tables_agree_witness :
  ControllerNode.reachable two_in_flight ∧
  ∀ k, ¬ (is_Some (TaskScheduler.pending_tasks
                     (ControllerNode.scheduler two_in_flight) !! k) ∧
          is_Some (dict_get k (TaskScheduler.running_tasks
                                 (ControllerNode.scheduler two_in_flight)))).
Proof.
  assert (Hreach : ControllerNode.reachable two_in_flight)
    by apply reachable_run, ControllerNode.reachable_init.
  split; [exact Hreach |].
  exact (proj1 (X7_scheduler_tables_agree two_in_flight Hreach)).
Defined.

(** *** What one evaluation of a DAG appends *)

Lemma held_add_task (s : TaskScheduler.t) (task : Task) (dag_id k : string) :
  held (TaskScheduler.add_task s task dag_id) k ↔ held s k ∨ k = t_id task.
Proof.
  unfold held, TaskScheduler.add_task. simpl.
  rewrite lookup_insert_is_Some. split.
  - intros [[Heq|[_ Hp]]|Hr]; [by right | left; by left | left; by right].
  - intros [[Hp|Hr]| ->]; [| by right | left; by left].
    left. destruct (decide (t_id task = k)); [by left | by right].
Qed.

Lemma enqueue_if_new_cases (dag_id : string) (s : TaskScheduler.t)
    (task : Task) :
  (held s (t_id task) ∧ ControllerNode.enqueue_if_new dag_id s task = s) ∨
  (¬ held s (t_id task) ∧
   ControllerNode.enqueue_if_new dag_id s task
   = TaskScheduler.add_task s task dag_id).
Proof.
  unfold ControllerNode.enqueue_if_new, held.
  destruct (key_in _ _) eqn:Hp; simpl.
  { left. split; [| done]. left. by apply key_in_true. }
  destruct (dict_in _ _) eqn:Hr; simpl.
  { left. split; [| done]. right. by apply dict_in_true. }
  right. split; [| done]. apply key_in_false in Hp. apply dict_in_false in Hr.
  intros [[x Hx]|[x Hx]]; congruence.
Qed.

(** The descriptors appended are a selection of the ready tasks, each with
    an id the scheduler did not hold and no id twice; afterwards the
    scheduler holds what it held and the ids of all ready tasks. *)
Lemma enqueue_all_spec (dag_id : string) (ready : list Task)
    (s : TaskScheduler.t) :
  let s' := foldl (ControllerNode.enqueue_if_new dag_id) s ready in
  ∃ added,
    added `sublist_of` ready ∧
    TaskScheduler.task_queue s'
    = TaskScheduler.task_queue s ++ map (λ t, set_dag_id t dag_id) added ∧
    Forall (λ t, ¬ held s (t_id t)) added ∧
    NoDup (map t_id added) ∧
    TaskScheduler.running_tasks s' = TaskScheduler.running_tasks s ∧
    (∀ k, held s' k ↔ held s k ∨ k ∈ map t_id ready).
Proof.
  revert s. induction ready as [|task ready IH]; intros s; simpl.
  - exists []. rewrite app_nil_r.
    split_and!; [done | done | constructor | constructor | done |].
    intros k. split; [by left |]. by intros [?|?%elem_of_nil].
  - destruct (enqueue_if_new_cases dag_id s task) as [[Hheld ->]|[Hnew ->]].
    + destruct (IH s) as (added & Hsub & Hq & Hfresh & Hnd & Hrun & Hheld').
      exists added. split_and!; try done; [by apply sublist_cons |].
      intros k. rewrite Hheld', elem_of_cons. split; [tauto |].
      intros [?|[->|?]]; tauto.
    + destruct (IH (TaskScheduler.add_task s task dag_id))
        as (added & Hsub & Hq & Hfresh & Hnd & Hrun & Hheld').
      exists (task :: added). simpl in *.
      rewrite Hq, <- app_assoc. split_and!; try done.
      * by apply sublist_skip.
      * constructor; [done |]. eapply Forall_impl; [exact Hfresh |].
        intros t Ht Hs. apply Ht, held_add_task. by left.
      * constructor; [| done]. intros Hin.
        apply list_elem_of_fmap in Hin as (t & Heq & Hin).
        rewrite Forall_forall in Hfresh. apply (Hfresh t Hin).
        apply held_add_task. by right.
      * intros k. rewrite Hheld', held_add_task, elem_of_cons. tauto.
Qed.

(** X8.  Evaluating a DAG appends to the ready queue only descriptors of
    tasks of that DAG that have no result yet and whose recorded
    dependencies all have one, stamped with the DAG's id, each under an id
    the scheduler did not hold and no id twice; [in_flight] is not
    touched. *)
Theorem X8_only_ready_tasks_enqueued (s : ControllerNode.t) (dag_id : string)
    (D : DAG.t) :
  dict_get dag_id (ControllerNode.dags s) = Some D →
  let s' := ControllerNode._schedule_dag_tasks s dag_id in
  ∃ added,
    TaskScheduler.task_queue (ControllerNode.scheduler s')
    = TaskScheduler.task_queue (ControllerNode.scheduler s)
      ++ map (λ t, set_dag_id t dag_id) added ∧
    Forall (λ t,
              t ∈ DAG.tasks D ∧
              DAG.task_results D !! t_id t = None ∧
              (∀ dep, dep ∈ default [] (DAG.task_dependencies D !! t_id t) →
                      is_Some (DAG.task_results D !! dep)) ∧
              ¬ held (ControllerNode.scheduler s) (t_id t)) added ∧
    NoDup (map t_id added) ∧
    TaskScheduler.running_tasks (ControllerNode.scheduler s')
    = TaskScheduler.running_tasks (ControllerNode.scheduler s).
Proof.
  intros HD. simpl. unfold ControllerNode._schedule_dag_tasks. rewrite HD.
  destruct (enqueue_all_spec dag_id (DAG.get_ready_tasks D)
              (ControllerNode.scheduler s))
    as (added & Hsub & Hq & Hfresh & Hnd & Hrun & _).
  exists added. simpl. split_and!; try done.
  rewrite Forall_forall in *. intros t Hin.
  assert (Hready : t ∈ DAG.get_ready_tasks D)
    by (eapply elem_of_sublist; eauto).
  rewrite get_ready_tasks_filter in Hready.
  apply list_elem_of_filter in Hready as [Hready Htask].
  apply is_ready_true in Hready as [Hnone Hdeps].
  split_and!; try done. by apply Hfresh.
Qed.

Lemma X8_only_ready_tasks_enqueued_witness :
  let D := DAG.__init__ "d2" "second" [task_of "t" None] 2 in
  dict_get "d2" (ControllerNode.dags second_unblocked) = Some D ∧
  ∃ added,
    added ≠ [] ∧
    TaskScheduler.task_queue
      (ControllerNode.scheduler
         (ControllerNode._schedule_dag_tasks second_unblocked "d2"))
    = TaskScheduler.task_queue (ControllerNode.scheduler second_unblocked)
      ++ map (λ t, set_dag_id t "d2") added ∧
    Forall (λ t,
              t ∈ DAG.tasks D ∧
              DAG.task_results D !! t_id t = None ∧
              (∀ dep, dep ∈ default [] (DAG.task_dependencies D !! t_id t) →
                      is_Some (DAG.task_results D !! dep)) ∧
              ¬ held (ControllerNode.scheduler second_unblocked) (t_id t))
           added ∧
    NoDup (map t_id added).
Proof.
  intros D.
  assert (HD : dict_get "d2" (ControllerNode.dags second_unblocked) = Some D)
    by (vm_compute; reflexivity).
  split; [exact HD |].
  destruct (X8_only_ready_tasks_enqueued second_unblocked "d2" D HD)
    as (added & Hq & Hfresh & Hnd & _).
  exists added. split_and!; try done.
  intros ->. vm_compute in Hq. discriminate.
Defined.

(** What that evaluation appends: the second DAG's ["t"], stamped with the
    second DAG's id, to a queue that was empty. *)
Example second_dag_is_enqueued :
  TaskScheduler.task_queue (ControllerNode.scheduler second_unblocked) = [] ∧
  TaskScheduler.task_queue
    (ControllerNode.scheduler
       (ControllerNode._schedule_dag_tasks second_unblocked "d2"))
  = [set_dag_id (task_of "t" None) "d2"].
Proof. vm_compute. done. Qed.

(** *** Evaluating again *)

Lemma enqueue_all_noop (dag_id : string) (ready : list Task)
    (s : TaskScheduler.t) :
  (∀ t, t ∈ ready → held s (t_id t)) →
  foldl (ControllerNode.enqueue_if_new dag_id) s ready = s.
Proof.
  induction ready as [|task ready IH]; intros Hheld; simpl; [done |].
  destruct (enqueue_if_new_cases dag_id s task) as [[_ ->]|[Hnew _]].
  - apply IH. intros t Ht. apply Hheld. by right.
  - destruct Hnew. apply Hheld. left.
Qed.

Lemma schedule_dag_tasks_noop (s : ControllerNode.t) (d : string) :
  covered s d → ControllerNode._schedule_dag_tasks s d = s.
Proof.
  intros Hcov. unfold ControllerNode._schedule_dag_tasks.
  destruct (dict_get d (ControllerNode.dags s)) as [D|] eqn:HD; [| done].
  rewrite enqueue_all_noop by (by apply Hcov). by destruct s.
Qed.

Lemma schedule_dag_tasks_held (s : ControllerNode.t) (d k : string) :
  held (ControllerNode.scheduler s) k →
  held (ControllerNode.scheduler (ControllerNode._schedule_dag_tasks s d)) k.
Proof.
  intros Hheld. unfold ControllerNode._schedule_dag_tasks.
  destruct (dict_get d (ControllerNode.dags s)) as [D|]; [| done]. simpl.
  destruct (enqueue_all_spec d (DAG.get_ready_tasks D)
              (ControllerNode.scheduler s)) as (_ & _ & _ & _ & _ & _ & Hiff).
  apply Hiff. by left.
Qed.

Lemma schedule_dag_tasks_covers (s : ControllerNode.t) (d : string) :
  covered (ControllerNode._schedule_dag_tasks s d) d.
Proof.
  intros D. rewrite schedule_dag_tasks_dags. intros HD t Ht.
  unfold ControllerNode._schedule_dag_tasks. rewrite HD. simpl.
  destruct (enqueue_all_spec d (DAG.get_ready_tasks D)
              (ControllerNode.scheduler s)) as (_ & _ & _ & _ & _ & _ & Hiff).
  apply Hiff. right. by apply (list_elem_of_fmap_2 t_id).
Qed.

Lemma covered_schedule_dag_tasks (s : ControllerNode.t) (d d' : string) :
  covered s d → covered (ControllerNode._schedule_dag_tasks s d') d.
Proof.
  intros Hcov D. rewrite schedule_dag_tasks_dags. intros HD t Ht.
  by apply schedule_dag_tasks_held, (Hcov D).
Qed.

Lemma covered_schedule_all (dag_ids : list string) (s : ControllerNode.t)
    (d : string) :
  covered s d ∨ d ∈ dag_ids →
  covered (foldl ControllerNode._schedule_dag_tasks s dag_ids) d.
Proof.
  revert s. induction dag_ids as [|d' dag_ids IH]; intros s Hd; simpl.
  - destruct Hd as [Hd|Hd]; [done | by apply elem_of_nil in Hd].
  - apply IH. destruct Hd as [Hd|[->|Hd]%elem_of_cons].
    + left. by apply covered_schedule_dag_tasks.
    + left. apply schedule_dag_tasks_covers.
    + by right.
Qed.

Lemma schedule_all_noop (dag_ids : list string) (s : ControllerNode.t) :
  (∀ d, d ∈ dag_ids → covered s d) →
  foldl ControllerNode._schedule_dag_tasks s dag_ids = s.
Proof.
  induction dag_ids as [|d dag_ids IH]; intros Hcov; simpl; [done |].
  rewrite schedule_dag_tasks_noop by (apply Hcov; left).
  apply IH. intros d' Hd'. apply Hcov. by right.
Qed.

(** X9.  Evaluation is idempotent: evaluating a DAG a second time, or
    running a second pass of the scheduler loop, with nothing in between,
    changes nothing, so no task is enqueued twice by re-evaluation. *)
Theorem X9_evaluation_idempotent (s : ControllerNode.t) (dag_id : string) :
  ControllerNode._schedule_dag_tasks
    (ControllerNode._schedule_dag_tasks s dag_id) dag_id
  = ControllerNode._schedule_dag_tasks s dag_id ∧
  ControllerNode._scheduler_loop (ControllerNode._scheduler_loop s)
  = ControllerNode._scheduler_loop s.
Proof.
  split.
  - apply schedule_dag_tasks_noop, schedule_dag_tasks_covers.
  - unfold ControllerNode._scheduler_loop at 1.
    apply schedule_all_noop. intros d Hd.
    unfold ControllerNode._scheduler_loop in *.
    rewrite scheduler_loop_dags in Hd.
    apply covered_schedule_all. by right.
Qed.

(** ** The Workers table and the reaper *)

Section pydict_keys.
Context {V : Type}.
Implicit Types (d : pydict V) (k : string) (v : V).

Lemma dict_get_None_keys k d : dict_get k d = None ↔ k ∉ dict_keys d.
Proof.
  unfold dict_keys. induction d as [|[k' v'] d IH]; simpl.
  - split; [intros _ ?%elem_of_nil; done | done].
  - rewrite not_elem_of_cons. destruct (decide (k = k')) as [->|Hne].
    + split; [done | by intros [? _]].
    + rewrite IH. tauto.
Qed.

Lemma dict_set_keys_nodup k v d :
  NoDup (dict_keys d) → NoDup (dict_keys (dict_set k v d)).
Proof.
  unfold dict_keys. induction d as [|[k' v'] d IH]; simpl.
  - intros _. apply NoDup_singleton.
  - intros [Hnotin Hnd]%NoDup_cons.
    destruct (decide (k = k')) as [->|Hne]; simpl;
      apply NoDup_cons; split; try done; [| by apply IH].
    intros Hin. apply list_elem_of_fmap in Hin as ([k0 v0] & Heq & Hin).
    simpl in Heq. subst k0.
    apply dict_set_elem in Hin as [[= -> _]|Hin]; [done |].
    apply Hnotin. by apply (list_elem_of_fmap_2 fst) in Hin.
Qed.

Lemma dict_del_filter k (l : list (string * V)) :
  dict_del k l = filter (λ kv, kv.1 ≠ k) l.
Proof.
  induction l as [|[k' v'] l IH]; [done |]. cbn [dict_del].
  destruct (decide (k = k')) as [->|Hne].
  - by rewrite filter_cons_False by (simpl; tauto).
  - rewrite filter_cons_True by (simpl; congruence). by rewrite IH.
Qed.

Lemma dict_del_keys_nodup k d :
  NoDup (dict_keys d) → NoDup (dict_keys (dict_del k d)).
Proof.
  unfold dict_keys. induction d as [|[k' v'] d IH]; simpl; [done |].
  intros [Hnotin Hnd]%NoDup_cons.
  destruct (decide (k = k')); [by apply IH |]. simpl.
  apply NoDup_cons. split; [| by apply IH].
  intros Hin. apply list_elem_of_fmap in Hin as ([k0 v0] & Heq & Hin).
  simpl in Heq. subst k0. apply dict_del_elem in Hin.
  apply Hnotin. by apply (list_elem_of_fmap_2 fst) in Hin.
Qed.

Lemma dict_elem_get_nodup k v d :
  NoDup (dict_keys d) → (k, v) ∈ d → dict_get k d = Some v.
Proof.
  unfold dict_keys. induction d as [|[k' v'] d IH]; simpl.
  - by intros _ ?%elem_of_nil.
  - intros [Hnotin Hnd]%NoDup_cons [[= <- <-]|Hin]%elem_of_cons.
    + by rewrite decide_True.
    + rewrite decide_False; [by apply IH |].
      intros ->. apply Hnotin. by apply (list_elem_of_fmap_2 fst) in Hin.
Qed.
End pydict_keys.

Lemma filter_ext_in {A : Type} (P1 P2 : A → Prop)
    `{!∀ x, Decision (P1 x), !∀ x, Decision (P2 x)} (l : list A) :
  (∀ x, x ∈ l → P1 x ↔ P2 x) → filter P1 l = filter P2 l.
Proof.
  induction l as [|a l IH]; intros Hiff; [done |].
  assert (Ha : P1 a ↔ P2 a) by (apply Hiff; left).
  assert (Hl : filter P1 l = filter P2 l).
  { apply IH. intros x Hx. apply Hiff. by right. }
  destruct (decide (P1 a)).
  - rewrite !filter_cons_True by tauto. by rewrite Hl.
  - rewrite !filter_cons_False by tauto. done.
Qed.

(** Registered ids are unique, as the keys of a dict are. *)
Lemma nodes_nodup_process_message (s : ControllerNode.t) (m : message)
    (conn : nat) (addr : string * Z) (now : Z) (uuid : string) :
  NoDup (dict_keys (ControllerNode.nodes s)) →
  NoDup (dict_keys (ControllerNode.nodes
           (ControllerNode._process_message s m conn addr now uuid).1)).
Proof.
  intros Hnd.
  destruct m as [node_id ram|node_id|node_id|node_id task_id result
                |name tasks| |dag_id|msg_type]; simpl; try done.
  - by apply dict_set_keys_nodup.
  - unfold ControllerNode._handle_heartbeat.
    destruct (dict_get node_id _); [by apply dict_set_keys_nodup | done].
  - unfold ControllerNode._handle_get_task.
    destruct (TaskScheduler.get_next_task _ _ _) as [sched [[task|]|x]];
      simpl; try done.
    destruct (dict_get node_id _); [by apply dict_set_keys_nodup | done].
  - unfold ControllerNode._handle_task_result.
    destruct (truthy_str (r_dag_id result)); simpl;
      rewrite ?schedule_dag_tasks_nodes; simpl;
      (destruct (dict_get node_id _); [by apply dict_set_keys_nodup | done]).
  - unfold ControllerNode._handle_submit_dag. simpl.
    by rewrite schedule_dag_tasks_nodes.
  - unfold ControllerNode._handle_get_dag_status.
    by destruct (dict_get dag_id _).
Qed.

Lemma scheduler_loop_nodes (dag_ids : list string) (s : ControllerNode.t) :
  ControllerNode.nodes (foldl ControllerNode._schedule_dag_tasks s dag_ids)
  = ControllerNode.nodes s.
Proof.
  revert s. induction dag_ids as [|d dag_ids IH]; intros s; simpl; [done |].
  by rewrite IH, schedule_dag_tasks_nodes.
Qed.

Lemma remove_dead_nodes_nodup (dead_nodes : list string)
    (s : ControllerNode.t) :
  NoDup (dict_keys (ControllerNode.nodes s)) →
  NoDup (dict_keys (ControllerNode.nodes
                      (ControllerNode.remove_dead dead_nodes s).1)).
Proof.
  revert s. induction dead_nodes as [|w dead_nodes IH]; intros s Hnd; simpl;
    [done |].
  destruct (dict_in w (ControllerNode.nodes s)); [| by apply IH].
  destruct (ControllerNode.requeue_loop _ _ _ _) as [sched [[]|e]]; simpl;
    [| done].
  apply IH. simpl. by apply dict_del_keys_nodup.
Qed.

Lemma reachable_nodes_nodup (s : ControllerNode.t) :
  ControllerNode.reachable s → NoDup (dict_keys (ControllerNode.nodes s)).
Proof.
  induction 1 as [|e s _ IH]; [constructor |].
  destruct e as [m conn addr rd| |now]; simpl.
  - by apply nodes_nodup_process_message.
  - unfold ControllerNode._scheduler_loop. by rewrite scheduler_loop_nodes.
  - by apply remove_dead_nodes_nodup.
Qed.

(** The pass leaves alone every id that is not in its list. *)
Lemma remove_dead_nodes_other (dead_nodes : list string)
    (s : ControllerNode.t) (k : string) :
  k ∉ dead_nodes →
  dict_get k (ControllerNode.nodes (ControllerNode.remove_dead dead_nodes s).1)
  = dict_get k (ControllerNode.nodes s).
Proof.
  revert s. induction dead_nodes as [|w dead_nodes IH]; intros s Hk; simpl;
    [done |].
  apply not_elem_of_cons in Hk as [Hne Hk].
  destruct (dict_in w (ControllerNode.nodes s)); [| by apply IH].
  destruct (ControllerNode.requeue_loop _ _ _ _) as [sched [[]|e]]; simpl;
    [| done].
  rewrite IH by done. simpl. by rewrite dict_get_del_ne.
Qed.

Lemma alive_not_listed_dead (nodes : pydict Node.t) (w : string)
    (node : Node.t) (now : Z) :
  NoDup (dict_keys nodes) →
  dict_get w nodes = Some node →
  Node.is_alive node now = true →
  w ∉ omap (λ kv : string * Node.t,
              if Node.is_alive kv.2 now then None else Some kv.1) nodes.
Proof.
  intros Hnd Hget Halive Hin.
  apply list_elem_of_omap in Hin as ([k node'] & Hin & Hdead). simpl in Hdead.
  destruct (Node.is_alive node' now) eqn:Halive'; [done |].
  assert (k = w) as -> by congruence.
  apply (dict_elem_get_nodup _ _ _ Hnd) in Hin. congruence.
Qed.

(** X10.  The reaper never removes a live worker: in every reachable
    state, a registered worker whose heartbeat is less than 60 seconds old
    is still registered, with its record unchanged, after a reaper pass,
    whether the pass ends normally or is cut short by an exception. *)
Theorem X10_reaper_spares_live_workers (s : ControllerNode.t) (w : string)
    (node : Node.t) (now : Z) :
  ControllerNode.reachable s →
  dict_get w (ControllerNode.nodes s) = Some node →
  (now - Node.last_heartbeat node < 60)%Z →
  dict_get w (ControllerNode.nodes (ControllerNode._health_check_loop s now).1)
  = Some node.
Proof.
  intros Hreach Hget Hfresh. unfold ControllerNode._health_check_loop.
  rewrite remove_dead_nodes_other; [done |].
  apply (alive_not_listed_dead _ w node now); [| done |].
  - by apply reachable_nodes_nodup.
  - unfold Node.is_alive. by apply bool_decide_eq_true_2.
Qed.

Lemma X10_reaper_spares_live_workers_witness :
  ControllerNode.reachable two_in_flight ∧
  ∃ node,
    dict_get "w1" (ControllerNode.nodes two_in_flight) = Some node ∧
    dict_get "w1"
      (ControllerNode.nodes
         (ControllerNode._health_check_loop two_in_flight 59).1)
    = Some node.
Proof.
  assert (Hreach : ControllerNode.reachable two_in_flight)
    by apply reachable_run, ControllerNode.reachable_init.
  split; [exact Hreach |].
  destruct (dict_get "w1" (ControllerNode.nodes two_in_flight))
    as [node|] eqn:Hget; [| vm_compute in Hget; discriminate].
  exists node. split; [reflexivity |].
  apply (X10_reaper_spares_live_workers two_in_flight "w1" node 59 Hreach Hget).
  vm_compute in Hget. injection Hget as <-. vm_compute. reflexivity.
Defined.

Lemma dict_del_absent {V : Type} (k : string) (d : pydict V) :
  dict_get k d = None → dict_del k d = d.
Proof.
  induction d as [|[k' v'] d IH]; simpl; [done |].
  destruct (decide (k = k')); [done |]. intros Hnone. by rewrite IH.
Qed.

Lemma filter_all {A : Type} (P : A → Prop) `{!∀ x, Decision (P x)}
    (l : list A) :
  (∀ x, x ∈ l → P x) → filter P l = l.
Proof.
  induction l as [|a l IH]; intros Hall; [done |].
  rewrite filter_cons_True by (apply Hall; left). f_equal.
  apply IH. intros x Hx. apply Hall. by right.
Qed.

(** A pass over workers none of which has anything in flight removes them
    all and touches nothing else. *)
Lemma remove_dead_all_idle (dead_nodes : list string) (s : ControllerNode.t) :
  (∀ w, w ∈ dead_nodes →
     Forall (λ kv, TaskScheduler.node_id kv.2 ≠ w)
            (TaskScheduler.running_tasks (ControllerNode.scheduler s))) →
  ControllerNode.remove_dead dead_nodes s
  = (ControllerNode.mk
       (filter (λ kv, kv.1 ∉ dead_nodes)
               (ControllerNode.nodes s : list (string * Node.t)))
       (ControllerNode.dags s) (ControllerNode.scheduler s),
     Ok ()).
Proof.
  revert s. induction dead_nodes as [|w dead_nodes IH]; intros s Hidle.
  - simpl. destruct s as [nodes dags sched]. simpl. do 2 f_equal.
    symmetry. apply filter_all. intros kv _. apply not_elem_of_nil.
  - cbn [ControllerNode.remove_dead].
    assert (Hrest : ∀ w', w' ∈ dead_nodes →
              Forall (λ kv, TaskScheduler.node_id kv.2 ≠ w')
                (TaskScheduler.running_tasks (ControllerNode.scheduler s))).
    { intros w' Hw'. apply Hidle. by right. }
    destruct (dict_in w (ControllerNode.nodes s)) eqn:Hin.
    + destruct (requeue_loop_cases w
                  (TaskScheduler.running_tasks (ControllerNode.scheduler s))
                  (ControllerNode.scheduler s))
        as [[_ ->]|(before & k & info & after & Heq & _ & Hmatch & _)];
        [done | |].
      * rewrite IH by done. simpl. do 2 f_equal.
        rewrite dict_del_filter, list_filter_filter.
        apply list_filter_iff. intros kv. rewrite not_elem_of_cons. tauto.
      * assert (Hw : Forall (λ kv, TaskScheduler.node_id kv.2 ≠ w)
                  (TaskScheduler.running_tasks (ControllerNode.scheduler s)))
          by (apply Hidle; left).
        rewrite Heq in Hw. apply Forall_app in Hw as [_ Hw].
        apply Forall_cons in Hw as [Hne _]. done.
    + rewrite IH by done. do 2 f_equal.
      apply dict_in_false in Hin. apply filter_ext_in. intros kv Hkv.
      rewrite not_elem_of_cons. split; [| tauto]. intros Hnot.
      split; [| done]. intros Heq. destruct kv as [k v]. simpl in Heq.
      subst k. apply dict_elem_get in Hkv as [? Hkv]. congruence.
Qed.

(** X11.  When no in-flight entry belongs to a registered worker that is
    dead, a reaper pass ends normally, removes exactly the workers whose
    heartbeat is 60 seconds old or older, keeps the others in their order,
    and leaves the DAGs and the scheduler as they were. *)
Theorem X11_reaper_removes_idle_dead_workers (s : ControllerNode.t)
    (now : Z) :
  ControllerNode.reachable s →
  (∀ k info node,
     (k, info) ∈ TaskScheduler.running_tasks (ControllerNode.scheduler s) →
     dict_get (TaskScheduler.node_id info) (ControllerNode.nodes s)
     = Some node →
     (now - Node.last_heartbeat node < 60)%Z) →
  ControllerNode._health_check_loop s now
  = (ControllerNode.mk
       (filter (λ kv, (now - Node.last_heartbeat kv.2 < 60)%Z)
               (ControllerNode.nodes s : list (string * Node.t)))
       (ControllerNode.dags s) (ControllerNode.scheduler s),
     Ok ()).
Proof.
  intros Hreach Hbusy. pose proof (reachable_nodes_nodup s Hreach) as Hnd.
  unfold ControllerNode._health_check_loop.
  rewrite remove_dead_all_idle.
  - do 2 f_equal. apply filter_ext_in. intros [w node] Hin. simpl. split.
    + intros Hnot. destruct (decide (now - Node.last_heartbeat node < 60)%Z)
        as [Hlt|Hge]; [done |].
      destruct Hnot. apply list_elem_of_omap. exists (w, node).
      split; [done |]. simpl. unfold Node.is_alive.
      by rewrite bool_decide_eq_false_2.
    + intros Hfresh.
      apply (alive_not_listed_dead _ w node now Hnd).
      * by apply dict_elem_get_nodup.
      * unfold Node.is_alive. by apply bool_decide_eq_true_2.
  - intros w Hw. apply list_elem_of_omap in Hw as ([w' node] & Hin & Hdead).
    simpl in Hdead. unfold Node.is_alive in Hdead.
    case_bool_decide as Hage; [done |]. assert (w' = w) as -> by congruence.
    apply Forall_forall. intros [k info] Hflight Hmatch. simpl in Hmatch.
    apply Hage, (Hbusy k info node Hflight). rewrite Hmatch.
    by apply dict_elem_get_nodup.
Qed.

Lemma X11_reaper_removes_idle_dead_workers_witness :
  ControllerNode._health_check_loop
    (ControllerNode.run [from_worker (register_node "w1" (Some 128%Z)) 0;
                         from_worker (register_node "w2" (Some 128%Z)) 50]
                        ControllerNode.__init__) 90
  = (ControllerNode.mk
       [("w2", Node.__init__ "w2" worker_conn worker_addr 128 50)] []
       TaskScheduler.__init__,
     Ok ()).
Proof.
  rewrite X11_reaper_removes_idle_dead_workers.
  - vm_compute. reflexivity.
  - apply reachable_run, ControllerNode.reachable_init.
  - intros k info node Hin. vm_compute in Hin. by apply elem_of_nil in Hin.
Defined.

(** X12.  A heartbeat keeps a worker: after a registered worker's
    heartbeat is handled at time [t] (and answered with success), a reaper
    pass at any time before [t + 60] leaves the worker registered. *)
Theorem X12_heartbeat_keeps_worker (s : ControllerNode.t) (w : string)
    (t now : Z) :
  ControllerNode.reachable s →
  is_Some (dict_get w (ControllerNode.nodes s)) →
  (now - t < 60)%Z →
  (ControllerNode._handle_heartbeat s w t).2 = Ok Success ∧
  is_Some (dict_get w
             (ControllerNode.nodes
                (ControllerNode._health_check_loop
                   (ControllerNode._handle_heartbeat s w t).1 now).1)).
Proof.
  intros Hreach [node Hget] Hfresh.
  pose proof (reachable_nodes_nodup s Hreach) as Hnd.
  unfold ControllerNode._handle_heartbeat. rewrite Hget. simpl.
  split; [done |]. unfold ControllerNode._health_check_loop. simpl.
  rewrite remove_dead_nodes_other; simpl.
  - rewrite dict_get_set_eq. eauto.
  - apply (alive_not_listed_dead _ w (Node.update_heartbeat node t) now).
    + by apply dict_set_keys_nodup.
    + apply dict_get_set_eq.
    + unfold Node.is_alive. simpl. by apply bool_decide_eq_true_2.
Qed.

Lemma X12_heartbeat_keeps_worker_witness :
  ControllerNode.reachable two_in_flight ∧
  is_Some (dict_get "w1"
             (ControllerNode.nodes
                (ControllerNode._health_check_loop
                   (ControllerNode._handle_heartbeat two_in_flight "w1" 40).1
                   90).1)).
Proof.
  assert (Hreach : ControllerNode.reachable two_in_flight)
    by apply reachable_run, ControllerNode.reachable_init.
  split; [exact Hreach |].
  apply (X12_heartbeat_keeps_worker two_in_flight "w1" 40 90 Hreach).
  - vm_compute. eauto.
  - lia.
Defined.

(** ** What requests never remove *)

Lemma process_message_keeps_nodes (s : ControllerNode.t) (m : message)
    (conn : nat) (addr : string * Z) (now : Z) (uuid w : string) :
  is_Some (dict_get w (ControllerNode.nodes s)) →
  is_Some (dict_get w (ControllerNode.nodes
             (ControllerNode._process_message s m conn addr now uuid).1)).
Proof.
  intros Hw.
  assert (Hset : ∀ k v, is_Some (dict_get w (dict_set k v
                                               (ControllerNode.nodes s)))).
  { intros k v. rewrite dict_get_set. destruct (decide (k = w)); eauto. }
  destruct m as [node_id ram|node_id|node_id|node_id task_id result
                |name tasks| |dag_id|msg_type]; simpl.
  - apply Hset.
  - unfold ControllerNode._handle_heartbeat.
    destruct (dict_get node_id _); [apply Hset | done].
  - unfold ControllerNode._handle_get_task.
    destruct (TaskScheduler.get_next_task _ _ _) as [sched [[task|]|x]];
      simpl; try done.
    destruct (dict_get node_id _); [apply Hset | done].
  - unfold ControllerNode._handle_task_result.
    destruct (truthy_str (r_dag_id result)); simpl;
      rewrite ?schedule_dag_tasks_nodes; simpl;
      (destruct (dict_get node_id _); [apply Hset | done]).
  - unfold ControllerNode._handle_submit_dag. simpl.
    by rewrite schedule_dag_tasks_nodes.
  - done.
  - unfold ControllerNode._handle_get_dag_status.
    by destruct (dict_get dag_id _).
  - done.
Qed.

(** X13.  No request and no pass of the scheduler loop removes a worker
    from the Workers table: a registered id stays registered whatever
    message is processed (only the reaper deletes workers). *)
Theorem X13_requests_never_evict (s : ControllerNode.t) (w : string) :
  is_Some (dict_get w (ControllerNode.nodes s)) →
  (∀ m conn addr now uuid,
     is_Some (dict_get w (ControllerNode.nodes
                (ControllerNode._process_message s m conn addr now uuid).1))) ∧
  is_Some (dict_get w (ControllerNode.nodes (ControllerNode._scheduler_loop s))).
Proof.
  intros Hw. split.
  - intros m conn addr now uuid. by apply process_message_keeps_nodes.
  - unfold ControllerNode._scheduler_loop. by rewrite scheduler_loop_nodes.
Qed.

Lemma X13_requests_never_evict_witness :
  is_Some (dict_get "w1"
             (ControllerNode.nodes
                (ControllerNode._process_message two_in_flight
                   (register_node "w2" None) worker_conn worker_addr 9 "").1)).
Proof.
  apply (proj1 (X13_requests_never_evict two_in_flight "w1"
                  ltac:(vm_compute; eauto))).
Defined.

(** X14.  The DAGs table only grows: no request, scheduler pass or reaper
    pass removes a DAG, so a submitted [dag_id] can be queried for the
    rest of the run. *)
Theorem X14_dags_never_removed (e : ControllerNode.event)
    (s : ControllerNode.t) (d : string) :
  is_Some (dict_get d (ControllerNode.dags s)) →
  is_Some (dict_get d (ControllerNode.dags (ControllerNode.step e s))).
Proof.
  intros Hd.
  assert (Hset : ∀ k v, is_Some (dict_get d (dict_set k v
                                               (ControllerNode.dags s)))).
  { intros k v. rewrite dict_get_set. destruct (decide (k = d)); eauto. }
  destruct e as [m conn addr rd| |now].
  - destruct m as [node_id ram|node_id|node_id|node_id task_id result
                  |name tasks| |dag_id|msg_type]; try done.
    + simpl. unfold ControllerNode._handle_heartbeat.
      by destruct (dict_get node_id _).
    + simpl. unfold ControllerNode._handle_get_task.
      by destruct (TaskScheduler.get_next_task _ _ _) as [sched [[task|]|x]].
    + unfold ControllerNode.step, ControllerNode._process_message.
      rewrite handle_task_result_dags.
      destruct (truthy_str (r_dag_id result)) as [d0|]; [| done].
      destruct (dict_get d0 (ControllerNode.dags s)); [apply Hset | done].
    + unfold ControllerNode.step, ControllerNode._process_message,
        ControllerNode._handle_submit_dag. cbn [fst].
      rewrite schedule_dag_tasks_dags. apply Hset.
    + simpl. unfold ControllerNode._handle_get_dag_status.
      by destruct (dict_get dag_id _).
  - simpl. unfold ControllerNode._scheduler_loop.
    by rewrite scheduler_loop_dags.
  - simpl. unfold ControllerNode._health_check_loop.
    by rewrite remove_dead_dags.
Qed.

Lemma X14_dags_never_removed_witness :
  is_Some (dict_get "d1"
             (ControllerNode.dags
                (ControllerNode.step (ControllerNode.ReaperTick 90)
                                     two_in_flight))).
Proof.
  apply X14_dags_never_removed. vm_compute. eauto.
Defined.

(** ** The life of a DAG *)

(** X15.  Ingesting a result never moves a DAG's status backwards
    (pending, running, completed, in that order) and never leaves it
    pending; [started_at] is only written by the ingest that takes the DAG
    out of pending; and the task list, the dependency map, the id, the name
    and [created_at] are never changed. *)
Theorem X15_status_moves_forward (D : DAG.t) (task_id : string)
    (result : Result) (now : Z) :
  let D' := DAG.update_task_result D task_id result now in
  status_rank (DAG.status D) ≤ status_rank (DAG.status D') ∧
  DAG.status D' ≠ DAG.pending ∧
  (DAG.status D ≠ DAG.pending → DAG.started_at D' = DAG.started_at D) ∧
  DAG.tasks D' = DAG.tasks D ∧
  DAG.task_dependencies D' = DAG.task_dependencies D ∧
  DAG.dag_id D' = DAG.dag_id D ∧ DAG.name D' = DAG.name D ∧
  DAG.created_at D' = DAG.created_at D.
Proof.
  simpl. unfold DAG.update_task_result.
  destruct (decide _) as [Hfull|Hpart]; simpl.
  - split_and!; try done. destruct (DAG.status D); simpl; lia.
  - destruct (DAG.status D) eqn:Hst; simpl; split_and!; try done; lia.
Qed.

(** *** Snapshots *)

Lemma dict_get_map_values {A B : Type} (f : A → B) (k : string)
    (d : pydict A) :
  dict_get k (map (λ kv, (kv.1, f kv.2)) d) = f <$> dict_get k d.
Proof.
  induction d as [|[k' v'] d IH]; simpl; [done |].
  by destruct (decide (k = k')).
Qed.

Lemma task_status_lookup (entry : string → DAG.task_state * option Result)
    (tasks : list Task) (acc : pydict (DAG.task_state * option Result))
    (k : string) :
  dict_get k (foldl (λ acc task, dict_set (t_id task) (entry (t_id task)) acc)
                    acc tasks)
  = if decide (k ∈ map t_id tasks) then Some (entry k) else dict_get k acc.
Proof.
  revert acc. induction tasks as [|task tasks IH]; intros acc.
  - destruct (decide (k ∈ map t_id [])) as [Hin|_]; [| done].
    by apply elem_of_nil in Hin.
  - cbn [foldl]. rewrite IH.
    destruct (decide (k ∈ map t_id tasks)) as [Hin|Hnotin];
      destruct (decide (k ∈ map t_id (task :: tasks))) as [Hin'|Hnotin'].
    + done.
    + destruct Hnotin'. by right.
    + rewrite dict_get_set. destruct (decide (t_id task = k)) as [->|Hne];
        [done |].
      apply elem_of_cons in Hin' as [?|?]; [congruence | done].
    + rewrite dict_get_set_ne; [done |]. intros <-. apply Hnotin'. left.
Qed.

Lemma task_status_keys_nodup
    (entry : string → DAG.task_state * option Result) (tasks : list Task)
    (acc : pydict (DAG.task_state * option Result)) :
  NoDup (dict_keys acc) →
  NoDup (dict_keys
           (foldl (λ acc task, dict_set (t_id task) (entry (t_id task)) acc)
                  acc tasks)).
Proof.
  revert acc. induction tasks as [|task tasks IH]; intros acc Hnd; simpl;
    [done |].
  by apply IH, dict_set_keys_nodup.
Qed.

Lemma to_dict_tasks (D : DAG.t) :
  DAG.d_tasks (DAG.to_dict D)
  = foldl (λ acc task, dict_set (t_id task) (task_entry D (t_id task)) acc)
          [] (DAG.tasks D).
Proof.
  unfold DAG.to_dict. simpl. generalize (@nil (string * (DAG.task_state * option Result))).
  induction (DAG.tasks D) as [|task tasks IH]; intros acc; simpl; [done |].
  rewrite <- IH. unfold task_entry.
  by destruct (DAG.task_results D !! t_id task).
Qed.

(** X16.  In the dictionary that [to_dict] builds for a DAG, the entry of
    a task id is "pending" with no result when the id has no result, and
    otherwise "completed" or "failed" according to the success flag of the
    stored result, together with that result; ids that no task declares
    have no entry and an id declared twice has one entry; [total_tasks]
    counts declarations and [completed_tasks] counts stored results. *)
Theorem X16_snapshot_of_a_dag (D : DAG.t) (k : string) :
  let view := DAG.to_dict D in
  dict_get k (DAG.d_tasks view)
  = (if decide (k ∈ map t_id (DAG.tasks D)) then Some (task_entry D k)
     else None) ∧
  NoDup (dict_keys (DAG.d_tasks view)) ∧
  DAG.d_total_tasks view = length (DAG.tasks D) ∧
  DAG.d_completed_tasks view = size (DAG.task_results D) ∧
  DAG.d_status view = DAG.status D.
Proof.
  cbv zeta. rewrite to_dict_tasks. split_and!; try done.
  - by rewrite task_status_lookup.
  - apply task_status_keys_nodup. constructor.
Qed.

(** X17.  [get_status] and [get_dag_status] agree and read only: both
    leave the state as it is; the snapshot lists under each registered
    [node_id] the dictionary of that worker and under each [dag_id] the
    dictionary of that DAG; and [get_dag_status] answers with exactly the
    dictionary the snapshot holds under the id, or with the error
    ["DAG not found"] when the snapshot has none. *)
Theorem X17_snapshots_agree (s : ControllerNode.t) (now : Z) :
  ∃ nodes_info dags_info,
    ControllerNode._handle_get_status s now
    = (s, Ok (StatusReply nodes_info dags_info now)) ∧
    (∀ w, dict_get w nodes_info
          = Node.to_dict <$> dict_get w (ControllerNode.nodes s)) ∧
    (∀ d, dict_get d dags_info
          = DAG.to_dict <$> dict_get d (ControllerNode.dags s)) ∧
    (∀ d, ControllerNode._handle_get_dag_status s d
          = (s, Ok (match dict_get d dags_info with
                    | Some view => DagReply view
                    | None => Error "DAG not found"
                    end))).
Proof.
  eexists _, _. split; [reflexivity |]. split_and!.
  - intros w. apply dict_get_map_values.
  - intros d. apply dict_get_map_values.
  - intros d. rewrite dict_get_map_values.
    unfold ControllerNode._handle_get_dag_status.
    by destruct (dict_get d (ControllerNode.dags s)).
Qed.

(** ** Registration and result accounting *)

(** X18.  [register_node] is last-write-wins: whatever was registered
    under the id before, the record is now a fresh one (idle, no current
    task, [task_count] 0, heartbeat now, [ram_limit] 128 when none is
    given); the other workers, the DAGs and the scheduler are not touched,
    so tasks in flight under that id stay in flight under it. *)
Theorem X18_register_replaces (s : ControllerNode.t) (node_id : string)
    (ram_limit : option Z) (conn : nat) (addr : string * Z) (now : Z) :
  let out := ControllerNode._handle_register_node s node_id ram_limit conn
                                                  addr now in
  out.2 = Ok Registered ∧
  dict_get node_id (ControllerNode.nodes out.1)
  = Some (Node.mk node_id conn addr (default 128%Z ram_limit) Node.idle None
                  0 now []) ∧
  (∀ w, w ≠ node_id →
        dict_get w (ControllerNode.nodes out.1)
        = dict_get w (ControllerNode.nodes s)) ∧
  ControllerNode.dags out.1 = ControllerNode.dags s ∧
  ControllerNode.scheduler out.1 = ControllerNode.scheduler s.
Proof.
  simpl. split_and!; try done.
  - apply dict_get_set_eq.
  - intros w Hne. by rewrite dict_get_set_ne.
Qed.

Lemma handle_task_result_nodes (s : ControllerNode.t)
    (node_id task_id : string) (result : Result) (now : Z) :
  ControllerNode.nodes
    (ControllerNode._handle_task_result s node_id task_id result now).1
  = match dict_get node_id (ControllerNode.nodes s) with
    | Some node =>
        dict_set node_id (Node.finish node task_id result now)
                 (ControllerNode.nodes s)
    | None => ControllerNode.nodes s
    end.
Proof.
  unfold ControllerNode._handle_task_result.
  destruct (truthy_str (r_dag_id result)); simpl; [| done].
  by rewrite schedule_dag_tasks_nodes.
Qed.

(** X19.  Every [task_result] is answered with success and counted: for a
    registered sender, whatever the task id, the success flag and the DAG
    named in the result, the sender becomes idle with no current task, its
    [task_count] grows by one and the result is appended to its log; the
    other workers are unchanged, and an unregistered sender changes no
    worker. *)
Theorem X19_every_result_is_counted (s : ControllerNode.t)
    (node_id task_id : string) (result : Result) (now : Z) :
  let out := ControllerNode._handle_task_result s node_id task_id result
                                                now in
  out.2 = Ok Success ∧
  (∀ node, dict_get node_id (ControllerNode.nodes s) = Some node →
     ∃ node',
       dict_get node_id (ControllerNode.nodes out.1) = Some node' ∧
       Node.status node' = Node.idle ∧
       Node.current_task node' = None ∧
       Node.task_count node' = (Node.task_count node + 1)%Z ∧
       Node.completed_tasks node'
       = Node.completed_tasks node ++ [(task_id, result, now)] ∧
       Node.last_heartbeat node' = Node.last_heartbeat node) ∧
  (∀ w, w ≠ node_id →
        dict_get w (ControllerNode.nodes out.1)
        = dict_get w (ControllerNode.nodes s)) ∧
  (dict_get node_id (ControllerNode.nodes s) = None →
   ControllerNode.nodes out.1 = ControllerNode.nodes s).
Proof.
  cbv zeta. rewrite handle_task_result_nodes. split_and!.
  - done.
  - intros node Hnode. rewrite Hnode, dict_get_set_eq. by eexists.
  - intros w Hne. destruct (dict_get node_id _); [| done].
    by rewrite dict_get_set_ne.
  - by intros ->.
Qed.

Lemma X15_status_moves_forward_witness :
  DAG.status single_done ≠ DAG.pending ∧
  DAG.started_at single_overfull = DAG.started_at single_done.
Proof.
  assert (Hst : DAG.status single_done ≠ DAG.pending) by discriminate.
  split; [exact Hst |].
  exact (proj1 (proj2 (proj2
    (X15_status_moves_forward single_done "zz" (result_of true "d1") 6)))
    Hst).
Defined.

Lemma X18_register_replaces_witness :
  dict_get "w1"
    (ControllerNode.nodes
       (ControllerNode._handle_register_node one_queued "w2" None
          worker_conn worker_addr 9).1)
  = dict_get "w1" (ControllerNode.nodes one_queued).
Proof.
  apply (proj1 (proj2 (proj2
    (X18_register_replaces one_queued "w2" None worker_conn worker_addr 9)))).
  discriminate.
Defined.

Lemma X19_every_result_is_counted_witness :
  ∃ node',
    dict_get "w1"
      (ControllerNode.nodes
         (ControllerNode._handle_task_result two_in_flight "w1" "t1"
            (result_of false "d1") 9).1) = Some node' ∧
    Node.status node' = Node.idle ∧ Node.task_count node' = 1%Z.
Proof.
  destruct (dict_get "w1" (ControllerNode.nodes two_in_flight))
    as [node|] eqn:Hget; [| vm_compute in Hget; discriminate].
  destruct (proj1 (proj2 (X19_every_result_is_counted two_in_flight "w1" "t1"
                            (result_of false "d1") 9)) node Hget)
    as (node' & Hget' & Hidle & _ & Hcount & _).
  exists node'. split; [exact Hget' |]. split; [exact Hidle |].
  rewrite Hcount. vm_compute in Hget. injection Hget as <-. reflexivity.
Defined.

(** ** Stamps, and results finding their DAG *)

Lemma stamped_mono (dags dags' : pydict DAG.t) (t : Task) :
  (∀ d, is_Some (dict_get d dags) → is_Some (dict_get d dags')) →
  stamped dags t → stamped dags' t.
Proof. intros Hsub (d & Hd & Hin). exists d. split; [done | by apply Hsub]. Qed.

Lemma dict_set_keeps {V : Type} (k d : string) (v : V) (dd : pydict V) :
  is_Some (dict_get d dd) → is_Some (dict_get d (dict_set k v dd)).
Proof. intros Hd. rewrite dict_get_set. destruct (decide (k = d)); eauto. Qed.

(** The stamps survive whatever is done to the three collections by moving
    descriptors around, and whatever is added to the DAGs table. *)
Lemma stamps_ok_rearranged (s : ControllerNode.t) (nodes' : pydict Node.t)
    (dags' : pydict DAG.t) (sched' : TaskScheduler.t) :
  stamps_ok s →
  (∀ d, is_Some (dict_get d (ControllerNode.dags s)) →
        is_Some (dict_get d dags')) →
  (∀ t, t ∈ TaskScheduler.task_queue sched' →
        t ∈ TaskScheduler.task_queue (ControllerNode.scheduler s) ∨
        ∃ k info,
          (k, info) ∈ TaskScheduler.running_tasks (ControllerNode.scheduler s)
          ∧ t = TaskScheduler.task info) →
  (∀ k info, (k, info) ∈ TaskScheduler.running_tasks sched' →
     (k, info) ∈ TaskScheduler.running_tasks (ControllerNode.scheduler s) ∨
     TaskScheduler.task info
     ∈ TaskScheduler.task_queue (ControllerNode.scheduler s)) →
  stamps_ok (ControllerNode.mk nodes' dags' sched').
Proof.
  intros [Hq Hr] Hsub Hqueue Hrun. split; simpl.
  - intros t Ht. apply (stamped_mono _ _ _ Hsub).
    destruct (Hqueue t Ht) as [Hin|(k & info & Hin & ->)]; [by apply Hq |].
    by apply (Hr k).
  - intros k info Hin. apply (stamped_mono _ _ _ Hsub).
    destruct (Hrun k info Hin) as [Hin'|Hin']; [by apply (Hr k) | by apply Hq].
Qed.

Lemma stamps_ok_schedule_dag_tasks (s : ControllerNode.t) (d : string) :
  stamps_ok s → stamps_ok (ControllerNode._schedule_dag_tasks s d).
Proof.
  intros [Hq Hr]. unfold ControllerNode._schedule_dag_tasks.
  destruct (dict_get d (ControllerNode.dags s)) as [D|] eqn:HD; [| done].
  destruct (enqueue_all_spec d (DAG.get_ready_tasks D)
              (ControllerNode.scheduler s))
    as (added & _ & Hqueue & _ & _ & Hrun & _).
  split; simpl.
  - rewrite Hqueue. intros t [Hin|Hin]%elem_of_app; [by apply Hq |].
    apply list_elem_of_fmap in Hin as (t0 & -> & _).
    exists d. split; [done |]. rewrite HD. eauto.
  - rewrite Hrun. apply Hr.
Qed.

Lemma stamps_ok_schedule_all (dag_ids : list string) (s : ControllerNode.t) :
  stamps_ok s → stamps_ok (foldl ControllerNode._schedule_dag_tasks s dag_ids).
Proof.
  revert s. induction dag_ids as [|d dag_ids IH]; intros s Hs; simpl; [done |].
  by apply IH, stamps_ok_schedule_dag_tasks.
Qed.

Lemma stamps_ok_get_next_task (s : ControllerNode.t) (nodes' : pydict Node.t)
    (node_id : string) (now : Z) :
  stamps_ok s →
  stamps_ok (ControllerNode.mk nodes' (ControllerNode.dags s)
               (TaskScheduler.get_next_task (ControllerNode.scheduler s)
                                            node_id now).1).
Proof.
  intros Hs. apply (stamps_ok_rearranged s); [done | done | |];
    unfold TaskScheduler.get_next_task;
    destruct (TaskScheduler.task_queue (ControllerNode.scheduler s))
      as [|task queue] eqn:Hq; simpl.
  - rewrite Hq. by left.
  - destruct (key_in _ _); simpl; intros t Ht; left; by right.
  - intros k info Hin. by left.
  - destruct (key_in _ _); simpl; intros k info Hin; [| by left].
    apply dict_set_elem in Hin as [[= -> ->]|Hin]; [| by left].
    right. simpl. left.
Qed.

Lemma stamps_ok_requeue (s : ControllerNode.t) (nodes' : pydict Node.t)
    (k : string) (info : TaskScheduler.info) :
  stamps_ok s →
  (k, info) ∈ TaskScheduler.running_tasks (ControllerNode.scheduler s) →
  stamps_ok (ControllerNode.mk nodes' (ControllerNode.dags s)
               (ControllerNode.requeue (ControllerNode.scheduler s) k info)).
Proof.
  intros Hs Hin. apply (stamps_ok_rearranged s); [done | done | |]; simpl.
  - intros t [Ht| ->%list_elem_of_singleton]%elem_of_app; [by left |].
    right. by exists k, info.
  - intros k' info' Hin'. left. by eapply dict_del_elem.
Qed.

Lemma stamps_ok_task_done (s : ControllerNode.t) (nodes' : pydict Node.t)
    (task_id : string) (result : Result) :
  stamps_ok s →
  stamps_ok (ControllerNode.mk nodes' (ControllerNode.dags s)
               (if r_success result
                then TaskScheduler.complete_task (ControllerNode.scheduler s)
                       task_id result
                else TaskScheduler.fail_task (ControllerNode.scheduler s)
                       task_id)).
Proof.
  intros Hs. destruct (r_success result).
  - apply (stamps_ok_rearranged s); [done | done | |];
      unfold TaskScheduler.complete_task;
      destruct (dict_in task_id _); simpl; try (intros; by left).
    intros k info Hin. left. by eapply dict_del_elem.
  - unfold TaskScheduler.fail_task.
    destruct (dict_get task_id _) as [info|] eqn:Hget.
    + by apply (stamps_ok_requeue s nodes' task_id info), dict_get_elem.
    + apply (stamps_ok_rearranged s); try done; intros; by left.
Qed.

Lemma stamps_ok_nodes (s : ControllerNode.t) (nodes' : pydict Node.t) :
  stamps_ok s →
  stamps_ok (ControllerNode.mk nodes' (ControllerNode.dags s)
                               (ControllerNode.scheduler s)).
Proof. intros Hs. apply (stamps_ok_rearranged s); try done; intros; by left. Qed.

Lemma stamps_ok_dags (s : ControllerNode.t) (dags' : pydict DAG.t) :
  stamps_ok s →
  (∀ d, is_Some (dict_get d (ControllerNode.dags s)) →
        is_Some (dict_get d dags')) →
  stamps_ok (ControllerNode.mk (ControllerNode.nodes s) dags'
                               (ControllerNode.scheduler s)).
Proof. intros Hs Hsub. apply (stamps_ok_rearranged s); try done; intros; by left. Qed.

Lemma stamps_ok_remove_dead (dead_nodes : list string)
    (s : ControllerNode.t) :
  stamps_ok s → stamps_ok (ControllerNode.remove_dead dead_nodes s).1.
Proof.
  revert s. induction dead_nodes as [|w dead_nodes IH]; intros s Hs; simpl;
    [done |].
  destruct (dict_in w (ControllerNode.nodes s)); [| by apply IH].
  destruct (requeue_loop_cases w
              (TaskScheduler.running_tasks (ControllerNode.scheduler s))
              (ControllerNode.scheduler s))
    as [[_ ->]|(before & k & info & after & Heq & _ & _ & ->)]; [done | |].
  - apply IH. by apply stamps_ok_nodes.
  - simpl. apply stamps_ok_requeue; [done |].
    rewrite Heq. apply elem_of_app. right. left.
Qed.

Lemma stamps_ok_process_message (s : ControllerNode.t) (m : message)
    (conn : nat) (addr : string * Z) (now : Z) (uuid : string) :
  stamps_ok s →
  stamps_ok (ControllerNode._process_message s m conn addr now uuid).1.
Proof.
  intros Hs.
  destruct m as [node_id ram|node_id|node_id|node_id task_id result
                |name tasks| |dag_id|msg_type]; simpl.
  - by apply stamps_ok_nodes.
  - unfold ControllerNode._handle_heartbeat.
    destruct (dict_get node_id _); [by apply stamps_ok_nodes | done].
  - unfold ControllerNode._handle_get_task.
    pose proof (λ nodes', stamps_ok_get_next_task s nodes' node_id now Hs)
      as Hnext.
    destruct (TaskScheduler.get_next_task _ _ _) as [sched [[task|]|x]];
      simpl in *; apply Hnext.
  - unfold ControllerNode._handle_task_result.
    set (nodes' := match dict_get node_id (ControllerNode.nodes s) with
                   | Some node => _ | None => _ end).
    pose proof (stamps_ok_task_done s nodes' task_id result Hs) as Hdone.
    destruct (truthy_str (r_dag_id result)) as [d|]; simpl; [| done].
    apply stamps_ok_schedule_dag_tasks.
    destruct (dict_get d (ControllerNode.dags s)) as [D|]; [| done].
    apply (stamps_ok_dags _ _ Hdone). simpl. intros d'.
    apply dict_set_keeps.
  - unfold ControllerNode._handle_submit_dag. simpl.
    apply stamps_ok_schedule_dag_tasks.
    apply (stamps_ok_dags s); [done |]. intros d'. apply dict_set_keeps.
  - done.
  - unfold ControllerNode._handle_get_dag_status.
    by destruct (dict_get dag_id _).
  - done.
Qed.

Lemma reachable_stamps_ok (s : ControllerNode.t) :
  ControllerNode.reachable s → stamps_ok s.
Proof.
  induction 1 as [|e s _ IH].
  - split; simpl; [by intros t ?%elem_of_nil | by intros k info ?%elem_of_nil].
  - destruct e as [m conn addr rd| |now]; simpl.
    + by apply stamps_ok_process_message.
    + by apply stamps_ok_schedule_all.
    + by apply stamps_ok_remove_dead.
Qed.

(** After a [task_result] for a task id, that id is not in flight. *)
Lemma handle_task_result_not_running (s : ControllerNode.t)
    (node_id task_id : string) (result : Result) (now : Z) :
  dict_get task_id
    (TaskScheduler.running_tasks
       (ControllerNode.scheduler
          (ControllerNode._handle_task_result s node_id task_id result now).1))
  = None.
Proof.
  unfold ControllerNode._handle_task_result.
  set (sched := if r_success result then _ else _).
  assert (Hsched : dict_get task_id (TaskScheduler.running_tasks sched) = None).
  { subst sched. destruct (r_success result).
    - unfold TaskScheduler.complete_task.
      destruct (dict_in task_id _) eqn:Hin; simpl.
      + apply dict_get_del_eq.
      + by apply dict_in_false.
    - unfold TaskScheduler.fail_task.
      destruct (dict_get task_id
                  (TaskScheduler.running_tasks (ControllerNode.scheduler s)))
        eqn:Hget; simpl; [| done].
      apply dict_get_del_eq. }
  destruct (truthy_str (r_dag_id result)) as [d|]; simpl; [| done].
  unfold ControllerNode._schedule_dag_tasks. simpl.
  destruct (dict_get d _) as [D|]; simpl; [| done].
  destruct (enqueue_all_spec d (DAG.get_ready_tasks D) sched)
    as (_ & _ & _ & _ & _ & -> & _).
  done.
Qed.

(** X20.  A result finds its DAG.  In every reachable state the head of
    the ready queue is stamped with the id of a DAG of the DAGs table; when
    a worker takes it with [get_task], runs it and reports it the way
    [_execute_task] does (under the descriptor's own ["dag_id"]), the
    controller answers success, stores the reported record in that DAG's
    [task_results] under the task's id, and the task is no longer in
    flight.  (The id is non-empty: it is drawn from a uuid.) *)
Theorem X20_result_finds_its_dag (s : ControllerNode.t) (task : Task)
    (queue : list Task) :
  ControllerNode.reachable s →
  TaskScheduler.task_queue (ControllerNode.scheduler s) = task :: queue →
  ∃ d D,
    t_dag_id task = Some d ∧
    dict_get d (ControllerNode.dags s) = Some D ∧
    ∀ node_id execute now now' conn addr uuid,
      d ≠ "" →
      let s1 := (ControllerNode._handle_get_task s node_id now).1 in
      let report := HostNode._execute_task node_id execute task in
      let out := ControllerNode._process_message s1 report conn addr now'
                                                 uuid in
      ∃ r,
        report = task_result node_id (t_id task) r ∧
        r_success r = x_success (execute (t_module task) (t_inputs task)) ∧
        out.2 = Ok Success ∧
        dict_get d (ControllerNode.dags out.1)
        = Some (DAG.update_task_result D (t_id task) r now') ∧
        dict_get (t_id task)
          (TaskScheduler.running_tasks (ControllerNode.scheduler out.1))
        = None.
Proof.
  intros Hreach Hq.
  pose proof (reachable_sched_inv s Hreach) as Hinv.
  destruct (reachable_stamps_ok s Hreach) as [Hstamp _].
  destruct (Hstamp task) as (d & Hd & [D HD]); [rewrite Hq; left |].
  exists d, D. split; [done |]. split; [done |].
  intros node_id execute now now' conn addr uuid Hne. cbv zeta.
  rewrite (handle_get_task_head s node_id now task queue Hinv Hq).
  unfold HostNode._execute_task, HostCommunication.submit_result.
  eexists. split; [reflexivity |]. split; [reflexivity |].
  cbn [ControllerNode._process_message fst]. split; [done |].
  split; [| apply handle_task_result_not_running].
  rewrite handle_task_result_dags. cbn [r_dag_id ControllerNode.dags].
  rewrite Hd. cbn [default truthy_str]. rewrite decide_False by done.
  unfold id. rewrite HD. apply dict_get_set_eq.
Qed.

Lemma X20_result_finds_its_dag_witness :
  ControllerNode.reachable one_queued ∧
  TaskScheduler.task_queue (ControllerNode.scheduler one_queued)
  = [set_dag_id (task_of "t1" None) "d1"] ∧
  ∃ d D,
    t_dag_id (set_dag_id (task_of "t1" None) "d1") = Some d ∧
    dict_get d (ControllerNode.dags one_queued) = Some D.
Proof.
  assert (Hreach : ControllerNode.reachable one_queued)
    by apply reachable_run, ControllerNode.reachable_init.
  assert (Hq : TaskScheduler.task_queue (ControllerNode.scheduler one_queued)
               = [set_dag_id (task_of "t1" None) "d1"])
    by (vm_compute; reflexivity).
  split; [exact Hreach |]. split; [exact Hq |].
  destruct (X20_result_finds_its_dag one_queued _ _ Hreach Hq)
    as (d & D & Hd & HD & _).
  exists d, D. split; [exact Hd | exact HD].
Defined.

(** ** Retry after failure *)

Lemma schedule_dag_tasks_guarded (s : ControllerNode.t) (d k : string) :
  held (ControllerNode.scheduler s) k →
  ∃ added,
    TaskScheduler.task_queue
      (ControllerNode.scheduler (ControllerNode._schedule_dag_tasks s d))
    = TaskScheduler.task_queue (ControllerNode.scheduler s) ++ added ∧
    TaskScheduler.pending_tasks
      (ControllerNode.scheduler (ControllerNode._schedule_dag_tasks s d)) !! k
    = TaskScheduler.pending_tasks (ControllerNode.scheduler s) !! k ∧
    TaskScheduler.running_tasks
      (ControllerNode.scheduler (ControllerNode._schedule_dag_tasks s d))
    = TaskScheduler.running_tasks (ControllerNode.scheduler s).
Proof.
  intros Hheld. unfold ControllerNode._schedule_dag_tasks.
  destruct (dict_get d (ControllerNode.dags s)) as [D|]; simpl.
  - destruct (enqueue_all_guarded d (DAG.get_ready_tasks D)
                (ControllerNode.scheduler s) k Hheld)
      as (added & Hq & _ & Hp & Hr).
    by exists added.
  - exists []. by rewrite app_nil_r.
Qed.

(** X21.  A failed task is retried.  When a worker reports [success =
    false] for a task that is in flight, the descriptor that was handed out
    goes to the tail of the ready queue (ahead only of what the evaluation
    of the result's DAG appends after it), is pending again and is no
    longer in flight; if nothing else was queued, the next [get_task], from
    any worker, is answered with that same descriptor. *)
Theorem X21_failed_task_is_retried (s : ControllerNode.t)
    (node_id k : string) (info : TaskScheduler.info) (r : Result) (now : Z) :
  ControllerNode.reachable s →
  dict_get k (TaskScheduler.running_tasks (ControllerNode.scheduler s))
  = Some info →
  r_success r = false →
  let s' := (ControllerNode._handle_task_result s node_id k r now).1 in
  ∃ added,
    TaskScheduler.task_queue (ControllerNode.scheduler s')
    = TaskScheduler.task_queue (ControllerNode.scheduler s)
      ++ TaskScheduler.task info :: added ∧
    TaskScheduler.pending_tasks (ControllerNode.scheduler s') !! k
    = Some (TaskScheduler.task info) ∧
    dict_get k (TaskScheduler.running_tasks (ControllerNode.scheduler s'))
    = None ∧
    (TaskScheduler.task_queue (ControllerNode.scheduler s) = [] →
     ∀ node_id' now',
       (ControllerNode._handle_get_task s' node_id' now').2
       = Ok (TaskReply (Some (TaskScheduler.task info)))).
Proof.
  intros Hreach Hget Hfail. cbv zeta.
  pose proof (reachable_sched_inv s Hreach) as Hinv.
  assert (Hinv' : sched_inv (ControllerNode.scheduler
            (ControllerNode._handle_task_result s node_id k r now).1)).
  { apply (sched_inv_process_message s (task_result node_id k r) 0 ("", 0%Z)
             now "" Hinv). }
  assert (Hid : t_id (TaskScheduler.task info) = k)
    by (by apply (inv_running_key _ Hinv), dict_get_elem).
  assert (Hmain : ∃ added,
    TaskScheduler.task_queue (ControllerNode.scheduler
      (ControllerNode._handle_task_result s node_id k r now).1)
    = TaskScheduler.task_queue (ControllerNode.scheduler s)
      ++ TaskScheduler.task info :: added ∧
    TaskScheduler.pending_tasks (ControllerNode.scheduler
      (ControllerNode._handle_task_result s node_id k r now).1) !! k
    = Some (TaskScheduler.task info)).
  { unfold ControllerNode._handle_task_result. rewrite Hfail.
    unfold TaskScheduler.fail_task. rewrite Hget, Hid.
    destruct (truthy_str (r_dag_id r)) as [d|]; cbn [fst].
    - match goal with
      | |- context [ControllerNode._schedule_dag_tasks ?st d] =>
          destruct (schedule_dag_tasks_guarded st d k)
            as (added & Hq & Hp & _)
      end.
      { left. simpl. rewrite lookup_insert_eq. eauto. }
      exists added. rewrite Hq, Hp. simpl.
      by rewrite <- app_assoc, lookup_insert_eq.
    - exists []. simpl. by rewrite lookup_insert_eq. }
  destruct Hmain as (added & Hq & Hp). exists added.
  split; [done |]. split; [done |].
  split; [apply handle_task_result_not_running |].
  intros Hempty node_id' now'. rewrite Hempty in Hq. simpl in Hq.
  by rewrite (handle_get_task_head _ node_id' now' _ _ Hinv' Hq).
Qed.

Lemma X21_failed_task_is_retried_witness :
  ControllerNode.reachable retry_started ∧
  ∀ node_id' now',
    (ControllerNode._handle_get_task
       (ControllerNode._handle_task_result retry_started "w1" "t1"
          (result_of false "d1") 3).1 node_id' now').2
    = Ok (TaskReply (Some (set_dag_id (task_of "t1" None) "d1"))).
Proof.
  assert (Hreach : ControllerNode.reachable retry_started)
    by apply reachable_run, ControllerNode.reachable_init.
  split; [exact Hreach |].
  destruct (X21_failed_task_is_retried retry_started "w1" "t1"
              (TaskScheduler.mk_info "w1"
                 (set_dag_id (task_of "t1" None) "d1") 2)
              (result_of false "d1") 3 Hreach)
    as (added & _ & _ & _ & Hnext); [reflexivity | reflexivity |].
  apply Hnext. reflexivity.
Defined.

(** ** Requests and responses on a connection *)

(** A request never makes the router raise in a reachable state: the one
    statement a handler can raise at, [del self.pending_tasks[task_id]] in
    [get_next_task], always finds its key there. *)
Lemma process_message_answers (s : ControllerNode.t) (m : message)
    (conn : nat) (addr : string * Z) (now : Z) (uuid : string) :
  ControllerNode.reachable s →
  ∃ r, (ControllerNode._process_message s m conn addr now uuid).2 = Ok r.
Proof.
  intros Hreach. pose proof (reachable_sched_inv s Hreach) as Hinv.
  destruct m as [node_id ram|node_id|node_id|node_id task_id result
                |name tasks| |dag_id|msg_type]; simpl; eauto.
  - unfold ControllerNode._handle_heartbeat.
    destruct (dict_get node_id _); eauto.
  - destruct (TaskScheduler.task_queue (ControllerNode.scheduler s))
      as [|task queue] eqn:Hq.
    + rewrite handle_get_task_empty by done. eauto.
    + rewrite (handle_get_task_head s node_id now task queue Hinv Hq). eauto.
  - unfold ControllerNode._handle_get_dag_status.
    destruct (dict_get dag_id _); eauto.
Qed.

(** When the router does raise on a request, it is a [get_task] that found
    the head of the queue missing from [pending_tasks]. *)
Lemma process_message_raises (s : ControllerNode.t) (m : message)
    (conn : nat) (addr : string * Z) (now : Z) (uuid : string) (e : exn) :
  (ControllerNode._process_message s m conn addr now uuid).2 = Raise e →
  ∃ node_id task queue,
    m = get_task node_id ∧
    TaskScheduler.task_queue (ControllerNode.scheduler s) = task :: queue ∧
    TaskScheduler.pending_tasks (ControllerNode.scheduler s) !! t_id task
    = None ∧
    e = KeyError (t_id task).
Proof.
  destruct m as [node_id ram|node_id|node_id|node_id task_id result
                |name tasks| |dag_id|msg_type]; simpl; try done.
  - unfold ControllerNode._handle_heartbeat.
    by destruct (dict_get node_id _).
  - unfold ControllerNode._handle_get_task, TaskScheduler.get_next_task.
    destruct (TaskScheduler.task_queue (ControllerNode.scheduler s))
      as [|task queue] eqn:Hq; [done |].
    unfold key_in.
    destruct (TaskScheduler.pending_tasks (ControllerNode.scheduler s)
                !! t_id task) eqn:Hp; simpl; [done |].
    intros [= <-]. by exists node_id, task, queue.
  - unfold ControllerNode._handle_get_dag_status.
    by destruct (dict_get dag_id _).
Qed.

Lemma handle_connection_requests (conn : nat) (addr : string * Z)
    (script : list (ControllerNode.inbound * ControllerNode.reading)) :
  ∀ (s : ControllerNode.t) (sent0 : list response),
    ControllerNode.reachable s →
    Forall request_frame script →
    ∃ sent,
      ControllerNode._handle_connection s conn addr script sent0
      = (ControllerNode.run (omap (request_of conn addr) script) s,
         sent0 ++ sent, ControllerNode.PeerClosed) ∧
      length sent = length script.
Proof.
  induction script as [|[inb rd] script IH]; intros s sent0 Hreach Hall.
  - exists []. by rewrite app_nil_r.
  - apply Forall_cons in Hall as [Hframe Hall].
    destruct inb as [length_data [| |m]|length_data]; try done.
    unfold request_frame in Hframe. simpl in Hframe.
    destruct (process_message_answers s m conn addr (ControllerNode.clock rd)
                (ControllerNode.uuid8 rd) Hreach) as [r Hr].
    assert (Hnext : ControllerNode.reachable
                      (ControllerNode.step
                         (ControllerNode.Request m conn addr rd) s))
      by by constructor.
    change (omap (request_of conn addr)
              ((ControllerNode.Frame length_data (ControllerNode.Object m),
                rd) :: script))
      with (ControllerNode.Request m conn addr rd
              :: omap (request_of conn addr) script).
    unfold ControllerNode.run. cbn [foldl].
    cbn [ControllerNode._handle_connection].
    rewrite (proj2 (Z.eqb_neq _ _) Hframe).
    unfold ControllerNode.step at 2. unfold ControllerNode.step in Hnext.
    destruct (ControllerNode._process_message s m conn addr _ _)
      as [s' out].
    simpl in Hr, Hnext. subst out. cbn [fst].
    destruct (IH s' (sent0 ++ [r]) Hnext Hall) as (sent & Hrun & Hlen).
    exists (r :: sent). split; [| by simpl; rewrite Hlen].
    rewrite Hrun. unfold ControllerNode.run. by rewrite <- app_assoc.
Qed.

(** X22.  A conversation of requests is served to its end.  From a
    reachable state, when every frame of a connection has a non-zero
    length and a payload that decodes to a request carrying the fields its
    handler reads (the requests of [message]), the handler answers every
    frame and only stops when the peer closes: one response per frame, the
    controller left in the state the requests lead to one after the
    other. *)
Theorem X22_requests_served_to_the_end (s : ControllerNode.t) (conn : nat)
    (addr : string * Z)
    (script : list (ControllerNode.inbound * ControllerNode.reading)) :
  ControllerNode.reachable s →
  Forall request_frame script →
  ∃ sent,
    ControllerNode._handle_connection s conn addr script []
    = (ControllerNode.run (omap (request_of conn addr) script) s,
       sent, ControllerNode.PeerClosed) ∧
    length sent = length script.
Proof.
  intros Hreach Hall.
  destruct (handle_connection_requests conn addr script s [] Hreach Hall)
    as (sent & Hrun & Hlen).
  by exists sent.
Qed.

Lemma X22_requests_served_to_the_end_witness :
  ∃ sent,
    ControllerNode._handle_connection ControllerNode.__init__ worker_conn
      worker_addr session_script []
    = (ControllerNode.run (omap (request_of worker_conn worker_addr)
                                session_script) ControllerNode.__init__,
       sent, ControllerNode.PeerClosed) ∧
    length sent = 4.
Proof.
  apply (X22_requests_served_to_the_end ControllerNode.__init__ worker_conn
           worker_addr session_script).
  - apply ControllerNode.reachable_init.
  - unfold session_script.
    repeat (apply Forall_cons_2;
            [intros Hzero; vm_compute in Hzero; discriminate Hzero |]).
    apply Forall_nil_2.
Defined.

(** The four responses of that conversation. *)
Example session_responses :
  (ControllerNode._handle_connection ControllerNode.__init__ worker_conn
     worker_addr session_script []).1.2
  = [Registered; DagSubmitted "d1";
     TaskReply (Some (set_dag_id (task_of "a" None) "d1")); Success].
Proof. vm_compute. reflexivity. Qed.

(** Outside the reachable states the router can raise: with a descriptor
    in the queue that [pending_tasks] does not know, [get_task] ends in
    [KeyError] and the connection is closed without a response. *)
Example get_task_raises_when_unindexed :
  let s := ControllerNode.mk [] []
             (TaskScheduler.mk [task_of "a" None] ∅ []) in
  ControllerNode._handle_connection s worker_conn worker_addr
    [(ControllerNode.Frame [Byte.x00; Byte.x00; Byte.x00; Byte.x26]
        (ControllerNode.Object (get_task "w1")),
      ControllerNode.mk_reading 2 "")] []
  = (ControllerNode.mk [] [] (TaskScheduler.mk [] ∅ []), [],
     ControllerNode.Failed (KeyError "a")).
Proof. vm_compute. reflexivity. Qed.

(** X23.  One response per request, in order: the handler only ever
    appends to what it has written; when the connection ends because the
    peer closed it, exactly one response was written for every frame
    received; when it ends on a failure, fewer responses than frames were
    written (none for the frame that failed or for those after it). *)
Theorem X23_one_response_per_frame (s : ControllerNode.t) (conn : nat)
    (addr : string * Z)
    (script : list (ControllerNode.inbound * ControllerNode.reading))
    (sent : list response) :
  let out := ControllerNode._handle_connection s conn addr script sent in
  ∃ written,
    out.1.2 = sent ++ written ∧
    match out.2 with
    | ControllerNode.PeerClosed => length written = length script
    | ControllerNode.Failed _ => length written < length script
    end.
Proof.
  cbv zeta. revert s sent.
  induction script as [|[[length_data body|length_data] rd] script IH];
    intros s sent; simpl.
  - exists []. by rewrite app_nil_r.
  - destruct (if (ControllerNode.int_from_bytes length_data =? 0)%Z
              then ControllerNode.NotJson else body) as [| |m];
      try (exists []; rewrite app_nil_r; simpl; split; [done | lia]).
    destruct (ControllerNode._process_message s m conn addr _ _)
      as [s' [r|e]];
      [| exists []; rewrite app_nil_r; simpl; split; [done | lia]].
    destruct (IH s' (sent ++ [r])) as (written & Hsent & Hcount).
    exists (r :: written). rewrite Hsent, <- app_assoc. split; [done |].
    destruct (ControllerNode._handle_connection s' conn addr script _).2;
      simpl; lia.
  - exists []. rewrite app_nil_r. simpl. split; [done | lia].
Qed.

(** ** Completion and progress of a DAG *)

Lemma size_list_to_set_dup (l : list string) :
  ¬ NoDup l → size (list_to_set l : gset string) < length l.
Proof.
  induction l as [|x l IH]; intros Hdup.
  - destruct Hdup. constructor.
  - rewrite list_to_set_cons. simpl.
    pose proof (size_list_to_set_le l) as Hle.
    destruct (decide (x ∈ l)) as [Hin|Hnotin].
    + assert (({[x]} ∪ list_to_set l : gset string) = list_to_set l) as ->.
      { apply subseteq_union_1_L. intros y ->%elem_of_singleton.
        by apply elem_of_list_to_set. }
      lia.
    + assert (Hdup' : ¬ NoDup l).
      { intros Hnd. apply Hdup. by constructor. }
      specialize (IH Hdup').
      rewrite size_union, size_singleton; [lia |].
      intros y ->%elem_of_singleton Hy. by apply elem_of_list_to_set in Hy.
Qed.

Lemma own_results_size (D : DAG.t) :
  own_results D →
  size (DAG.task_results D)
  ≤ size (list_to_set (map t_id (DAG.tasks D)) : gset string).
Proof.
  intros Hown. rewrite <- (size_dom (D := gset string)).
  apply subseteq_size. intros k Hk.
  apply elem_of_list_to_set, Hown. by apply elem_of_dom.
Qed.

(** X24.  A DAG with at least one task, pairwise distinct task ids and
    only results of its own tasks is completed exactly when every task has
    a result. *)
Theorem X24_completed_when_all_done (D : DAG.t) :
  dag_reachable D →
  DAG.tasks D ≠ [] →
  NoDup (map t_id (DAG.tasks D)) →
  own_results D →
  DAG.status D = DAG.completed ↔
  ∀ t, t ∈ DAG.tasks D → is_Some (DAG.task_results D !! t_id t).
Proof.
  intros Hreach Htasks Hnd Hown.
  destruct (dag_reachable_inv D Hreach) as (_ & _ & Hfull & Hge).
  pose proof (own_results_size D Hown) as Hle.
  rewrite size_list_to_set, length_map in Hle by done.
  assert (Hdom : dom (DAG.task_results D)
                 ⊆ (list_to_set (map t_id (DAG.tasks D)) : gset string)).
  { intros k Hk. apply elem_of_list_to_set, Hown. by apply elem_of_dom. }
  split.
  - intros Hst t Ht. specialize (Hge Hst).
    assert (Heq : dom (DAG.task_results D)
                  = (list_to_set (map t_id (DAG.tasks D)) : gset string)).
    { apply set_subseteq_size_eq; [done |].
      rewrite size_dom, size_list_to_set, length_map by done. lia. }
    apply elem_of_dom. rewrite Heq. apply elem_of_list_to_set.
    by apply (list_elem_of_fmap_2 t_id).
  - intros Hall. apply Hfull.
    + destruct (DAG.tasks D) as [|t tasks] eqn:Hts; [done |].
      intros Hempty. destruct (Hall t) as [r Hr]; [left |].
      rewrite Hempty in Hr. by rewrite lookup_empty in Hr.
    + apply Nat.le_antisymm; [done |].
      rewrite <- (length_map t_id), <- (size_list_to_set (C := gset string))
        by done.
      rewrite <- (size_dom (D := gset string)). apply subseteq_size.
      intros k Hk. apply elem_of_list_to_set in Hk.
      apply list_elem_of_fmap in Hk as (t & -> & Ht).
      apply elem_of_dom. by apply Hall.
Qed.

Lemma X24_completed_when_all_done_witness :
  DAG.status single_done = DAG.completed ↔
  ∀ t, t ∈ DAG.tasks single_done →
       is_Some (DAG.task_results single_done !! t_id t).
Proof.
  apply X24_completed_when_all_done.
  - apply dag_ingested, dag_submitted.
  - discriminate.
  - apply NoDup_singleton.
  - intros k [r Hr]. destruct (decide (k = "a")) as [->|Hne]; [left |].
    unfold single_done in Hr. rewrite update_task_result_results in Hr.
    rewrite lookup_insert_ne in Hr by done.
    change (DAG.task_results single_dag) with (∅ : gmap string Result) in Hr.
    by rewrite lookup_empty in Hr.
Defined.

(** X25.  A DAG that declares a task id twice never completes on the
    results of its own tasks: there are fewer ids than declarations, and
    the status is completed only when there are as many results as
    declarations. *)
Theorem X25_duplicate_ids_never_complete (D : DAG.t) :
  dag_reachable D →
  ¬ NoDup (map t_id (DAG.tasks D)) →
  own_results D →
  DAG.status D ≠ DAG.completed.
Proof.
  intros Hreach Hdup Hown Hst.
  destruct (dag_reachable_inv D Hreach) as (_ & _ & _ & Hge).
  specialize (Hge Hst).
  pose proof (own_results_size D Hown) as Hle.
  pose proof (size_list_to_set_dup _ Hdup) as Hlt.
  rewrite length_map in Hlt. lia.
Qed.

Lemma X25_duplicate_ids_never_complete_witness :
  DAG.status (DAG.update_task_result dup_dag "a" (result_of true "d1") 5)
  ≠ DAG.completed.
Proof.
  apply X25_duplicate_ids_never_complete.
  - apply dag_ingested, dag_submitted.
  - rewrite update_task_result_tasks. intros Hnd.
    apply NoDup_cons in Hnd as [Hnotin _]. apply Hnotin. left.
  - intros k [r Hr]. rewrite update_task_result_tasks.
    destruct (decide (k = "a")) as [->|Hne]; [left |].
    rewrite update_task_result_results in Hr.
    rewrite lookup_insert_ne in Hr by done.
    change (DAG.task_results dup_dag) with (∅ : gmap string Result) in Hr.
    by rewrite lookup_empty in Hr.
Defined.

Lemma ready_iff_own_deps (D : DAG.t) (t : Task) :
  dag_reachable D → NoDup (map t_id (DAG.tasks D)) → t ∈ DAG.tasks D →
  t ∈ DAG.get_ready_tasks D ↔
  DAG.task_results D !! t_id t = None ∧
  ∀ dep, dep ∈ DAG.depends_on t → is_Some (DAG.task_results D !! dep).
Proof.
  intros Hreach Hnd Hin.
  rewrite get_ready_tasks_filter, list_elem_of_filter, is_ready_true.
  rewrite (dag_reachable_built D Hreach), build_dependencies_lookup.
  rewrite (declared_deps_unique _ _ Hnd Hin). tauto.
Qed.

Lemma first_unfinished_task (results : gmap string Result)
    (tasks : list Task) (earlier : list string) :
  declared_in_order earlier tasks →
  (∀ k, k ∈ earlier → is_Some (results !! k)) →
  (∃ t, t ∈ tasks ∧ results !! t_id t = None) →
  ∃ t, t ∈ tasks ∧ results !! t_id t = None ∧
       ∀ dep, dep ∈ DAG.depends_on t → is_Some (results !! dep).
Proof.
  revert earlier. induction tasks as [|t tasks IH];
    intros earlier Horder Hdone (t0 & Hin & Hnone).
  - by apply elem_of_nil in Hin.
  - destruct Horder as [Hdeps Horder].
    destruct (results !! t_id t) as [r|] eqn:Hr.
    + destruct (IH (earlier ++ [t_id t]) Horder) as (t1 & Hin1 & Hnone1 & Hd1).
      * intros k [Hk| ->%list_elem_of_singleton]%elem_of_app;
          [by apply Hdone | eauto].
      * apply elem_of_cons in Hin as [->|Hin]; [congruence |].
        by exists t0.
      * exists t1. split; [by right | done].
    + exists t. split; [left |]. split; [done |].
      intros dep Hdep. by apply Hdone, Hdeps.
Qed.

(** X26.  Progress.  In a DAG with pairwise distinct task ids whose tasks
    are declared after the tasks they depend on, as long as some task has
    no result the ready set is not empty: there is a task without a result
    all of whose dependencies have one. *)
Theorem X26_unfinished_dag_has_ready_task (D : DAG.t) :
  dag_reachable D →
  NoDup (map t_id (DAG.tasks D)) →
  declared_in_order [] (DAG.tasks D) →
  (∃ t, t ∈ DAG.tasks D ∧ DAG.task_results D !! t_id t = None) →
  ∃ t, t ∈ DAG.get_ready_tasks D.
Proof.
  intros Hreach Hnd Horder Hleft.
  destruct (first_unfinished_task (DAG.task_results D) (DAG.tasks D) []
              Horder) as (t & Hin & Hnone & Hdeps); [| done |].
  { by intros k ?%elem_of_nil. }
  exists t. by apply ready_iff_own_deps.
Qed.

Lemma X26_unfinished_dag_has_ready_task_witness :
  ∃ t, t ∈ DAG.get_ready_tasks diamond_dag.
Proof.
  apply X26_unfinished_dag_has_ready_task.
  - apply dag_ingested, dag_submitted.
  - unfold diamond_dag. rewrite update_task_result_tasks.
    apply NoDup_ListNoDup. vm_compute.
    repeat constructor; simpl; intros H; repeat destruct H as [H|H];
      try discriminate; done.
  - unfold diamond_dag. rewrite update_task_result_tasks.
    simpl. unfold DAG.depends_on. simpl.
    split_and!; try done; intros dep Hdep; set_unfold; tauto.
  - exists (task_of "b" (Some ["a"])). split.
    + unfold diamond_dag. rewrite update_task_result_tasks. right. left.
    + vm_compute. reflexivity.
Defined.

(** X27.  At submission the ready set consists of the roots: a freshly
    constructed DAG has as ready tasks exactly its tasks whose recorded
    dependency list is empty, in declaration order (tasks without
    ["depends_on"] and tasks with an empty one alike). *)
Theorem X27_roots_are_ready_at_submission (dag_id name : string)
    (tasks : list Task) (now : Z) :
  DAG.get_ready_tasks (DAG.__init__ dag_id name tasks now)
  = filter (λ t, declared_deps tasks (t_id t) = []) tasks.
Proof.
  rewrite get_ready_tasks_filter. cbn [DAG.__init__ DAG.tasks].
  apply list_filter_iff. intros t. rewrite is_ready_true.
  cbn [DAG.__init__ DAG.task_results DAG.task_dependencies].
  rewrite build_dependencies_lookup. split.
  - intros [_ Hdeps]. destruct (declared_deps tasks (t_id t)) as [|dep deps];
      [done |].
    destruct (Hdeps dep) as [r Hr]; [left |]. by rewrite lookup_empty in Hr.
  - intros ->. split; [apply lookup_empty |]. by intros dep ?%elem_of_nil.
Qed.
